(** * python-logstash: the Logstash formatters of [logstash/formatter.py]

    A shallow embedding of [LogstashFormatterBase], [LogstashFormatterVersion0]
    and [LogstashFormatterVersion1], with the part of the Python 3 runtime
    they call (value model, [repr], [str], [float], [datetime],
    [json.dumps]), followed by the properties of the formatters.

    Conventions.
    - An exception is a value of [exn]; a computation that may raise has
      type [result A].
    - A Python [int] is a [Z], a [float] a binary64 [spec_float], a [str] a
      [string] whose characters are the code points 0..255.
    - What depends on the machine (host name, local time zone, the C
      library's [strftime], the traceback printer) is a field of [runtime]. *)

From Stdlib Require Import ZArith QArith Qround Qpower List String Ascii Bool
  Lia Lqa.
From Stdlib Require Import Floats.SpecFloat.
Import ListNotations.

Local Open Scope list_scope.
Local Open Scope string_scope.
Local Open Scope Z_scope.

(** ** Exceptions and results *)

Inductive exn : Type :=
| AttributeError
| TypeError
| ValueError
| OverflowError
| OSError
| Exception (cls : string).

Inductive result (A : Type) : Type :=
| Ok (a : A)
| Raise (e : exn).

Arguments Ok {A} a.
Arguments Raise {A} e.

Definition bind {A B : Type} (m : result A) (k : A -> result B) : result B :=
  match m with
  | Ok a => k a
  | Raise e => Raise e
  end.

Notation "x <- m ;; k" := (bind m (fun x => k))
  (at level 61, m at next level, right associativity).

Definition fmap {A B : Type} (f : A -> B) (m : result A) : result B :=
  x <- m ;; Ok (f x).

Definition returns {A : Type} (m : result A) : Prop := exists a, m = Ok a.

(** [mapM f l] runs [f] on the elements of [l] from left to right and stops at
    the first one that raises: the evaluation order of a comprehension. *)
Definition mapM {A B : Type} (f : A -> result B) : list A -> result (list B) :=
  fix go (l : list A) : result (list B) :=
    match l with
    | [] => Ok []
    | x :: rest => y <- f x ;; ys <- go rest ;; Ok (y :: ys)
    end.

(** ** Text *)

Module Text.

Definition digit_char (d : Z) : ascii := ascii_of_N (48 + Z.to_N d).

(** The [w] low decimal digits of [n], most significant first. *)
Fixpoint digits_fixed (w : nat) (n : Z) : string :=
  match w with
  | O => ""
  | S w' => String (digit_char (n / 10 ^ Z.of_nat w' mod 10))
                   (digits_fixed w' n)
  end.

Fixpoint ndigits_aux (fuel : nat) (n : Z) : nat :=
  match fuel with
  | O => 1
  | S fuel' => if n <? 10 then 1%nat else S (ndigits_aux fuel' (n / 10))
  end.

(** Number of decimal digits of [n >= 0]. *)
Definition ndigits (n : Z) : nat := ndigits_aux (Z.to_nat (Z.log2 n)) n.

(** [str(n)] for an [int]. *)
Definition dec (n : Z) : string :=
  if n <? 0 then "-" ++ digits_fixed (ndigits (- n)) (- n)
  else digits_fixed (ndigits n) n.

(** ["%0wd" % n] for [n >= 0]. *)
Definition fmt_0d (w : nat) (n : Z) : string :=
  digits_fixed (Nat.max w (ndigits n)) n.

Definition hex_char (d : Z) : ascii :=
  if d <? 10 then ascii_of_N (48 + Z.to_N d) else ascii_of_N (87 + Z.to_N d).

(** The [w] low hexadecimal digits of [n], lower case. *)
Fixpoint hex_fixed (w : nat) (n : Z) : string :=
  match w with
  | O => ""
  | S w' => String (hex_char (n / 16 ^ Z.of_nat w' mod 16)) (hex_fixed w' n)
  end.

Fixpoint join (sep : string) (l : list string) : string :=
  match l with
  | [] => ""
  | [s] => s
  | s :: rest => s ++ sep ++ join sep rest
  end.

Definition code (c : ascii) : Z := Z.of_N (N_of_ascii c).

Fixpoint contains (c : ascii) (s : string) : bool :=
  match s with
  | EmptyString => false
  | String c' s' => Ascii.eqb c c' || contains c s'
  end.

Fixpoint flat_map_chars (f : ascii -> string) (s : string) : string :=
  match s with
  | EmptyString => ""
  | String c s' => f c ++ flat_map_chars f s'
  end.

Fixpoint zeros (n : nat) : string :=
  match n with
  | O => ""
  | S n' => String "0" (zeros n')
  end.

Definition is_digit (c : ascii) : bool := (48 <=? code c) && (code c <=? 57).

End Text.

(** ** The proleptic Gregorian calendar and [datetime] *)

Module Calendar.

Definition is_leap (y : Z) : bool :=
  (y mod 4 =? 0) && (negb (y mod 100 =? 0) || (y mod 400 =? 0)).

Definition days_in_year (y : Z) : Z := if is_leap y then 366 else 365.

(** Days before January 1st of year [y], counted from 0001-01-01. *)
Definition days_before_year (y : Z) : Z :=
  let p := y - 1 in 365 * p + p / 4 - p / 100 + p / 400.

Definition days_in_month (y m : Z) : Z :=
  if m =? 2 then (if is_leap y then 29 else 28)
  else if (m =? 4) || (m =? 6) || (m =? 9) || (m =? 11) then 30
  else 31.

(** Days of year [y] before the first day of month [m]. *)
Definition days_before_month (y m : Z) : Z :=
  let l := if is_leap y then 1 else 0 in
  if m <=? 1 then 0
  else if m =? 2 then 31
  else if m =? 3 then 59 + l
  else if m =? 4 then 90 + l
  else if m =? 5 then 120 + l
  else if m =? 6 then 151 + l
  else if m =? 7 then 181 + l
  else if m =? 8 then 212 + l
  else if m =? 9 then 243 + l
  else if m =? 10 then 273 + l
  else if m =? 11 then 304 + l
  else 334 + l.

(** Proleptic Gregorian ordinal: 0001-01-01 is day 1. *)
Definition ymd_to_ord (y m d : Z) : Z :=
  days_before_year y + days_before_month y m + d.

(** Year and 0-based day of the year of an ordinal, by 400, 100, 4 and 1
    year cycles. *)
Definition year_of_ord (ordinal : Z) : Z * Z :=
  let n := ordinal - 1 in
  let n400 := n / 146097 in
  let n := n mod 146097 in
  let n100 := n / 36524 in
  let n := n mod 36524 in
  let n4 := n / 1461 in
  let n := n mod 1461 in
  let n1 := n / 365 in
  let n := n mod 365 in
  let y := n400 * 400 + n100 * 100 + n4 * 4 + n1 + 1 in
  if (n1 =? 4) || (n100 =? 4) then (y - 1, 365) else (y, n).

(** Month of the 0-based day [n] of year [y]. *)
Definition month_of_yday (y n : Z) : Z :=
  if n <? days_before_month y 2 then 1
  else if n <? days_before_month y 3 then 2
  else if n <? days_before_month y 4 then 3
  else if n <? days_before_month y 5 then 4
  else if n <? days_before_month y 6 then 5
  else if n <? days_before_month y 7 then 6
  else if n <? days_before_month y 8 then 7
  else if n <? days_before_month y 9 then 8
  else if n <? days_before_month y 10 then 9
  else if n <? days_before_month y 11 then 10
  else if n <? days_before_month y 12 then 11
  else 12.

Definition ord_to_ymd (ordinal : Z) : Z * Z * Z :=
  let '(y, n) := year_of_ord ordinal in
  let m := month_of_yday y n in
  (y, m, n - days_before_month y m + 1).

(** Ordinal of 1970-01-01. *)
Definition epoch_ord : Z := 719163.

Record datetime : Type := mkdatetime {
  year : Z; month : Z; day : Z;
  hour : Z; minute : Z; second : Z;
  microsecond : Z
}.

Record date : Type := mkdate { d_year : Z; d_month : Z; d_day : Z }.

(** Broken-down UTC time of [secs] seconds since the epoch, and the
    microsecond [us]: what [gmtime] computes. *)
Definition gmtime (secs us : Z) : datetime :=
  let days := secs / 86400 in
  let rem := secs mod 86400 in
  let '(y, m, d) := ord_to_ymd (days + epoch_ord) in
  mkdatetime y m d (rem / 3600) (rem mod 3600 / 60) (rem mod 60) us.

(** Seconds since the epoch of a broken-down time read as UTC
    ([calendar.timegm]). *)
Definition timegm (y m d hh mm ss : Z) : Z :=
  (ymd_to_ord y m d - epoch_ord) * 86400 + hh * 3600 + mm * 60 + ss.

(** Nearest integer, ties to the even one. *)
Definition round_half_even (q : Q) : Z :=
  let f := Qfloor q in
  match Qcompare (q - inject_Z f) (1 # 2) with
  | Lt => f
  | Eq => if Z.even f then f else f + 1
  | Gt => f + 1
  end.

(** *** The conversion of a [float] timestamp

    [datetime.utcfromtimestamp] takes the fraction of a [float] with [modf],
    multiplies it by [1e6] as a [double], rounds the product to an integer,
    ties to even, and carries into the seconds.  The value of a [double] is
    a rational; the product is the double nearest to the exact product. *)

(** [floor (log2 q)], for [q > 0]. *)
Definition log2_floor (q : Q) : Z :=
  let k := Z.log2 (Qnum q) - Z.log2 (Zpos (Qden q)) in
  if Qle_bool (2 ^ k) q then k else k - 1.

(** The exponent of the unit in the last place of the doubles around
    [a >= 0]: 53 bits of precision, the subnormal numbers from [2 ^ -1074]
    on. *)
Definition ulp_exponent (a : Q) : Z := Z.max (log2_floor a - 52) (- 1074).

(** The double nearest to [a >= 0], ties to the even significand (below the
    overflow threshold). *)
Definition round_magnitude (a : Q) : Q :=
  inject_Z (round_half_even (a / 2 ^ ulp_exponent a)) * 2 ^ ulp_exponent a.

(** The double nearest to [q]. *)
Definition round_double (q : Q) : Q :=
  if Qle_bool 0 q then round_magnitude q else - round_magnitude (- q).

(** The integral part of [modf]: toward zero. *)
Definition trunc (t : Q) : Z := if Qle_bool 0 t then Qfloor t else Qceiling t.

(** [floatpart = modf(d, &intpart); floatpart *= 1e6;
     floatpart = _PyTime_Round(floatpart, ROUND_HALF_EVEN)] *)
Definition floatpart (t : Q) : Z :=
  round_half_even (round_double ((t - inject_Z (trunc t)) * inject_Z 1000000)).

(** The seconds and the microseconds of a timestamp of value [t]: the
    rounded fraction is brought into [0, 10^6), with a carry or a borrow
    of a second. *)
Definition timeval (t : Q) : Z * Z :=
  let intpart := trunc t in
  let floatpart := floatpart t in
  if 1000000 <=? floatpart then (intpart + 1, floatpart - 1000000)
  else if floatpart <? 0 then (intpart - 1, floatpart + 1000000)
  else (intpart, floatpart).

(** Microseconds since the epoch of a timestamp of [t] seconds, as
    [datetime.utcfromtimestamp] counts them. *)
Definition to_micros (t : Q) : Z := trunc t * 1000000 + floatpart t.

(** The [datetime] of [secs] seconds and [us] microseconds.  The seconds
    must fit a 64-bit [time_t] ([OverflowError]), the year the C [int] of
    [struct tm] ([OSError] from [gmtime]) and then 1..9999
    ([ValueError]). *)
Definition from_timeval (secs us : Z) : result datetime :=
  if (secs <? - 2 ^ 63) || (2 ^ 63 <=? secs) then Raise OverflowError
  else
    let dt := gmtime secs us in
    if (year dt - 1900 <? - 2 ^ 31) || (2 ^ 31 <=? year dt - 1900)
    then Raise OSError
    else if (year dt <? 1) || (9999 <? year dt) then Raise ValueError
    else Ok dt.

(** [datetime.utcfromtimestamp] on a [float] of value [t]. *)
Definition utcfromtimestamp_exact (t : Q) : result datetime :=
  let '(secs, us) := timeval t in from_timeval secs us.

(** [strftime]: the directives the formatter uses.  [%m %d %H %M %S] are
    two digits.  [%Y] is four digits where the C library pads the year
    ([pad_year]) and the bare decimal year where it does not (glibc, for a
    year below 1000). *)
Definition directive (pad_year : bool) (dt : datetime) (c : ascii)
  : string :=
  if Ascii.eqb c "Y" then
    (if pad_year then Text.fmt_0d 4 (year dt) else Text.dec (year dt))
  else if Ascii.eqb c "m" then Text.fmt_0d 2 (month dt)
  else if Ascii.eqb c "d" then Text.fmt_0d 2 (day dt)
  else if Ascii.eqb c "H" then Text.fmt_0d 2 (hour dt)
  else if Ascii.eqb c "M" then Text.fmt_0d 2 (minute dt)
  else if Ascii.eqb c "S" then Text.fmt_0d 2 (second dt)
  else if Ascii.eqb c "%" then "%"
  else String "%" (String c "").

Fixpoint strftime (pad_year : bool) (dt : datetime) (fmt : string)
  : string :=
  match fmt with
  | EmptyString => ""
  | String "%" (String c rest) =>
      directive pad_year dt c ++ strftime pad_year dt rest
  | String c rest => String c (strftime pad_year dt rest)
  end.

End Calendar.

(** ** Binary64 floating point: [float] *)

Module Float64.

Definition prec : Z := 53.
Definition emax : Z := 1024.

Definition float : Type := spec_float.

Definition nan : float := S754_nan.
Definition inf (neg : bool) : float := S754_infinity neg.

(** The float nearest to [n / d] (ties to even), with sign [neg]. *)
Definition of_ratio (neg : bool) (n d : positive) : float :=
  let '(mz, ez, lz) := SFdiv_core_binary prec emax (Zpos n) 0 (Zpos d) 0 in
  binary_round_aux prec emax neg mz ez lz.

(** The float nearest to [coeff * 10 ^ exp10], for [coeff >= 0]. *)
Definition of_decimal (neg : bool) (coeff exp10 : Z) : float :=
  match coeff with
  | Zpos c =>
      if 0 <=? exp10 then of_ratio neg (c * Z.to_pos (10 ^ exp10)) 1
      else of_ratio neg c (Z.to_pos (10 ^ (- exp10)))
  | _ => S754_zero neg
  end.

(** [float(n)] for an [int]. *)
Definition of_Z (n : Z) : float := binary_normalize prec emax n 0 false.

(** The exact value of a finite float. *)
Definition to_Q (f : float) : option Q :=
  match f with
  | S754_zero _ => Some 0%Q
  | S754_finite s m e =>
      let v := if 0 <=? e then inject_Z (Zpos m * 2 ^ e)
               else Qmake (Zpos m) (Z.to_pos (2 ^ (- e))) in
      Some (if s then Qopp v else v)
  | _ => None
  end.

Definition eqb (x y : float) : bool :=
  match x, y with
  | S754_zero a, S754_zero b => Bool.eqb a b
  | S754_infinity a, S754_infinity b => Bool.eqb a b
  | S754_nan, S754_nan => true
  | S754_finite a m e, S754_finite b m' e' =>
      Bool.eqb a b && Pos.eqb m m' && Z.eqb e e'
  | _, _ => false
  end.

(** [bool(x)]: every float but the two zeros is true. *)
Definition nonzero (x : float) : bool :=
  match x with
  | S754_zero _ => false
  | _ => true
  end.

(** *** [repr]: the shortest decimal string that reads back as the float *)

(** [n / d < 10 ^ k] *)
Definition lt_pow10 (n d k : Z) : bool :=
  if 0 <=? k then n <? d * 10 ^ k else n * 10 ^ (- k) <? d.

(** The least [k' >= k] with [n / d < 10 ^ (k' + 1)]. *)
Fixpoint find_exp10 (fuel : nat) (n d k : Z) : Z :=
  match fuel with
  | O => k
  | S fuel' =>
      if lt_pow10 n d (k + 1) then k else find_exp10 fuel' n d (k + 1)
  end.

(** Quotient and remainder of [n / d] by [10 ^ s], as
    [(q, r, d')] with [n' = q * d' + r] and [n / d / 10 ^ s = n' / d']. *)
Definition scaled (n d s : Z) : Z * Z * Z :=
  let n' := if 0 <=? s then n else n * 10 ^ (- s) in
  let d' := if 0 <=? s then d * 10 ^ s else d in
  (n' / d', n' mod d', d').

(** A decimal [c * 10 ^ s] of at most [p] digits that reads back as [f],
    the nearest to [n / d] when both neighbours do. *)
Definition candidate (f : float) (n d k : Z) (p : nat) : option (Z * Z) :=
  let s := k - Z.of_nat p + 1 in
  let '(q, r, d') := scaled n d s in
  let lo := eqb (of_decimal false q s) f in
  let hi := eqb (of_decimal false (q + 1) s) f in
  let up := match 2 * r ?= d' with
            | Lt => false
            | Eq => Z.odd q
            | Gt => true
            end in
  if lo && hi then Some (if up then q + 1 else q, s)
  else if lo then Some (q, s)
  else if hi then Some (q + 1, s)
  else None.

Fixpoint shortest (fuel : nat) (f : float) (n d k : Z) (p : nat)
  : Z * Z :=
  match fuel with
  | O => (n, 0)
  | S fuel' =>
      match candidate f n d k p with
      | Some c => c
      | None => shortest fuel' f n d k (S p)
      end
  end.

Fixpoint strip_zeros (fuel : nat) (c s : Z) : Z * Z :=
  match fuel with
  | O => (c, s)
  | S fuel' =>
      if (c mod 10 =? 0) && negb (c =? 0) then strip_zeros fuel' (c / 10) (s + 1)
      else (c, s)
  end.

(** The digits and the position of the decimal point of [m * 2 ^ e]. *)
Definition shortest_digits (m : positive) (e : Z) : string * Z :=
  let n := if 0 <=? e then Zpos m * 2 ^ e else Zpos m in
  let d := if 0 <=? e then 1 else 2 ^ (- e) in
  let k := find_exp10 700 n d (- 324) in
  let '(c, s) := shortest 17 (S754_finite false m e) n d k 1 in
  let '(c, s) := strip_zeros 20 c s in
  let digits := Text.dec c in
  (digits, s + Z.of_nat (String.length digits)).

Definition fmt_exponent (x : Z) : string :=
  (if x <? 0 then "-" else "+") ++ Text.fmt_0d 2 (Z.abs x).

(** Layout of [repr]: scientific notation when the decimal point is at or
    before position -4 or after position 16. *)
Definition layout (digits : string) (decpt : Z) : string :=
  let nd := Z.of_nat (String.length digits) in
  if (decpt <=? - 4) || (16 <? decpt) then
    match digits with
    | String c EmptyString => String c "e" ++ fmt_exponent (decpt - 1)
    | String c rest =>
        String c (String "." rest) ++ "e" ++ fmt_exponent (decpt - 1)
    | EmptyString => ""
    end
  else if decpt <=? 0 then
    "0." ++ Text.zeros (Z.to_nat (- decpt)) ++ digits
  else if nd <=? decpt then
    digits ++ Text.zeros (Z.to_nat (decpt - nd)) ++ ".0"
  else
    substring 0 (Z.to_nat decpt) digits ++ "." ++
    substring (Z.to_nat decpt) (Z.to_nat (nd - decpt)) digits.

Definition repr (f : float) : string :=
  match f with
  | S754_nan => "nan"
  | S754_infinity s => if s then "-inf" else "inf"
  | S754_zero s => if s then "-0.0" else "0.0"
  | S754_finite s m e =>
      let '(digits, decpt) := shortest_digits m e in
      (if s then "-" else "") ++ layout digits decpt
  end.

End Float64.

(** ** Reading a float: [float(s)] for a [str] *)

Module FloatParse.

Definition is_space (c : ascii) : bool :=
  let n := Text.code c in
  ((9 <=? n) && (n <=? 13)) || ((28 <=? n) && (n <=? 32))
  || (n =? 133) || (n =? 160).

Fixpoint lstrip (s : string) : string :=
  match s with
  | String c rest => if is_space c then lstrip rest else s
  | EmptyString => ""
  end.

(** [s] without its trailing white space, or [None] when [s] is white
    space only. *)
Fixpoint rstrip (s : string) : option string :=
  match s with
  | EmptyString => None
  | String c rest =>
      match rstrip rest with
      | Some r => Some (String c r)
      | None => if is_space c then None else Some (String c "")
      end
  end.

Definition strip (s : string) : string :=
  match rstrip (lstrip s) with
  | Some r => r
  | None => ""
  end.

Definition lower (c : ascii) : ascii :=
  let n := Text.code c in
  if (65 <=? n) && (n <=? 90) then ascii_of_N (Z.to_N (n + 32)) else c.

Definition lower_str (s : string) : string :=
  Text.flat_map_chars (fun c => String (lower c) "") s.

(** A run of digits, single underscores allowed between two digits:
    its value after [acc], the number of digits read after [cnt], and the
    rest of the text. *)
Fixpoint read_digits (s : string) (acc : Z) (cnt : nat)
  : Z * nat * string :=
  match s with
  | EmptyString => (acc, cnt, "")
  | String c rest =>
      if Text.is_digit c
      then read_digits rest (10 * acc + (Text.code c - 48)) (S cnt)
      else if Ascii.eqb c "_" && negb (Nat.eqb cnt 0) then
        match rest with
        | String c' _ =>
            if Text.is_digit c' then read_digits rest acc cnt
            else (acc, cnt, s)
        | EmptyString => (acc, cnt, s)
        end
      else (acc, cnt, s)
  end.

Definition read_sign (s : string) : bool * string :=
  match s with
  | String "-" rest => (true, rest)
  | String "+" rest => (false, rest)
  | _ => (false, s)
  end.

(** The exponent part: [e] or [E], an optional sign, at least one digit. *)
Definition read_exponent (s : string) : option (Z * string) :=
  match s with
  | String c rest =>
      if Ascii.eqb (lower c) "e" then
        let '(neg, rest) := read_sign rest in
        let '(v, cnt, rest) := read_digits rest 0 0 in
        if Nat.eqb cnt 0 then None
        else Some (if neg then - v else v, rest)
      else Some (0, s)
  | EmptyString => Some (0, s)
  end.

(** [float(s)]: [ValueError] unless [s], stripped, is a signed decimal
    literal or one of [inf], [infinity], [nan] in any case. *)
Definition float_of_string (s : string) : result Float64.float :=
  let '(neg, body) := read_sign (strip s) in
  let word := lower_str body in
  if String.eqb word "inf" || String.eqb word "infinity"
  then Ok (Float64.inf neg)
  else if String.eqb word "nan" then Ok Float64.nan
  else
    let '(ip, icnt, rest) := read_digits body 0 0 in
    let '(coeff, fcnt, rest) :=
      match rest with
      | String "." rest' => read_digits rest' ip 0
      | _ => (ip, O, rest)
      end in
    if Nat.eqb icnt 0 && Nat.eqb fcnt 0 then Raise ValueError
    else
      match read_exponent rest with
      | Some (e, EmptyString) =>
          Ok (Float64.of_decimal neg coeff (e - Z.of_nat fcnt))
      | _ => Raise ValueError
      end.

End FloatParse.

(** ** [decimal.Decimal] *)

Module Decimal.

(** A finite number is [(-1) ^ neg * coeff * 10 ^ exp] with [coeff >= 0];
    a NaN is quiet or signaling and carries a payload, 0 for none. *)
Inductive decimal : Type :=
| Finite (neg : bool) (coeff : Z) (exp : Z)
| Infinity (neg : bool)
| NaN (neg : bool) (signaling : bool) (payload : Z).

Definition sign_str (neg : bool) : string := if neg then "-" else "".

(** ["%+d" % n] *)
Definition fmt_signed (n : Z) : string :=
  if n <? 0 then Text.dec n else "+" ++ Text.dec n.

(** [str(d)]: the scientific string of the decimal arithmetic
    specification. *)
Definition to_str (d : decimal) : string :=
  match d with
  | Infinity neg => sign_str neg ++ "Infinity"
  | NaN neg signaling payload =>
      sign_str neg ++ (if signaling then "sNaN" else "NaN")
      ++ (if payload =? 0 then "" else Text.dec payload)
  | Finite neg coeff exp =>
      let digits := Text.dec coeff in
      let len := Z.of_nat (String.length digits) in
      let leftdigits := exp + len in
      let dotplace :=
        if (exp <=? 0) && (- 6 <? leftdigits) then leftdigits else 1 in
      let intpart :=
        if dotplace <=? 0 then "0"
        else if len <=? dotplace
             then digits ++ Text.zeros (Z.to_nat (dotplace - len))
             else substring 0 (Z.to_nat dotplace) digits in
      let fracpart :=
        if dotplace <=? 0
        then "." ++ Text.zeros (Z.to_nat (- dotplace)) ++ digits
        else if len <=? dotplace then ""
             else "." ++ substring (Z.to_nat dotplace)
                                   (Z.to_nat (len - dotplace)) digits in
      let e :=
        if leftdigits =? dotplace then ""
        else "E" ++ fmt_signed (leftdigits - dotplace) in
      sign_str neg ++ intpart ++ fracpart ++ e
  end.

(** [bool(d)] *)
Definition nonzero (d : decimal) : bool :=
  match d with
  | Finite _ coeff _ => negb (coeff =? 0)
  | _ => true
  end.

End Decimal.

(** ** Python values *)

(** An instance of a class the formatter knows nothing about, by what the
    interpreter gets from it: the name of its class, whether it has the
    attributes of an exception and of a traceback that
    [traceback.format_exception] reads, and the outcome of [repr(o)],
    [str(o)] and [bool(o)]. *)
Record pyobject : Type := mkobject {
  ob_class : string;
  ob_exception : bool;
  ob_traceback : bool;
  ob_repr : result string;
  ob_str : result string;
  ob_bool : bool
}.

(** A [dict] keeps its items in insertion order; a [VDict] and a [VList]
    stand for an instance of [dict] or [list] or of a subclass, a [VUUID]
    for the 128-bit integer of a [uuid.UUID]. *)
Inductive pyval : Type :=
| VNone
| VBool (b : bool)
| VInt (n : Z)
| VFloat (f : Float64.float)
| VStr (s : string)
| VDict (items : list (pyval * pyval))
| VList (items : list pyval)
| VTuple (items : list pyval)
| VDatetime (d : Calendar.datetime)
| VDate (d : Calendar.date)
| VDecimal (d : Decimal.decimal)
| VUUID (u : Z)
| VObject (o : pyobject).

(** A dictionary whose keys are [str]: an instance [__dict__], the field
    mappings and the message the formatters build. *)
Definition sdict : Type := list (string * pyval).

Module Py.

Definition dquote : ascii := ascii_of_N 34.
Definition squote : ascii := ascii_of_N 39.
Definition backslash : ascii := ascii_of_N 92.

(** [bool(v)] *)
Definition truthy (v : pyval) : bool :=
  match v with
  | VNone => false
  | VBool b => b
  | VInt n => negb (n =? 0)
  | VFloat f => Float64.nonzero f
  | VStr s => negb (String.eqb s "")
  | VDict items => match items with [] => false | _ => true end
  | VList items => match items with [] => false | _ => true end
  | VTuple items => match items with [] => false | _ => true end
  | VDatetime _ => true
  | VDate _ => true
  | VDecimal d => Decimal.nonzero d
  | VUUID _ => true
  | VObject o => ob_bool o
  end.

(** *** [repr] and [str] *)

(** [sys.int_info.default_max_str_digits]: the limit of the conversion of
    an [int] to a decimal string, in an interpreter started with its
    defaults. *)
Definition int_max_str_digits : Z := 4300.

(** [repr(n)] and [str(n)] for an [int]: a [ValueError] when [n] has more
    digits than the limit, the sign not counted. *)
Definition int_repr (n : Z) : result string :=
  if int_max_str_digits <? Z.of_nat (Text.ndigits (Z.abs n))
  then Raise ValueError
  else Ok (Text.dec n).

(** Printable code points below 256. *)
Definition printable (c : ascii) : bool :=
  let n := Text.code c in
  ((32 <=? n) && (n <=? 126)) || ((161 <=? n) && negb (n =? 173)).

Definition repr_char (quote c : ascii) : string :=
  if Ascii.eqb c quote || Ascii.eqb c backslash
  then String backslash (String c "")
  else if Text.code c =? 9 then String backslash "t"
  else if Text.code c =? 10 then String backslash "n"
  else if Text.code c =? 13 then String backslash "r"
  else if printable c then String c ""
  else String backslash ("x" ++ Text.hex_fixed 2 (Text.code c)).

(** [repr(s)] for a [str]: single quotes, unless [s] holds a single quote
    and no double quote. *)
Definition str_repr (s : string) : string :=
  let quote :=
    if Text.contains squote s && negb (Text.contains dquote s)
    then dquote else squote in
  String quote (Text.flat_map_chars (repr_char quote) s
                ++ String quote "").

(** [str(u)] for a UUID: the 32 hexadecimal digits in groups of
    8-4-4-4-12. *)
Definition uuid_str (u : Z) : string :=
  let h := Text.hex_fixed 32 u in
  substring 0 8 h ++ "-" ++ substring 8 4 h ++ "-" ++ substring 12 4 h
  ++ "-" ++ substring 16 4 h ++ "-" ++ substring 20 12 h.

Definition date_str (y m d : Z) : string :=
  Text.fmt_0d 4 y ++ "-" ++ Text.fmt_0d 2 m ++ "-" ++ Text.fmt_0d 2 d.

(** [str(d)] for a [datetime]: ISO format with a space. *)
Definition datetime_str (d : Calendar.datetime) : string :=
  date_str (Calendar.year d) (Calendar.month d) (Calendar.day d) ++ " "
  ++ Text.fmt_0d 2 (Calendar.hour d) ++ ":"
  ++ Text.fmt_0d 2 (Calendar.minute d) ++ ":"
  ++ Text.fmt_0d 2 (Calendar.second d)
  ++ (if Calendar.microsecond d =? 0 then ""
      else "." ++ Text.fmt_0d 6 (Calendar.microsecond d)).

Definition datetime_repr (d : Calendar.datetime) : string :=
  "datetime.datetime(" ++ Text.dec (Calendar.year d) ++ ", "
  ++ Text.dec (Calendar.month d) ++ ", " ++ Text.dec (Calendar.day d)
  ++ ", " ++ Text.dec (Calendar.hour d) ++ ", "
  ++ Text.dec (Calendar.minute d)
  ++ (if Calendar.microsecond d =? 0 then
        (if Calendar.second d =? 0 then ""
         else ", " ++ Text.dec (Calendar.second d))
      else ", " ++ Text.dec (Calendar.second d) ++ ", "
           ++ Text.dec (Calendar.microsecond d))
  ++ ")".

Definition date_repr (d : Calendar.date) : string :=
  "datetime.date(" ++ Text.dec (Calendar.d_year d) ++ ", "
  ++ Text.dec (Calendar.d_month d) ++ ", " ++ Text.dec (Calendar.d_day d)
  ++ ")".

Fixpoint repr (v : pyval) : result string :=
  match v with
  | VNone => Ok "None"
  | VBool b => Ok (if b then "True" else "False")
  | VInt n => int_repr n
  | VFloat f => Ok (Float64.repr f)
  | VStr s => Ok (str_repr s)
  | VDict items =>
      xs <- mapM (fun kv : pyval * pyval =>
                    let (k, x) := kv in
                    rk <- repr k ;; rx <- repr x ;; Ok (rk ++ ": " ++ rx))
                 items ;;
      Ok ("{" ++ Text.join ", " xs ++ "}")
  | VList items =>
      xs <- mapM repr items ;; Ok ("[" ++ Text.join ", " xs ++ "]")
  | VTuple items =>
      xs <- mapM repr items ;;
      match xs with
      | [x] => Ok ("(" ++ x ++ ",)")
      | _ => Ok ("(" ++ Text.join ", " xs ++ ")")
      end
  | VDatetime d => Ok (datetime_repr d)
  | VDate d => Ok (date_repr d)
  | VDecimal d => Ok ("Decimal('" ++ Decimal.to_str d ++ "')")
  | VUUID u => Ok ("UUID('" ++ uuid_str u ++ "')")
  | VObject o => ob_repr o
  end.

(** [str(v)], which is also what ["%s" % v] prints. *)
Definition str (v : pyval) : result string :=
  match v with
  | VStr s => Ok s
  | VDatetime d => Ok (datetime_str d)
  | VDate d =>
      Ok (date_str (Calendar.d_year d) (Calendar.d_month d)
                   (Calendar.d_day d))
  | VDecimal d => Ok (Decimal.to_str d)
  | VUUID u => Ok (uuid_str u)
  | VObject o => ob_str o
  | _ => repr v
  end.

(** *** Dictionaries with [str] keys *)

Fixpoint dict_get (k : string) (d : sdict) : option pyval :=
  match d with
  | [] => None
  | (k', v) :: rest => if String.eqb k k' then Some v else dict_get k rest
  end.

(** [d[k] = v]: an existing key keeps its place, a new one goes last. *)
Fixpoint dict_set (k : string) (v : pyval) (d : sdict) : sdict :=
  match d with
  | [] => [(k, v)]
  | (k', v') :: rest =>
      if String.eqb k k' then (k', v) :: rest
      else (k', v') :: dict_set k v rest
  end.

(** [d.update(other)] *)
Definition dict_update (d other : sdict) : sdict :=
  fold_left (fun acc kv => dict_set (fst kv) (snd kv) acc) other d.

Definition keys (d : sdict) : list string := map fst d.

(** The [dict] object of an [sdict]. *)
Definition dict_val (d : sdict) : pyval :=
  VDict (map (fun kv => (VStr (fst kv), snd kv)) d).

End Py.

(** ** [json.dumps], with its default arguments *)

Module Json.

(** A character inside a JSON string ([ensure_ascii]): everything outside
    the printable ASCII range is escaped. *)
Definition escape_char (c : ascii) : string :=
  let n := Text.code c in
  if Ascii.eqb c Py.dquote then String Py.backslash (String Py.dquote "")
  else if Ascii.eqb c Py.backslash
       then String Py.backslash (String Py.backslash "")
  else if n =? 10 then String Py.backslash "n"
  else if n =? 13 then String Py.backslash "r"
  else if n =? 9 then String Py.backslash "t"
  else if n =? 8 then String Py.backslash "b"
  else if n =? 12 then String Py.backslash "f"
  else if (32 <=? n) && (n <=? 126) then String c ""
  else String Py.backslash ("u" ++ Text.hex_fixed 4 n).

Definition encode_string (s : string) : string :=
  String Py.dquote (Text.flat_map_chars escape_char s
                    ++ String Py.dquote "").

Definition encode_float (f : Float64.float) : string :=
  match f with
  | S754_nan => "NaN"
  | S754_infinity s => if s then "-Infinity" else "Infinity"
  | _ => Float64.repr f
  end.

(** The text of a dictionary key: a [str] as it is, a number, a boolean or
    [None] as its JSON text ([int.__repr__] for an [int], with its limit);
    any other key is a [TypeError]. *)
Definition encode_key (k : pyval) : result string :=
  match k with
  | VStr s => Ok s
  | VFloat f => Ok (encode_float f)
  | VBool b => Ok (if b then "true" else "false")
  | VNone => Ok "null"
  | VInt n => Py.int_repr n
  | _ => Raise TypeError
  end.

Fixpoint dumps (v : pyval) : result string :=
  match v with
  | VNone => Ok "null"
  | VBool b => Ok (if b then "true" else "false")
  | VInt n => Py.int_repr n
  | VFloat f => Ok (encode_float f)
  | VStr s => Ok (encode_string s)
  | VList items =>
      xs <- mapM dumps items ;; Ok ("[" ++ Text.join ", " xs ++ "]")
  | VTuple items =>
      xs <- mapM dumps items ;; Ok ("[" ++ Text.join ", " xs ++ "]")
  | VDict items =>
      xs <- mapM (fun kv : pyval * pyval =>
                    let (k, x) := kv in
                    tk <- encode_key k ;; tx <- dumps x ;;
                    Ok (encode_string tk ++ ": " ++ tx))
                 items ;;
      Ok ("{" ++ Text.join ", " xs ++ "}")
  | _ => Raise TypeError
  end.

(** [bytes(s, 'utf-8')] for code points below 256. *)
Definition utf8 (s : string) : list Byte.byte :=
  flat_map (fun c : ascii =>
              let n := Z.to_N (Text.code c) in
              if (n <? 128)%N then [byte_of_ascii c]
              else [byte_of_ascii (ascii_of_N (192 + n / 64));
                    byte_of_ascii (ascii_of_N (128 + n mod 64))])
           (list_ascii_of_string s).

End Json.

(** ** The machine the formatter runs on *)

Record runtime : Type := mkruntime {
  (** [socket.gethostname()] and [socket.getfqdn()] *)
  rt_hostname : string;
  rt_fqdn : string;
  (** The local time zone: seconds east of UTC at a wall-clock time, the
      wall clock counted in seconds as by [timegm]. *)
  rt_utcoffset : Z -> Z;
  (** Whether the C library's [strftime] pads [%Y] to four digits. *)
  rt_pad_year : bool;
  (** [traceback.format_exception(etype, value, tb)] for an exception (or
      [None]) and a traceback (or [None]): the lines of the printed
      traceback. *)
  rt_format_exception : pyval -> pyval -> pyval -> list string;
  (** [traceback.format_exception] called with one, four or five
      arguments: the exception alone, or the triple with [limit] and
      [chain]. *)
  rt_format_exception_args : list pyval -> result (list string)
}.

(** A [logging.LogRecord]: its instance dictionary and the outcome of its
    [getMessage()] method. *)
Record LogRecord : Type := mkrecord {
  __dict__ : sdict;
  getMessage : result string
}.

(** [record.name]: the entry of the instance dictionary, [AttributeError]
    when there is none. *)
Definition getattr (record : LogRecord) (name : string) : result pyval :=
  match Py.dict_get name (__dict__ record) with
  | Some v => Ok v
  | None => Raise AttributeError
  end.

(** [getattr(record, name, default)] *)
Definition getattr_default (record : LogRecord) (name : string)
  (default : pyval) : pyval :=
  match Py.dict_get name (__dict__ record) with
  | Some v => v
  | None => default
  end.

(** ** [logstash/formatter.py] *)

(** The attributes of a formatter instance. *)
Record LogstashFormatterBase : Type := mkformatter {
  message_type : pyval;
  tags : pyval;
  host : string
}.

Section Formatter.

Variable rt : runtime.

(** [LogstashFormatterBase.__init__] *)
Definition init (message_type tags : pyval) (fqdn : bool)
  : LogstashFormatterBase :=
  mkformatter message_type
              (match tags with VNone => VList [] | _ => tags end)
              (if fqdn then rt_fqdn rt else rt_hostname rt).

(** [datetime.utcfromtimestamp(timestamp)]: a [float] or an [int]
    ([bool] included), anything else is a [TypeError]; a NaN is a
    [ValueError], an infinity an [OverflowError]. *)
Definition utcfromtimestamp (timestamp : pyval)
  : result Calendar.datetime :=
  match timestamp with
  | VFloat f =>
      match Float64.to_Q f with
      | Some q => Calendar.utcfromtimestamp_exact q
      | None =>
          match f with
          | S754_nan => Raise ValueError
          | _ => Raise OverflowError
          end
      end
  | VInt n => Calendar.from_timeval n 0
  | VBool b => Calendar.from_timeval (if b then 1 else 0) 0
  | _ => Raise TypeError
  end.

(** [format_timestamp]:
    [tstamp.strftime("%Y-%m-%dT%H:%M:%S") + ".%03d" %
     (tstamp.microsecond / 1000) + "Z"].  The quotient is a float, that
    ["%03d"] truncates: the integer quotient, the microsecond being below
    10^6. *)
Definition format_timestamp (timestamp : pyval) : result string :=
  tstamp <- utcfromtimestamp timestamp ;;
  Ok (Calendar.strftime (rt_pad_year rt) tstamp "%Y-%m-%dT%H:%M:%S"
      ++ ("." ++ Text.fmt_0d 3 (Calendar.microsecond tstamp / 1000))
      ++ "Z").

(** [time.mktime(value.timetuple())]: the broken-down time, read in the
    local zone, as a float of whole seconds. *)
Definition mktime (y m d hh mm ss : Z) : pyval :=
  let wall := Calendar.timegm y m d hh mm ss in
  VFloat (Float64.of_Z (wall - rt_utcoffset rt wall)).

Definition mktime_datetime (d : Calendar.datetime) : pyval :=
  mktime (Calendar.year d) (Calendar.month d) (Calendar.day d)
         (Calendar.hour d) (Calendar.minute d) (Calendar.second d).

Definition mktime_date (d : Calendar.date) : pyval :=
  mktime (Calendar.d_year d) (Calendar.d_month d) (Calendar.d_day d) 0 0 0.

(** [value_repr], the function local to [get_extra_fields]. *)
Fixpoint value_repr (value : pyval) : result pyval :=
  match value with
  | VDict items =>
      items' <- mapM (fun kv : pyval * pyval =>
                        let (k, v) := kv in
                        v' <- value_repr v ;; Ok (k, v'))
                     items ;;
      Ok (VDict items')
  | VList items => items' <- mapM value_repr items ;; Ok (VList items')
  | VDatetime d => fmap VStr (format_timestamp (mktime_datetime d))
  | VDate d => fmap VStr (format_timestamp (mktime_date d))
  | VDecimal d =>
      fmap VFloat (FloatParse.float_of_string (Decimal.to_str d))
  | VUUID u => Ok (VStr (Text.hex_fixed 32 u))
  | VStr _ | VBool _ | VFloat _ | VInt _ | VNone => Ok value
  | _ => fmap VStr (Py.repr value)
  end.

Definition skip_list : list string :=
  ["args"; "asctime"; "created"; "exc_info"; "exc_text"; "filename";
   "funcName"; "id"; "levelname"; "levelno"; "lineno"; "module";
   "msecs"; "msecs"; "message"; "msg"; "name"; "pathname"; "process";
   "processName"; "relativeCreated"; "thread"; "threadName"; "extra"].

(** [key in skip_list] *)
Definition in_skip_list (key : string) : bool :=
  existsb (String.eqb key) skip_list.

(** The loop of [get_extra_fields] over the items of [record.__dict__],
    [fields] being the dictionary built so far. *)
Fixpoint extra_fields_loop (items : sdict) (fields : sdict)
  : result sdict :=
  match items with
  | [] => Ok fields
  | (key, value) :: rest =>
      if negb (in_skip_list key) then
        v <- value_repr value ;;
        extra_fields_loop rest (Py.dict_set key v fields)
      else extra_fields_loop rest fields
  end.

Definition get_extra_fields (record : LogRecord) : result sdict :=
  extra_fields_loop (__dict__ record) [].

(** [*exc_info]: the items of a tuple or of a list, the characters of a
    [str], the keys of a [dict]; a value of another type cannot be
    unpacked. *)
Definition star_args (v : pyval) : option (list pyval) :=
  match v with
  | VTuple items | VList items => Some items
  | VStr s => Some (map (fun c => VStr (String c "")) (list_ascii_of_string s))
  | VDict items => Some (map fst items)
  | _ => None
  end.

(** What [traceback.format_exception] takes for the exception and for the
    traceback: [None], or an object with the attributes it reads.  Any
    other value makes it raise [AttributeError]. *)
Definition exception_value (v : pyval) : bool :=
  match v with
  | VNone => true
  | VObject o => ob_exception o
  | _ => false
  end.

Definition traceback_value (v : pyval) : bool :=
  match v with
  | VNone => true
  | VObject o => ob_traceback o
  | _ => false
  end.

(** [format_exception]: the lines of the traceback joined, or the empty
    string.  [traceback.format_exception], called with the items of
    [exc_info], takes the triple of [sys.exc_info()], whose first item it
    ignores; with two arguments it
    raises [ValueError], with none or more than five, or with an
    [exc_info] that cannot be unpacked, [TypeError]. *)
Definition format_exception (exc_info : pyval) : result string :=
  if Py.truthy exc_info then
    match star_args exc_info with
    | Some [etype; value; tb] =>
        if exception_value value && traceback_value tb
        then Ok (Text.join "" (rt_format_exception rt etype value tb))
        else Raise AttributeError
    | Some [_; _] => Raise ValueError
    | Some ([_] as args) | Some ([_; _; _; _] as args)
    | Some ([_; _; _; _; _] as args) =>
        fmap (Text.join "") (rt_format_exception_args rt args)
    | _ => Raise TypeError
    end
  else Ok "".

Definition get_debug_fields (record : LogRecord) : result sdict :=
  exc_info <- getattr record "exc_info" ;;
  stack_trace <- format_exception exc_info ;;
  lineno <- getattr record "lineno" ;;
  process <- getattr record "process" ;;
  threadName <- getattr record "threadName" ;;
  let fields := [("stack_trace", VStr stack_trace); ("lineno", lineno);
                 ("process", process); ("thread_name", threadName)] in
  (* funcName was added in 2.5 *)
  fields <- (if negb (Py.truthy (getattr_default record "funcName" VNone))
             then funcName <- getattr record "funcName" ;;
                  Ok (Py.dict_set "funcName" funcName fields)
             else Ok fields) ;;
  (* processName was added in 2.6 *)
  fields <- (if negb (Py.truthy
                        (getattr_default record "processName" VNone))
             then processName <- getattr record "processName" ;;
                  Ok (Py.dict_set "processName" processName fields)
             else Ok fields) ;;
  Ok fields.

(** [format_source]: ["%s://%s/%s" % (message_type, host, path)] *)
Definition format_source (message_type host path : pyval)
  : result string :=
  a <- Py.str message_type ;;
  b <- Py.str host ;;
  c <- Py.str path ;;
  Ok (a ++ "://" ++ b ++ "/" ++ c).

(** [serialize], on Python 3: [bytes(json.dumps(message), 'utf-8')].  The
    branch for [sys.version_info < (3, 0)], which returns the text of
    [json.dumps] itself, belongs to a Python 2 runtime and is not part of
    this model. *)
Definition serialize (message : pyval) : result (list Byte.byte) :=
  text <- Json.dumps message ;; Ok (Json.utf8 text).

(** The message dictionary of [LogstashFormatterVersion0.format], as it is
    when [serialize] is called. *)
Definition message_v0 (self : LogstashFormatterBase) (record : LogRecord)
  : result sdict :=
  created <- getattr record "created" ;;
  timestamp <- format_timestamp created ;;
  msg <- getMessage record ;;
  pathname <- getattr record "pathname" ;;
  source <- format_source (message_type self) (VStr (host self))
                          pathname ;;
  pathname <- getattr record "pathname" ;;
  levelname <- getattr record "levelname" ;;
  name <- getattr record "name" ;;
  let fields := [("levelname", levelname); ("logger", name)] in
  (* Add extra fields *)
  extra <- get_extra_fields record ;;
  let fields := Py.dict_update fields extra in
  (* If exception, add debug info *)
  exc_info <- getattr record "exc_info" ;;
  fields <- (if Py.truthy exc_info
             then debug <- get_debug_fields record ;;
                  Ok (Py.dict_update fields debug)
             else Ok fields) ;;
  Ok [("@timestamp", VStr timestamp);
      ("@message", VStr msg);
      ("@source", VStr source);
      ("@source_host", VStr (host self));
      ("@source_path", pathname);
      ("@tags", tags self);
      ("@type", message_type self);
      ("@fields", Py.dict_val fields)].

Definition format_v0 (self : LogstashFormatterBase) (record : LogRecord)
  : result (list Byte.byte) :=
  message <- message_v0 self record ;;
  serialize (Py.dict_val message).

(** The message dictionary of [LogstashFormatterVersion1.format]. *)
Definition message_v1 (self : LogstashFormatterBase) (record : LogRecord)
  : result sdict :=
  created <- getattr record "created" ;;
  timestamp <- format_timestamp created ;;
  msg <- getMessage record ;;
  pathname <- getattr record "pathname" ;;
  levelname <- getattr record "levelname" ;;
  name <- getattr record "name" ;;
  let message := [("@timestamp", VStr timestamp);
                  ("@version", VStr "1");
                  ("message", VStr msg);
                  ("host", VStr (host self));
                  ("path", pathname);
                  ("tags", tags self);
                  ("type", message_type self);
                  (* Extra Fields *)
                  ("level", levelname);
                  ("logger_name", name)] in
  (* Add extra fields *)
  extra <- get_extra_fields record ;;
  let message := Py.dict_update message extra in
  (* If exception, add debug info *)
  exc_info <- getattr record "exc_info" ;;
  if Py.truthy exc_info
  then debug <- get_debug_fields record ;;
       Ok (Py.dict_update message debug)
  else Ok message.

Definition format_v1 (self : LogstashFormatterBase) (record : LogRecord)
  : result (list Byte.byte) :=
  message <- message_v1 self record ;;
  serialize (Py.dict_val message).

End Formatter.

(** ** The notions the properties are stated with *)

Definition is_ok {A : Type} (m : result A) : bool :=
  match m with
  | Ok _ => true
  | Raise _ => false
  end.

(** The reserved attribute names as the specification enumerates them;
    [skip_list] is the list of the code. *)
Definition reserved_names : list string :=
  ["args"; "asctime"; "created"; "exc_info"; "exc_text"; "filename";
   "funcName"; "id"; "levelname"; "levelno"; "lineno"; "module"; "msecs";
   "message"; "msg"; "name"; "pathname"; "process"; "processName";
   "relativeCreated"; "thread"; "threadName"; "extra"].

Definition reserved (name : string) : bool :=
  existsb (String.eqb name) reserved_names.

(** The keys of a Python dictionary are distinct. *)
Definition well_formed (d : sdict) : Prop := NoDup (Py.keys d).

(** The categories [value_repr] has a branch for; a tuple and an instance of
    any other class fall through to [repr]. *)
Definition supported_category (v : pyval) : bool :=
  match v with
  | VTuple _ | VObject _ => false
  | _ => true
  end.

Definition is_container (v : pyval) : bool :=
  match v with
  | VDict _ | VList _ => true
  | _ => false
  end.

(** The supported leaf types: date and time, decimal, UUID and the
    primitive types. *)
Definition supported_leaf (v : pyval) : bool :=
  match v with
  | VDatetime _ | VDate _ | VDecimal _ | VUUID _
  | VStr _ | VBool _ | VFloat _ | VInt _ | VNone => true
  | _ => false
  end.

(** A nested container built from supported leaf types. *)
Fixpoint supported_container (v : pyval) : bool :=
  match v with
  | VDict items =>
      forallb (fun kv : pyval * pyval => supported_container (snd kv)) items
  | VList items => forallb supported_container items
  | _ => supported_leaf v
  end.

(** The primitive JSON-safe types. *)
Definition json_primitive (v : pyval) : bool :=
  match v with
  | VStr _ | VBool _ | VFloat _ | VInt _ | VNone => true
  | _ => false
  end.

Fixpoint leaves_json_safe (v : pyval) : bool :=
  match v with
  | VDict items =>
      forallb (fun kv : pyval * pyval => leaves_json_safe (snd kv)) items
  | VList items => forallb leaves_json_safe items
  | _ => json_primitive v
  end.

(** Same container structure: the same keys in the same order, sequences of
    the same length, a leaf where there is a leaf. *)
Inductive same_shape : pyval -> pyval -> Prop :=
| shape_dict (items items' : list (pyval * pyval)) :
    Forall2 (fun kv kv' : pyval * pyval =>
               fst kv = fst kv' /\ same_shape (snd kv) (snd kv'))
            items items' ->
    same_shape (VDict items) (VDict items')
| shape_list (items items' : list pyval) :
    Forall2 same_shape items items' ->
    same_shape (VList items) (VList items')
| shape_leaf (v w : pyval) :
    is_container v = false -> is_container w = false -> same_shape v w.

Definition is_str (v : pyval) : bool :=
  match v with
  | VStr _ => true
  | _ => false
  end.

(** The JSON-safe values of the specification: string, number, boolean,
    null, mapping from string keys to JSON-safe values, ordered sequence of
    JSON-safe values. *)
Fixpoint json_safe (v : pyval) : bool :=
  match v with
  | VStr _ | VBool _ | VFloat _ | VInt _ | VNone => true
  | VDict items =>
      forallb (fun kv : pyval * pyval => is_str (fst kv) && json_safe (snd kv))
              items
  | VList items => forallb json_safe items
  | VTuple items => forallb json_safe items
  | _ => false
  end.

(** An [int] within the limit of the conversion to a string. *)
Definition int_printable (n : Z) : bool :=
  Z.of_nat (Text.ndigits (Z.abs n)) <=? Py.int_max_str_digits.

(** What [json.dumps] takes for a key: a primitive, an [int] within the
    limit. *)
Definition json_key (k : pyval) : bool :=
  match k with
  | VInt n => int_printable n
  | VStr _ | VBool _ | VFloat _ | VNone => true
  | _ => false
  end.

(** What [json.dumps] takes: as [json_safe], with any primitive as a key,
    and every [int] within the limit of the conversion to a string. *)
Fixpoint json_encodable (v : pyval) : bool :=
  match v with
  | VInt n => int_printable n
  | VStr _ | VBool _ | VFloat _ | VNone => true
  | VDict items =>
      forallb (fun kv : pyval * pyval =>
                 json_key (fst kv) && json_encodable (snd kv))
              items
  | VList items => forallb json_encodable items
  | VTuple items => forallb json_encodable items
  | _ => false
  end.

(** Every [int] of a JSON-safe value, and every [int] key, is within the
    limit of the conversion to a string. *)
Fixpoint ints_printable (v : pyval) : bool :=
  match v with
  | VInt n => int_printable n
  | VDict items =>
      forallb (fun kv : pyval * pyval =>
                 match fst kv with
                 | VInt n => int_printable n
                 | _ => true
                 end && ints_printable (snd kv))
              items
  | VList items => forallb ints_printable items
  | VTuple items => forallb ints_printable items
  | _ => true
  end.

(** The exact value of a numeric timestamp. *)
Definition exact_value (timestamp : pyval) : option Q :=
  match timestamp with
  | VFloat f => Float64.to_Q f
  | VInt n => Some (inject_Z n)
  | VBool b => Some (if b then 1 else 0)%Q
  | _ => None
  end.

(** The first and the last second [datetime] represents:
    0001-01-01T00:00:00 and 9999-12-31T23:59:59. *)
Definition min_second : Z := Calendar.timegm 1 1 1 0 0 0.
Definition max_second : Z := Calendar.timegm 9999 12 31 23 59 59.

(** The second the timestamp [t] falls in, once rounded to the microsecond
    as [datetime] rounds it ([Calendar.to_micros]). *)
Definition rounded_second (t : Q) : Z := Calendar.to_micros t / 1000000.

(** The representable range of timestamps. *)
Definition representable (t : Q) : Prop :=
  min_second <= rounded_second t <= max_second.

(** The first second of the year 1000. *)
Definition year_1000 : Z := Calendar.timegm 1000 1 1 0 0 0.

(** The fractional seconds of [t] truncated to milliseconds. *)
Definition truncated_millis (t : Q) : Z :=
  Qfloor ((t - inject_Z (Qfloor t)) * inject_Z 1000).

(** [matches pat s]: [s] has the length of [pat], a digit where [pat] has a
    [d] and the character of [pat] elsewhere. *)
Fixpoint matches (pat s : string) : bool :=
  match pat, s with
  | EmptyString, EmptyString => true
  | String p pat', String c s' =>
      (if Ascii.eqb p "d" then Text.is_digit c else Ascii.eqb p c)
      && matches pat' s'
  | _, _ => false
  end.

Definition iso_shape (s : string) : bool :=
  matches "dddd-dd-ddTdd:dd:dd.dddZ" s.

(** The text of a broken-down time in the shape [YYYY-MM-DDTHH:MM:SS.mmmZ]. *)
Definition iso_text (dt : Calendar.datetime) : string :=
  Text.digits_fixed 4 (Calendar.year dt) ++ "-"
  ++ Text.digits_fixed 2 (Calendar.month dt) ++ "-"
  ++ Text.digits_fixed 2 (Calendar.day dt) ++ "T"
  ++ Text.digits_fixed 2 (Calendar.hour dt) ++ ":"
  ++ Text.digits_fixed 2 (Calendar.minute dt) ++ ":"
  ++ Text.digits_fixed 2 (Calendar.second dt) ++ "."
  ++ Text.digits_fixed 3 (Calendar.microsecond dt / 1000) ++ "Z".

(** [convertible rt v]: the conversion of every leaf of [v] returns, that is
    [float(str(d))] for a decimal, the timestamp of a date or time, [repr]
    for a value without a branch. *)
Fixpoint convertible (rt : runtime) (v : pyval) : bool :=
  match v with
  | VDict items =>
      forallb (fun kv : pyval * pyval => convertible rt (snd kv)) items
  | VList items => forallb (convertible rt) items
  | VDatetime d => is_ok (format_timestamp rt (mktime_datetime rt d))
  | VDate d => is_ok (format_timestamp rt (mktime_date rt d))
  | VDecimal d => is_ok (FloatParse.float_of_string (Decimal.to_str d))
  | VTuple _ | VObject _ => is_ok (Py.repr v)
  | _ => true
  end.

(** The extras of a record: for every name, the normalized value of the
    attribute of that name when it is not reserved, and nothing otherwise. *)
Definition extras_of (rt : runtime) (record : LogRecord) (fields : sdict)
  : Prop :=
  forall (k : string) (v' : pyval),
    Py.dict_get k fields = Some v' <->
    reserved k = false /\
    exists v, Py.dict_get k (__dict__ record) = Some v
              /\ value_repr rt v = Ok v'.

(** The extras region of a message: the [@fields] mapping of version 0, the
    top level of version 1. *)
Definition region_v0 (message : sdict) : option sdict :=
  match Py.dict_get "@fields" message with
  | Some (VDict items) =>
      Some (flat_map (fun kv : pyval * pyval =>
                        match fst kv with
                        | VStr k => [(k, snd kv)]
                        | _ => []
                        end) items)
  | _ => None
  end.

Definition region_v1 (message : sdict) : option sdict := Some message.

(** The keys of the four debug fields and of the two the guards add. *)
Definition debug_keys : list string :=
  ["stack_trace"; "lineno"; "process"; "thread_name"].

Definition guarded_keys : list string := ["funcName"; "processName"].

(** The schema keys of version 1. *)
Definition v1_keys : list string :=
  ["@timestamp"; "@version"; "message"; "host"; "path"; "tags"; "type";
   "level"; "logger_name"].

(** The elements of a sequence value. *)
Definition sequence_items (v : pyval) : option (list pyval) :=
  match v with
  | VList items => Some items
  | VTuple items => Some items
  | _ => None
  end.

(** A date of the calendar, and a broken-down time of the calendar. *)
Definition valid_date (y m d : Z) : Prop :=
  1 <= m <= 12 /\ 1 <= d <= Calendar.days_in_month y m.

Definition valid_time (dt : Calendar.datetime) : Prop :=
  valid_date (Calendar.year dt) (Calendar.month dt) (Calendar.day dt)
  /\ 0 <= Calendar.hour dt < 24 /\ 0 <= Calendar.minute dt < 60
  /\ 0 <= Calendar.second dt < 60 /\ 0 <= Calendar.microsecond dt < 1000000.

(** The millisecond a broken-down UTC time falls in, counted from the
    epoch. *)
Definition epoch_millis (dt : Calendar.datetime) : Z :=
  Calendar.timegm (Calendar.year dt) (Calendar.month dt) (Calendar.day dt)
                  (Calendar.hour dt) (Calendar.minute dt) (Calendar.second dt)
  * 1000 + Calendar.microsecond dt / 1000.

(** The broken-down UTC time of a timestamp of [t] seconds. *)
Definition utc_time (t : Q) : Calendar.datetime :=
  Calendar.gmtime (Calendar.to_micros t / 1000000)
                  (Calendar.to_micros t mod 1000000).

(** The text the timestamp [t] would have with its own second and its
    fractional seconds truncated to milliseconds. *)
Definition truncated_text (t : Q) : string :=
  iso_text (Calendar.gmtime (Qfloor t) (truncated_millis t * 1000)).

(** ** A machine and some values, for the examples *)

Definition newline : string := String (ascii_of_N 10) "".

(** A traceback printer: the header and the frames when there is a
    traceback, then the class and the message of the exception. *)
Definition print_exception (etype value tb : pyval) : list string :=
  let text := fun v => match Py.str v with Ok s => s | Raise _ => "" end in
  (match tb with
   | VNone => []
   | _ => ["Traceback (most recent call last):" ++ newline; text tb]
   end)
  ++ [(match value with VObject o => ob_class o | _ => "NoneType" end)
      ++ ": " ++ text value ++ newline].

(** The printer with other arguments: the exception alone, which has no
    traceback here, or the triple with [limit] and [chain]. *)
Definition print_exception_args (args : list pyval)
  : result (list string) :=
  match args with
  | [exc] =>
      match exc with
      | VNone => Ok (print_exception VNone VNone VNone)
      | VObject o =>
          if ob_exception o then Ok (print_exception VNone exc VNone)
          else Raise TypeError
      | _ => Raise TypeError
      end
  | etype :: value :: tb :: _ =>
      match value, tb with
      | (VNone | VObject _), (VNone | VObject _) =>
          Ok (print_exception etype value tb)
      | _, _ => Raise AttributeError
      end
  | _ => Raise TypeError
  end.

(** A Linux machine on UTC: glibc prints the bare year for [%Y]. *)
Definition linux_utc : runtime :=
  mkruntime "myhost" "myhost.example.org" (fun _ => 0) false print_exception
            print_exception_args.

(** The float [1 - 2 ^ -30], and its exact value. *)
Definition almost_one : pyval :=
  VFloat (S754_finite false 9007199246352384 (- 53)).

Definition almost_one_value : Q := 9007199246352384 # 9007199254740992.

(** The last second of the year 999 and the first of the year 1000. *)
Definition end_of_999 : pyval := VInt (- 30610224001).
Definition start_of_1000 : pyval := VInt (- 30610224000).

(** The float [0.0009995]: its exact value is below 999.5 microseconds,
    and its fraction times [1e6], as a double, is 999.5. *)
Definition near_millisecond : pyval :=
  VFloat (S754_finite false 4609380175418174 (- 62)).

(** The float [1700000000.123456]: 2023-11-14T22:13:20.123456 UTC. *)
Definition in_2023 : pyval :=
  VFloat (S754_finite false 7130316800517812 (- 22)).

Definition in_2023_value : Q := 7130316800517812 # 4194304.

(** What [value_repr] does to an item of a dictionary. *)
Definition normalize_item (rt : runtime) (kv : pyval * pyval)
  : result (pyval * pyval) :=
  let (k, v) := kv in v' <- value_repr rt v ;; Ok (k, v').

Definition pair : pyval := VTuple [VInt 1; VInt 2].

(** [Decimal('1.50')] and [Decimal('sNaN')] *)
Definition one_fifty : pyval := VDecimal (Decimal.Finite false 150 (- 2)).
Definition snan : pyval := VDecimal (Decimal.NaN false true 0).

(** [UUID('12345678-1234-5678-1234-567812345678')] *)
Definition an_uuid : pyval := VUUID 24197857161011715162171839636988778104.

Definition nested : pyval :=
  VDict [(VStr "a", one_fifty);
         (VStr "ids", VList [an_uuid; VStr "x"; VNone])].

(** The triple of [sys.exc_info()] for a [ValueError('boom')]. *)
Definition exc_triple : pyval :=
  VTuple
    [VObject (mkobject "type" false false (Ok "<class 'ValueError'>")
                       (Ok "<class 'ValueError'>") true);
     VObject (mkobject "ValueError" true false (Ok "ValueError('boom')")
                       (Ok "boom") true);
     VObject (mkobject "traceback" false true (Ok "<traceback object>")
                       (Ok ("  File app.py, line 12, in handler" ++ newline))
                       true)].

(** The attributes [logging] gives a record, then the extras. *)
Definition attributes (exc_info funcName : pyval) (extras : sdict) : sdict :=
  ([("name", VStr "app"); ("msg", VStr "hello"); ("args", VTuple []);
   ("levelname", VStr "INFO"); ("levelno", VInt 20);
   ("pathname", VStr "/srv/app.py"); ("filename", VStr "app.py");
   ("module", VStr "app"); ("exc_info", exc_info); ("exc_text", VNone);
   ("lineno", VInt 12); ("funcName", funcName); ("created", in_2023);
   ("msecs", VFloat (Float64.of_Z 123));
   ("relativeCreated", VFloat (Float64.of_Z 5)); ("thread", VInt 1);
   ("threadName", VStr "MainThread"); ("process", VInt 4242)]
  ++ extras)%list.

(** A record without exception context, with two extras. *)
Definition record_info : LogRecord :=
  mkrecord (attributes VNone (VStr "handler")
              [("processName", VStr "MainProcess"); ("user_id", VInt 42);
               ("amount", nested)])
           (Ok "hello").

(** A record with exception context. *)
Definition record_error : LogRecord :=
  mkrecord (attributes exc_triple (VStr "handler")
              [("processName", VStr "MainProcess"); ("user_id", VInt 42)])
           (Ok "hello").

(** As [record_error], made without a function name
    ([logging.makeLogRecord]). *)
Definition record_no_func : LogRecord :=
  mkrecord (attributes exc_triple VNone
              [("processName", VStr "MainProcess"); ("user_id", VInt 42)])
           (Ok "hello").

(** As [record_error], without the attribute [processName]. *)
Definition record_no_process : LogRecord :=
  mkrecord (attributes exc_triple (VStr "handler") [("user_id", VInt 42)])
           (Ok "hello").

Definition logstash : LogstashFormatterBase :=
  init linux_utc (VStr "Logstash") VNone false.

(** What [json.dumps] does to an item of a dictionary. *)
Definition json_item (kv : pyval * pyval) : result string :=
  let (k, x) := kv in
  tk <- Json.encode_key k ;; tx <- Json.dumps x ;;
  Ok (Json.encode_string tk ++ ": " ++ tx).

(** The document [{"k": {1: "a"}}]: a mapping with an [int] key. *)
Definition int_keyed : pyval :=
  Py.dict_val [("k", VDict [(VInt 1, VStr "a")])].

(** The document [{"k": {(1, 2): "a"}}]: a mapping with a tuple key. *)
Definition tuple_keyed : pyval :=
  Py.dict_val [("k", VDict [(pair, VStr "a")])].

(** ** Further notions *)

(** The types [datetime.utcfromtimestamp] takes. *)
Definition is_number (v : pyval) : bool :=
  match v with
  | VFloat _ | VInt _ | VBool _ => true
  | _ => false
  end.

(** What [value_repr] keeps as it is can be encoded: every key of every
    mapping it goes through is a JSON primitive, and every [int], key or
    value, is within the limit of the conversion to a string. *)
Fixpoint kept_encodable (v : pyval) : bool :=
  match v with
  | VInt n => int_printable n
  | VDict items =>
      forallb (fun kv : pyval * pyval =>
                 json_key (fst kv) && kept_encodable (snd kv)) items
  | VList items => forallb kept_encodable items
  | _ => true
  end.

(** The top-level keys of version 0. *)
Definition v0_keys : list string :=
  ["@timestamp"; "@message"; "@source"; "@source_host"; "@source_path";
   "@tags"; "@type"; "@fields"].

(** The attributes the formatters copy into a message as they are. *)
Definition copied_attributes : list string :=
  ["pathname"; "levelname"; "name"; "lineno"; "process"; "threadName";
   "funcName"; "processName"].

(** The float [float('nan')] and the first second of the year 10000. *)
Definition a_nan : pyval := VFloat S754_nan.
Definition year_10000 : pyval := VInt 253402300800.

(** A record with exception context whose extras take the names of two
    debug fields. *)
Definition record_shadow : LogRecord :=
  mkrecord (attributes exc_triple (VStr "handler")
              [("processName", VStr "MainProcess");
               ("stack_trace", VStr "mine"); ("thread_name", VStr "worker")])
           (Ok "hello").

(** Every character of [s] satisfies [p]. *)
Fixpoint all_chars (p : ascii -> bool) (s : string) : bool :=
  match s with
  | EmptyString => true
  | String c s' => p c && all_chars p s'
  end.

(** The number a run of digits denotes, read after [acc]. *)
Fixpoint digits_value (acc : Z) (s : string) : Z :=
  match s with
  | EmptyString => acc
  | String c s' => digits_value (10 * acc + (Text.code c - 48)) s'
  end.

(** A decimal literal: sign, integer digits, fraction digits if any,
    exponent if any. *)
Definition literal (neg : bool) (ds : string) (fs : option string)
  (ex : option Z) : string :=
  Decimal.sign_str neg ++ ds
  ++ match fs with Some f => "." ++ f | None => "" end
  ++ match ex with Some e => "E" ++ Decimal.fmt_signed e | None => "" end.

(** A decimal the conversion to [float] takes: anything but a signaling
    NaN and a NaN with a payload. *)
Definition float_convertible (d : Decimal.decimal) : bool :=
  match d with
  | Decimal.NaN _ signaling payload => negb signaling && (payload =? 0)
  | _ => true
  end.

(** The float of a decimal: the nearest to a finite one. *)
Definition decimal_float (d : Decimal.decimal) : Float64.float :=
  match d with
  | Decimal.Finite neg coeff exp => Float64.of_decimal neg coeff exp
  | Decimal.Infinity neg => Float64.inf neg
  | Decimal.NaN _ _ _ => Float64.nan
  end.

(** A decimal as its constructor makes it: the coefficient and the payload
    are not negative. *)
Definition decimal_valid (d : Decimal.decimal) : Prop :=
  match d with
  | Decimal.Finite _ coeff _ => 0 <= coeff
  | Decimal.Infinity _ => True
  | Decimal.NaN _ _ payload => 0 <= payload
  end.

(** The wall-clock second of a [datetime] and of a [date] (at midnight),
    read as UTC, and the second [time.mktime] gives for it in the local
    zone. *)
Definition datetime_wall (d : Calendar.datetime) : Z :=
  Calendar.timegm (Calendar.year d) (Calendar.month d) (Calendar.day d)
                  (Calendar.hour d) (Calendar.minute d) (Calendar.second d).

Definition date_wall (d : Calendar.date) : Z :=
  Calendar.timegm (Calendar.d_year d) (Calendar.d_month d) (Calendar.d_day d)
                  0 0 0.

Definition local_second (rt : runtime) (wall : Z) : Z :=
  wall - rt_utcoffset rt wall.

(** A [datetime] without its microseconds, and the midnight of a [date]. *)
Definition whole_second (d : Calendar.datetime) : Calendar.datetime :=
  Calendar.mkdatetime (Calendar.year d) (Calendar.month d) (Calendar.day d)
                      (Calendar.hour d) (Calendar.minute d)
                      (Calendar.second d) 0.

Definition midnight (d : Calendar.date) : Calendar.datetime :=
  Calendar.mkdatetime (Calendar.d_year d) (Calendar.d_month d)
                      (Calendar.d_day d) 0 0 0 0.



Definition a_date : Calendar.date := Calendar.mkdate 2023 11 14.


(** A character of the ASCII range, and a lower-case hexadecimal digit. *)
Definition is_ascii (c : ascii) : bool := Text.code c <? 128.

Definition is_hex (c : ascii) : bool :=
  Text.is_digit c || ((97 <=? Text.code c) && (Text.code c <=? 102)).

(** The number a run of hexadecimal digits denotes, read after [acc]. *)
Fixpoint hex_value (acc : Z) (s : string) : Z :=
  match s with
  | EmptyString => acc
  | String c s' =>
      hex_value (16 * acc
                 + (if Text.is_digit c then Text.code c - 48
                    else Text.code c - 87)) s'
  end.

(** The escape of [json.dumps] ([py_encode_basestring_ascii]) for a
    character of any code point [n], as [Json.escape_char] has it for the
    code points below 256: a code point below [0x10000] outside the
    printable ASCII range is written with four hexadecimal digits, one
    from [0x10000] on as a surrogate pair. *)
Definition escape_code_point (n : Z) : string :=
  if n =? 34 then String Py.backslash (String Py.dquote "")
  else if n =? 92 then String Py.backslash (String Py.backslash "")
  else if n =? 10 then String Py.backslash "n"
  else if n =? 13 then String Py.backslash "r"
  else if n =? 9 then String Py.backslash "t"
  else if n =? 8 then String Py.backslash "b"
  else if n =? 12 then String Py.backslash "f"
  else if (32 <=? n) && (n <=? 126) then String (ascii_of_N (Z.to_N n)) ""
  else if n <? 65536 then String Py.backslash ("u" ++ Text.hex_fixed 4 n)
  else
    let n := n - 65536 in
    let s1 := Z.lor 55296 (Z.land (Z.shiftr n 10) 1023) in
    let s2 := Z.lor 56320 (Z.land n 1023) in
    String Py.backslash ("u" ++ Text.hex_fixed 4 s1)
    ++ String Py.backslash ("u" ++ Text.hex_fixed 4 s2).

(** The JSON text of a string given by its code points. *)
Definition encode_code_points (points : list Z) : string :=
  String Py.dquote (Text.join "" (map escape_code_point points)
                    ++ String Py.dquote "").

(** The code points of a string of the model. *)
Definition code_points (s : string) : list Z :=
  map Text.code (list_ascii_of_string s).

(** A text with a character outside the ASCII range: [caf\xe9]. *)
Definition cafe : string := "caf" ++ String (ascii_of_N 233) "".

(** An [int] of 4301 digits, one more than the conversion to a string
    takes. *)
Definition huge : pyval := VInt (10 ^ 4300).

(** A nested container of supported leaf types as the specification has
    it, where a tuple is an ordered sequence as a list is;
    [supported_container] has the containers of the code. *)
Fixpoint claimed_container (v : pyval) : bool :=
  match v with
  | VDict items =>
      forallb (fun kv : pyval * pyval => claimed_container (snd kv)) items
  | VList items => forallb claimed_container items
  | VTuple items => forallb claimed_container items
  | _ => supported_leaf v
  end.

(** * Properties *)

(** ** Text *)

Lemma code_digit_char (d : Z) : 0 <= d <= 9 -> Text.code (Text.digit_char d) = 48 + d.
Proof.
  intros H. unfold Text.code, Text.digit_char.
  rewrite N_ascii_embedding by lia. lia.
Qed.

Lemma digit_char_is_digit (d : Z) :
  0 <= d <= 9 -> Text.is_digit (Text.digit_char d) = true.
Proof.
  intros H. unfold Text.is_digit. rewrite code_digit_char by exact H.
  apply andb_true_intro. split; apply Z.leb_le; lia.
Qed.

Lemma compare_digit_char (a b : Z) :
  0 <= a <= 9 -> 0 <= b <= 9 ->
  Ascii.compare (Text.digit_char a) (Text.digit_char b) = (a ?= b).
Proof.
  intros Ha Hb. unfold Ascii.compare, Text.digit_char.
  rewrite !N_ascii_embedding by lia.
  rewrite <- N2Z.inj_compare. rewrite !N2Z.inj_add, !Z2N.id by lia.
  apply Z.add_compare_mono_l.
Qed.

Lemma digits_fixed_length (w : nat) (n : Z) :
  String.length (Text.digits_fixed w n) = w.
Proof. induction w as [|w IH]; simpl; [reflexivity | now rewrite IH]. Qed.

Lemma mod10_range (x : Z) : 0 <= x mod 10 <= 9.
Proof. pose proof (Z.mod_pos_bound x 10). lia. Qed.

(** Lexicographic comparison of two pairs read as numbers in base [p]. *)
Lemma compare_base (p da ra db rb : Z) :
  0 <= ra < p -> 0 <= rb < p ->
  (da * p + ra ?= db * p + rb) =
  match da ?= db with Eq => ra ?= rb | c => c end.
Proof.
  intros Ha Hb.
  destruct (Z.compare_spec da db) as [E|L|G].
  - subst. apply Z.add_compare_mono_l.
  - apply Z.compare_lt_iff. nia.
  - apply Z.compare_gt_iff. nia.
Qed.

Lemma low_digits_split (w : nat) (a : Z) :
  a mod 10 ^ Z.of_nat (S w) =
  (a / 10 ^ Z.of_nat w mod 10) * 10 ^ Z.of_nat w + a mod 10 ^ Z.of_nat w.
Proof.
  rewrite Nat2Z.inj_succ, Z.pow_succ_r by lia.
  assert (0 < 10 ^ Z.of_nat w) by (apply Z.pow_pos_nonneg; lia).
  rewrite (Z.mul_comm 10), Z.rem_mul_r by lia. lia.
Qed.

(** Two fixed-width fields compare as the numbers they print. *)
Lemma compare_digits_fixed (w : nat) (a b : Z) (r1 r2 : string) :
  String.compare (Text.digits_fixed w a ++ r1) (Text.digits_fixed w b ++ r2) =
  match a mod 10 ^ Z.of_nat w ?= b mod 10 ^ Z.of_nat w with
  | Eq => String.compare r1 r2
  | c => c
  end.
Proof.
  induction w as [|w IH].
  - simpl. rewrite !Z.mod_1_r. reflexivity.
  - cbn [Text.digits_fixed append String.compare].
    rewrite compare_digit_char by apply mod10_range.
    rewrite IH, !low_digits_split.
    assert (0 < 10 ^ Z.of_nat w) by (apply Z.pow_pos_nonneg; lia).
    rewrite compare_base by (apply Z.mod_pos_bound; lia).
    destruct (a mod 10 ^ Z.of_nat w ?= b mod 10 ^ Z.of_nat w);
      destruct ((a / 10 ^ Z.of_nat w) mod 10 ?= (b / 10 ^ Z.of_nat w) mod 10);
      reflexivity.
Qed.

Lemma compare_cons (c : ascii) (s1 s2 : string) :
  String.compare (String c s1) (String c s2) = String.compare s1 s2.
Proof.
  cbn [String.compare].
  assert (E : Ascii.compare c c = Eq).
  { unfold Ascii.compare. apply N.compare_refl. }
  now rewrite E.
Qed.

Lemma ndigits_aux_le (fuel w : nat) (n : Z) :
  (1 <= w)%nat -> 0 <= n < 10 ^ Z.of_nat w ->
  (Text.ndigits_aux fuel n <= w)%nat.
Proof.
  revert w n. induction fuel as [|fuel IH]; intros w n Hw Hn; simpl.
  - exact Hw.
  - destruct (Z.ltb_spec n 10) as [L|G]; [exact Hw|].
    destruct w as [|[|w]]; [lia | simpl in Hn; lia |].
    apply le_n_S. apply IH; [lia|].
    rewrite Nat2Z.inj_succ, Z.pow_succ_r in Hn by lia.
    split; [apply Z.div_pos; lia | apply Z.div_lt_upper_bound; lia].
Qed.

(** ["%0wd"] prints exactly [w] digits when the number has no more. *)
Lemma fmt_0d_fixed (w : nat) (n : Z) :
  (1 <= w)%nat -> 0 <= n < 10 ^ Z.of_nat w ->
  Text.fmt_0d w n = Text.digits_fixed w n.
Proof.
  intros Hw Hn. unfold Text.fmt_0d, Text.ndigits.
  rewrite Nat.max_l; [reflexivity | now apply ndigits_aux_le].
Qed.

Lemma ndigits_aux_ge (w fuel : nat) (n : Z) :
  (w <= fuel)%nat -> 10 ^ Z.of_nat w <= n ->
  (w < Text.ndigits_aux fuel n)%nat.
Proof.
  revert fuel n. induction w as [|w IH]; intros fuel n Hf Hn.
  - destruct fuel; simpl; [lia | destruct (n <? 10); lia].
  - destruct fuel as [|fuel]; [lia|]. simpl.
    rewrite Nat2Z.inj_succ, Z.pow_succ_r in Hn by lia.
    assert (0 < 10 ^ Z.of_nat w) by (apply Z.pow_pos_nonneg; lia).
    destruct (Z.ltb_spec n 10) as [L|G]; [lia|].
    apply -> Nat.succ_lt_mono. apply IH; [lia|].
    apply Z.div_le_lower_bound; lia.
Qed.

(** A year of four digits prints the same with and without padding. *)
Lemma dec_four_digits (y : Z) :
  1000 <= y <= 9999 -> Text.dec y = Text.digits_fixed 4 y.
Proof.
  intros H. unfold Text.dec.
  destruct (Z.ltb_spec y 0) as [L|_]; [lia|].
  f_equal. unfold Text.ndigits.
  assert (Hl : 9 <= Z.log2 y).
  { change 9 with (Z.log2 1000). apply Z.log2_le_mono. lia. }
  pose proof (ndigits_aux_le (Z.to_nat (Z.log2 y)) 4 y ltac:(lia) ltac:(simpl; lia)).
  pose proof (ndigits_aux_ge 3 (Z.to_nat (Z.log2 y)) y ltac:(lia) ltac:(simpl; lia)).
  lia.
Qed.

(** ** Calendar *)

Ltac euclid := Z.to_euclidean_division_equations; lia.

Ltac split_bools :=
  repeat match goal with
         | |- context [?a =? ?b] => destruct (Z.eqb_spec a b)
         | |- context [?a <? ?b] => destruct (Z.ltb_spec a b)
         | |- context [?a <=? ?b] => destruct (Z.leb_spec a b)
         end; cbn [andb orb negb].

Lemma year_of_ord_spec (o : Z) :
  let '(y, n) := Calendar.year_of_ord o in
  Calendar.days_before_year y + n + 1 = o /\ 0 <= n < Calendar.days_in_year y.
Proof.
  unfold Calendar.year_of_ord, Calendar.days_before_year,
    Calendar.days_in_year, Calendar.is_leap.
  cbv zeta. split_bools; cbv iota beta; split_bools; (split; euclid).
Qed.

Ltac calendar_tables :=
  unfold Calendar.days_before_month, Calendar.days_in_month,
    Calendar.days_in_year in *;
  destruct (Calendar.is_leap _); cbn in *; lia.

Lemma month_of_yday_spec (y n : Z) :
  0 <= n < Calendar.days_in_year y ->
  let m := Calendar.month_of_yday y n in
  1 <= m <= 12 /\
  Calendar.days_before_month y m <= n
  < Calendar.days_before_month y m + Calendar.days_in_month y m.
Proof.
  intros H. unfold Calendar.month_of_yday. cbv zeta.
  repeat match goal with
         | |- context [?a <? ?b] => destruct (Z.ltb_spec a b)
         end; calendar_tables.
Qed.

Lemma ord_to_ymd_spec (o : Z) :
  let '(y, m, d) := Calendar.ord_to_ymd o in
  Calendar.ymd_to_ord y m d = o /\ 1 <= m <= 12 /\
  1 <= d <= Calendar.days_in_month y m.
Proof.
  unfold Calendar.ord_to_ymd, Calendar.ymd_to_ord.
  pose proof (year_of_ord_spec o) as Hy.
  destruct (Calendar.year_of_ord o) as [y n]. destruct Hy as [Ho Hn].
  pose proof (month_of_yday_spec y n Hn) as Hm. cbv zeta in Hm. lia.
Qed.

Lemma days_before_year_succ (y : Z) :
  Calendar.days_before_year (y + 1) =
  Calendar.days_before_year y + Calendar.days_in_year y.
Proof.
  unfold Calendar.days_before_year, Calendar.days_in_year, Calendar.is_leap.
  cbv zeta. split_bools; euclid.
Qed.

Lemma days_before_year_mono (y1 y2 : Z) :
  y1 < y2 ->
  Calendar.days_before_year y1 + Calendar.days_in_year y1
  <= Calendar.days_before_year y2.
Proof.
  intros H. rewrite <- days_before_year_succ.
  unfold Calendar.days_before_year. cbv zeta. euclid.
Qed.

Lemma month_cases (m : Z) :
  1 <= m <= 12 ->
  m = 1 \/ m = 2 \/ m = 3 \/ m = 4 \/ m = 5 \/ m = 6 \/ m = 7 \/
  m = 8 \/ m = 9 \/ m = 10 \/ m = 11 \/ m = 12.
Proof. lia. Qed.

Ltac each_month m H :=
  let C := fresh "C" in
  pose proof (month_cases m H) as C;
  repeat (destruct C as [C|C]; [subst m|]); [..|subst m].

Lemma days_before_month_mono (y m1 m2 : Z) :
  1 <= m1 -> m1 < m2 -> m2 <= 12 ->
  Calendar.days_before_month y m1 + Calendar.days_in_month y m1
  <= Calendar.days_before_month y m2.
Proof.
  intros H1 H2 H3.
  assert (B1 : 1 <= m1 <= 12) by lia. assert (B2 : 1 <= m2 <= 12) by lia.
  clear H1 H3. each_month m1 B1; each_month m2 B2; try lia; calendar_tables.
Qed.

Lemma days_in_year_months (y m : Z) :
  1 <= m <= 12 ->
  0 <= Calendar.days_before_month y m /\
  Calendar.days_before_month y m + Calendar.days_in_month y m
  <= Calendar.days_in_year y.
Proof. intros H. each_month m H; calendar_tables. Qed.

(** Ordinals order dates as year, month and day do. *)
Lemma ymd_to_ord_compare (y1 m1 d1 y2 m2 d2 : Z) :
  valid_date y1 m1 d1 -> valid_date y2 m2 d2 ->
  (Calendar.ymd_to_ord y1 m1 d1 ?= Calendar.ymd_to_ord y2 m2 d2) =
  match y1 ?= y2 with
  | Eq => match m1 ?= m2 with Eq => d1 ?= d2 | c => c end
  | c => c
  end.
Proof.
  intros [Hm1 Hd1] [Hm2 Hd2]. unfold Calendar.ymd_to_ord.
  pose proof (days_in_year_months y1 m1 Hm1).
  pose proof (days_in_year_months y2 m2 Hm2).
  destruct (Z.compare_spec y1 y2) as [E|L|G].
  - subst y2. destruct (Z.compare_spec m1 m2) as [E|L|G].
    + subst m2. apply Z.add_compare_mono_l.
    + apply Z.compare_lt_iff.
      pose proof (days_before_month_mono y1 m1 m2). lia.
    + apply Z.compare_gt_iff.
      pose proof (days_before_month_mono y1 m2 m1). lia.
  - apply Z.compare_lt_iff. pose proof (days_before_year_mono y1 y2 L). lia.
  - apply Z.compare_gt_iff. pose proof (days_before_year_mono y2 y1). lia.
Qed.

(** ** Broken-down time *)

Lemma gmtime_fields (secs us : Z) :
  let dt := Calendar.gmtime secs us in
  Calendar.ymd_to_ord (Calendar.year dt) (Calendar.month dt) (Calendar.day dt)
  = secs / 86400 + Calendar.epoch_ord
  /\ valid_date (Calendar.year dt) (Calendar.month dt) (Calendar.day dt)
  /\ Calendar.hour dt = secs mod 86400 / 3600
  /\ Calendar.minute dt = (secs mod 86400) mod 3600 / 60
  /\ Calendar.second dt = (secs mod 86400) mod 60
  /\ Calendar.microsecond dt = us.
Proof.
  unfold Calendar.gmtime. cbv zeta.
  pose proof (ord_to_ymd_spec (secs / 86400 + Calendar.epoch_ord)) as H.
  destruct (Calendar.ord_to_ymd _) as [[y m] d]. cbn.
  unfold valid_date. intuition.
Qed.

Lemma gmtime_valid (secs us : Z) :
  0 <= us < 1000000 -> valid_time (Calendar.gmtime secs us).
Proof.
  intros Hus. pose proof (gmtime_fields secs us) as H. cbv zeta in H.
  destruct H as (_ & Hd & Hh & Hm & Hs & Hu). unfold valid_time.
  rewrite Hh, Hm, Hs, Hu. split; [exact Hd|]. euclid.
Qed.

(** [timegm] is the inverse of [gmtime]: the fields are those of UTC. *)
Lemma timegm_gmtime (secs us : Z) :
  let dt := Calendar.gmtime secs us in
  Calendar.timegm (Calendar.year dt) (Calendar.month dt) (Calendar.day dt)
                  (Calendar.hour dt) (Calendar.minute dt) (Calendar.second dt)
  = secs.
Proof.
  pose proof (gmtime_fields secs us) as H. cbv zeta in *.
  destruct H as (Ho & _ & Hh & Hm & Hs & _). unfold Calendar.timegm.
  rewrite Ho, Hh, Hm, Hs. euclid.
Qed.

Lemma epoch_millis_gmtime (secs us : Z) :
  epoch_millis (Calendar.gmtime secs us) = secs * 1000 + us / 1000.
Proof.
  unfold epoch_millis. pose proof (timegm_gmtime secs us) as H.
  cbv zeta in H. rewrite H.
  pose proof (gmtime_fields secs us) as F. cbv zeta in F.
  destruct F as (_ & _ & _ & _ & _ & Hu). now rewrite Hu.
Qed.

Lemma year_of_second (secs us y0 y1 : Z) :
  Calendar.timegm y0 1 1 0 0 0 <= secs -> secs < Calendar.timegm y1 1 1 0 0 0 ->
  y0 <= Calendar.year (Calendar.gmtime secs us) < y1.
Proof.
  intros Hlo Hhi.
  pose proof (gmtime_fields secs us) as F. cbv zeta in F.
  destruct F as (Ho & [Hm Hd] & _).
  set (dt := Calendar.gmtime secs us) in *.
  pose proof (days_in_year_months (Calendar.year dt) (Calendar.month dt) Hm).
  unfold Calendar.timegm, Calendar.ymd_to_ord in *.
  change (Calendar.days_before_month y0 1) with 0 in Hlo.
  change (Calendar.days_before_month y1 1) with 0 in Hhi.
  split.
  - destruct (Z_lt_le_dec (Calendar.year dt) y0) as [L|G]; [|exact G].
    pose proof (days_before_year_mono _ _ L). euclid.
  - destruct (Z_lt_le_dec (Calendar.year dt) y1) as [L|G]; [exact L|].
    assert (Calendar.days_before_year y1 <= Calendar.days_before_year (Calendar.year dt)).
    { destruct (Z.eq_dec y1 (Calendar.year dt)) as [E|N]; [rewrite E; lia|].
      pose proof (days_before_year_mono y1 (Calendar.year dt) ltac:(lia)).
      pose proof (days_in_year_months y1 1 ltac:(lia)).
      unfold Calendar.days_in_year in *. destruct (Calendar.is_leap y1); lia. }
    euclid.
Qed.

Lemma representable_year (secs us : Z) :
  min_second <= secs <= max_second ->
  1 <= Calendar.year (Calendar.gmtime secs us) <= 9999.
Proof.
  intros H.
  pose proof (year_of_second secs us 1 10000) as Y.
  change (Calendar.timegm 1 1 1 0 0 0) with min_second in Y.
  assert (E : Calendar.timegm 10000 1 1 0 0 0 = max_second + 1) by reflexivity.
  rewrite E in Y. lia.
Qed.

(** ** The text of a timestamp *)

Lemma append_assoc (a b c : string) : (a ++ b) ++ c = a ++ (b ++ c).
Proof. induction a as [|x a IH]; cbn; [reflexivity | now rewrite IH]. Qed.

Lemma epoch_millis_nested (dt : Calendar.datetime) :
  epoch_millis dt =
  ((((Calendar.ymd_to_ord (Calendar.year dt) (Calendar.month dt)
        (Calendar.day dt) - Calendar.epoch_ord) * 24
     + Calendar.hour dt) * 60 + Calendar.minute dt) * 60
   + Calendar.second dt) * 1000 + Calendar.microsecond dt / 1000.
Proof. unfold epoch_millis, Calendar.timegm. ring. Qed.

Lemma compare_sub_r (a b c : Z) : (a - c ?= b - c) = (a ?= b).
Proof. rewrite !(Z.compare_sub (a - c)), (Z.compare_sub a). f_equal. ring. Qed.

Lemma days_in_month_le (y m : Z) : Calendar.days_in_month y m <= 31.
Proof.
  unfold Calendar.days_in_month.
  destruct (m =? 2); [destruct (Calendar.is_leap y); lia|].
  destruct (_ || _); lia.
Qed.

(** The instants of two broken-down times compare field by field. *)
Lemma epoch_millis_compare (dt1 dt2 : Calendar.datetime) :
  valid_time dt1 -> valid_time dt2 ->
  (epoch_millis dt1 ?= epoch_millis dt2) =
  match Calendar.year dt1 ?= Calendar.year dt2 with
  | Eq =>
    match Calendar.month dt1 ?= Calendar.month dt2 with
    | Eq =>
      match Calendar.day dt1 ?= Calendar.day dt2 with
      | Eq =>
        match Calendar.hour dt1 ?= Calendar.hour dt2 with
        | Eq =>
          match Calendar.minute dt1 ?= Calendar.minute dt2 with
          | Eq =>
            match Calendar.second dt1 ?= Calendar.second dt2 with
            | Eq => Calendar.microsecond dt1 / 1000
                    ?= Calendar.microsecond dt2 / 1000
            | c => c
            end
          | c => c
          end
        | c => c
        end
      | c => c
      end
    | c => c
    end
  | c => c
  end.
Proof.
  intros (Hd1 & Hh1 & Hm1 & Hs1 & Hu1) (Hd2 & Hh2 & Hm2 & Hs2 & Hu2).
  rewrite !epoch_millis_nested.
  set (o1 := Calendar.ymd_to_ord _ _ _ - _).
  set (o2 := Calendar.ymd_to_ord _ _ _ - _).
  assert (0 <= Calendar.microsecond dt1 / 1000 < 1000) by euclid.
  assert (0 <= Calendar.microsecond dt2 / 1000 < 1000) by euclid.
  rewrite (compare_base 1000) by assumption.
  rewrite (compare_base 60) by assumption.
  rewrite (compare_base 60) by assumption.
  rewrite (compare_base 24) by assumption.
  subst o1 o2. rewrite compare_sub_r, (ymd_to_ord_compare _ _ _ _ _ _ Hd1 Hd2).
  destruct (Calendar.year dt1 ?= Calendar.year dt2); try reflexivity.
  destruct (Calendar.month dt1 ?= Calendar.month dt2); try reflexivity.
  destruct (Calendar.day dt1 ?= Calendar.day dt2); try reflexivity.
  destruct (Calendar.hour dt1 ?= Calendar.hour dt2); try reflexivity.
  destruct (Calendar.minute dt1 ?= Calendar.minute dt2); reflexivity.
Qed.

Lemma field_small (w : nat) (x b : Z) :
  0 <= x < b -> b <= 10 ^ Z.of_nat w -> x mod 10 ^ Z.of_nat w = x.
Proof. intros H1 H2. apply Z.mod_small. lia. Qed.

(** Two texts of the fixed shape compare as the instants they print. *)
Lemma iso_text_compare (dt1 dt2 : Calendar.datetime) :
  valid_time dt1 -> valid_time dt2 ->
  0 <= Calendar.year dt1 < 10000 -> 0 <= Calendar.year dt2 < 10000 ->
  String.compare (iso_text dt1) (iso_text dt2) =
  (epoch_millis dt1 ?= epoch_millis dt2).
Proof.
  intros V1 V2 Hy1 Hy2. rewrite (epoch_millis_compare dt1 dt2 V1 V2).
  destruct V1 as ([Hmo1 Hda1] & Hh1 & Hm1 & Hs1 & Hu1).
  destruct V2 as ([Hmo2 Hda2] & Hh2 & Hm2 & Hs2 & Hu2).
  pose proof (days_in_month_le (Calendar.year dt1) (Calendar.month dt1)).
  pose proof (days_in_month_le (Calendar.year dt2) (Calendar.month dt2)).
  assert (0 <= Calendar.microsecond dt1 / 1000 < 1000) by euclid.
  assert (0 <= Calendar.microsecond dt2 / 1000 < 1000) by euclid.
  unfold iso_text.
  rewrite compare_digits_fixed, !(field_small 4 _ 10000) by (assumption || reflexivity || discriminate).
  cbn [append]. rewrite compare_cons.
  rewrite compare_digits_fixed, !(field_small 2 _ 13) by (lia || discriminate).
  cbn [append]. rewrite compare_cons.
  rewrite compare_digits_fixed, !(field_small 2 _ 32) by (lia || discriminate).
  cbn [append]. rewrite compare_cons.
  rewrite compare_digits_fixed, !(field_small 2 _ 24) by (lia || discriminate).
  cbn [append]. rewrite compare_cons.
  rewrite compare_digits_fixed, !(field_small 2 _ 60) by (lia || discriminate).
  cbn [append]. rewrite compare_cons.
  rewrite compare_digits_fixed, !(field_small 2 _ 60) by (lia || discriminate).
  cbn [append]. rewrite compare_cons.
  rewrite compare_digits_fixed, !(field_small 3 _ 1000) by (lia || discriminate).
  change (String.compare "Z" "Z") with Eq.
  destruct (Calendar.microsecond dt1 / 1000 ?= Calendar.microsecond dt2 / 1000);
    reflexivity.
Qed.

(** ** Rounding *)

Lemma round_half_even_bounds (q : Q) :
  Qfloor q <= Calendar.round_half_even q <= Qfloor q + 1.
Proof.
  unfold Calendar.round_half_even. cbv zeta.
  destruct (Qcompare _ _); [destruct (Z.even _)| |]; lia.
Qed.

Lemma round_half_even_mono (p q : Q) :
  (p <= q)%Q -> Calendar.round_half_even p <= Calendar.round_half_even q.
Proof.
  intros Hpq.
  pose proof (Qfloor_resp_le p q Hpq) as Hf.
  pose proof (round_half_even_bounds p) as Bp.
  pose proof (round_half_even_bounds q) as Bq.
  destruct (Z.eq_dec (Qfloor p) (Qfloor q)) as [E|N]; [|lia].
  unfold Calendar.round_half_even in *. cbv zeta in *. rewrite <- E in *.
  destruct (Qcompare (p - inject_Z (Qfloor p)) (1 # 2)) eqn:Cp;
    destruct (Qcompare (q - inject_Z (Qfloor p)) (1 # 2)) eqn:Cq;
    try (destruct (Z.even (Qfloor p))); try lia; exfalso;
    repeat match goal with
           | H : Qcompare _ _ = Eq |- _ => apply Qeq_alt in H
           | H : Qcompare _ _ = Lt |- _ => apply Qlt_alt in H
           | H : Qcompare _ _ = Gt |- _ => apply Qgt_alt in H
           end; lra.
Qed.

Lemma round_half_even_eq (p q : Q) :
  (p == q)%Q -> Calendar.round_half_even p = Calendar.round_half_even q.
Proof.
  intros E. apply Z.le_antisymm; apply round_half_even_mono; rewrite E;
    apply Qle_refl.
Qed.

Lemma round_half_even_Z (z : Z) : Calendar.round_half_even (inject_Z z) = z.
Proof.
  unfold Calendar.round_half_even. cbv zeta. rewrite Qfloor_Z.
  assert (C : Qcompare (inject_Z z - inject_Z z) (1 # 2) = Lt).
  { apply Qlt_alt. assert (Z : (inject_Z z - inject_Z z == 0)%Q) by ring.
    rewrite Z. reflexivity. }
  now rewrite C.
Qed.

(** ** The double nearest to a rational *)

Lemma pow2_pos (e : Z) : (0 < 2 ^ e)%Q.
Proof. apply Qpower_0_lt. reflexivity. Qed.

Lemma pow2_add (a b : Z) : (2 ^ (a + b) == 2 ^ a * 2 ^ b)%Q.
Proof. apply Qpower_plus. discriminate. Qed.

Lemma pow2_le (a b : Z) : a <= b -> (2 ^ a <= 2 ^ b)%Q.
Proof. intros H. apply Qpower_le_compat_l; [exact H | discriminate]. Qed.

Lemma pow2_Z (n : Z) : 0 <= n -> (2 ^ n == inject_Z (2 ^ n))%Q.
Proof. intros H. symmetry. now apply (Zpower_Qpower 2 n). Qed.

Lemma log2_floor_spec (q : Q) :
  (0 < q)%Q ->
  (2 ^ Calendar.log2_floor q <= q)%Q /\ (q < 2 ^ (Calendar.log2_floor q + 1))%Q.
Proof.
  intros Hq. unfold Calendar.log2_floor. cbv zeta.
  set (a := Z.log2 (Qnum q)). set (b := Z.log2 (Zpos (Qden q))).
  assert (Hn : 0 < Qnum q).
  { destruct q as [n d]. unfold Qlt in Hq. cbn in *. lia. }
  pose proof (Z.log2_spec (Qnum q) Hn) as [A1 A2]. fold a in A1, A2.
  pose proof (Z.log2_spec (Zpos (Qden q)) ltac:(lia)) as [B1 B2].
  fold b in B1, B2.
  assert (Ha : 0 <= a) by apply Z.log2_nonneg.
  assert (Hb : 0 <= b) by apply Z.log2_nonneg.
  assert (D : (0 < inject_Z (Zpos (Qden q)))%Q) by reflexivity.
  assert (E : (q * inject_Z (Zpos (Qden q)) == inject_Z (Qnum q))%Q).
  { destruct q as [n d]. unfold Qeq. cbn. lia. }
  assert (U : (q < 2 ^ (a - b + 1))%Q).
  { apply (Qmult_lt_r _ _ _ D). rewrite E.
    apply Qlt_le_trans with (2 ^ (a - b + 1) * 2 ^ b)%Q.
    - rewrite <- pow2_add. replace (a - b + 1 + b) with (Z.succ a) by lia.
      rewrite pow2_Z by lia. rewrite <- Zlt_Qlt. exact A2.
    - apply Qmult_le_l; [apply pow2_pos|].
      rewrite pow2_Z by lia. rewrite <- Zle_Qle. exact B1. }
  assert (L : (2 ^ (a - b - 1) < q)%Q).
  { apply (Qmult_lt_r _ _ _ D). rewrite E.
    apply Qlt_le_trans with (2 ^ (a - b - 1) * 2 ^ (Z.succ b))%Q.
    - apply Qmult_lt_l; [apply pow2_pos|].
      rewrite pow2_Z by lia. rewrite <- Zlt_Qlt. exact B2.
    - rewrite <- pow2_add. replace (a - b - 1 + Z.succ b) with a by lia.
      rewrite pow2_Z by lia. rewrite <- Zle_Qle. exact A1. }
  destruct (Qle_bool (2 ^ (a - b)) q) eqn:C.
  - apply Qle_bool_iff in C. now split.
  - split; [now apply Qlt_le_weak|].
    replace (a - b - 1 + 1) with (a - b) by lia.
    apply Qnot_le_lt. intros H. apply Qle_bool_iff in H. congruence.
Qed.

Lemma log2_floor_mono (p q : Q) :
  (0 < p)%Q -> (p <= q)%Q -> Calendar.log2_floor p <= Calendar.log2_floor q.
Proof.
  intros Hp Hpq.
  assert (Hq : (0 < q)%Q) by (eapply Qlt_le_trans; eassumption).
  destruct (log2_floor_spec p Hp) as [P1 _].
  destruct (log2_floor_spec q Hq) as [_ Q2].
  destruct (Z.le_gt_cases (Calendar.log2_floor p) (Calendar.log2_floor q))
    as [L|G]; [exact L | exfalso].
  pose proof (pow2_le (Calendar.log2_floor q + 1) (Calendar.log2_floor p)
                ltac:(lia)) as H.
  lra.
Qed.

Lemma scaled_le (a b : Q) (e : Z) :
  (a <= b * 2 ^ e)%Q -> (a / 2 ^ e <= b)%Q.
Proof.
  intros H. apply Qle_shift_div_r; [apply pow2_pos | exact H].
Qed.

Lemma scaled_ge (a b : Q) (e : Z) :
  (b * 2 ^ e <= a)%Q -> (b <= a / 2 ^ e)%Q.
Proof.
  intros H. apply Qle_shift_div_l; [apply pow2_pos | exact H].
Qed.

Lemma round_magnitude_nonneg (a : Q) :
  (0 <= a)%Q -> (0 <= Calendar.round_magnitude a)%Q.
Proof.
  intros H. unfold Calendar.round_magnitude.
  apply Qmult_le_0_compat; [|apply Qlt_le_weak, pow2_pos].
  change 0%Q with (inject_Z 0). rewrite <- Zle_Qle.
  rewrite <- (round_half_even_Z 0). apply round_half_even_mono.
  apply scaled_ge. change (inject_Z 0) with 0%Q. lra.
Qed.

Lemma round_magnitude_zero (a : Q) :
  (a == 0)%Q -> (Calendar.round_magnitude a == 0)%Q.
Proof.
  intros H. unfold Calendar.round_magnitude.
  set (e := Calendar.ulp_exponent a). clearbody e.
  assert (E : (a / 2 ^ e == inject_Z 0)%Q).
  { rewrite H. unfold Qdiv. change (inject_Z 0) with 0%Q. ring. }
  rewrite (round_half_even_eq _ _ E), round_half_even_Z.
  change (inject_Z 0) with 0%Q. ring.
Qed.

Lemma round_magnitude_upper (a : Q) :
  (0 < a)%Q ->
  (Calendar.round_magnitude a <= 2 ^ (Calendar.ulp_exponent a + 53))%Q.
Proof.
  intros H. unfold Calendar.round_magnitude.
  set (e := Calendar.ulp_exponent a).
  destruct (log2_floor_spec a H) as [_ U].
  assert (B : (a <= inject_Z (2 ^ 53) * 2 ^ e)%Q).
  { rewrite <- (pow2_Z 53) by lia. rewrite <- pow2_add.
    apply Qlt_le_weak. eapply Qlt_le_trans; [exact U|].
    apply pow2_le. unfold e, Calendar.ulp_exponent. lia. }
  apply scaled_le in B. apply round_half_even_mono in B.
  rewrite round_half_even_Z in B.
  rewrite (Z.add_comm e 53), pow2_add, (pow2_Z 53) by lia.
  apply Qmult_le_compat_r; [|apply Qlt_le_weak, pow2_pos].
  rewrite <- Zle_Qle. exact B.
Qed.

Lemma round_magnitude_lower (a : Q) :
  (0 < a)%Q -> Calendar.ulp_exponent a = Calendar.log2_floor a - 52 ->
  (2 ^ (Calendar.ulp_exponent a + 52) <= Calendar.round_magnitude a)%Q.
Proof.
  intros H He. unfold Calendar.round_magnitude.
  set (e := Calendar.ulp_exponent a) in *.
  destruct (log2_floor_spec a H) as [L _].
  assert (B : (inject_Z (2 ^ 52) * 2 ^ e <= a)%Q).
  { rewrite <- (pow2_Z 52) by lia. rewrite <- pow2_add.
    replace (52 + e) with (Calendar.log2_floor a) by lia. exact L. }
  apply scaled_ge in B. apply round_half_even_mono in B.
  rewrite round_half_even_Z in B.
  rewrite (Z.add_comm e 52), pow2_add, (pow2_Z 52) by lia.
  apply Qmult_le_compat_r; [|apply Qlt_le_weak, pow2_pos].
  rewrite <- Zle_Qle. exact B.
Qed.

Lemma round_magnitude_mono (a b : Q) :
  (0 <= a)%Q -> (a <= b)%Q ->
  (Calendar.round_magnitude a <= Calendar.round_magnitude b)%Q.
Proof.
  intros Ha Hab.
  assert (Hb : (0 <= b)%Q) by lra.
  destruct (Qlt_le_dec 0 a) as [Pa|Za].
  - assert (Pb : (0 < b)%Q) by lra.
    pose proof (log2_floor_mono a b Pa Hab) as M.
    destruct (Z.eq_dec (Calendar.ulp_exponent a) (Calendar.ulp_exponent b))
      as [E|N].
    + unfold Calendar.round_magnitude. rewrite E.
      apply Qmult_le_compat_r; [|apply Qlt_le_weak, pow2_pos].
      rewrite <- Zle_Qle. apply round_half_even_mono.
      apply Qmult_le_compat_r; [exact Hab|].
      apply Qlt_le_weak, Qinv_lt_0_compat, pow2_pos.
    + assert (S : Calendar.ulp_exponent a + 1 <= Calendar.ulp_exponent b
                  /\ Calendar.ulp_exponent b = Calendar.log2_floor b - 52)
        by (unfold Calendar.ulp_exponent in *; lia).
      destruct S as [S1 S2].
      pose proof (round_magnitude_upper a Pa) as U.
      pose proof (round_magnitude_lower b Pb S2) as L.
      pose proof (pow2_le (Calendar.ulp_exponent a + 53)
                    (Calendar.ulp_exponent b + 52) ltac:(lia)).
      lra.
  - assert (E : (a == 0)%Q) by lra.
    rewrite (round_magnitude_zero a E).
    now apply round_magnitude_nonneg.
Qed.

Lemma Qle_bool_false (p q : Q) : Qle_bool p q = false -> (q < p)%Q.
Proof.
  intros H. apply Qnot_le_lt. intros L. apply Qle_bool_iff in L. congruence.
Qed.

Lemma round_double_mono (p q : Q) :
  (p <= q)%Q -> (Calendar.round_double p <= Calendar.round_double q)%Q.
Proof.
  intros H. unfold Calendar.round_double.
  destruct (Qle_bool 0 p) eqn:Cp; destruct (Qle_bool 0 q) eqn:Cq.
  - apply Qle_bool_iff in Cp. now apply round_magnitude_mono.
  - apply Qle_bool_iff in Cp. apply Qle_bool_false in Cq. lra.
  - apply Qle_bool_false in Cp. apply Qle_bool_iff in Cq.
    pose proof (round_magnitude_nonneg (- p) ltac:(lra)).
    pose proof (round_magnitude_nonneg q Cq). lra.
  - apply Qle_bool_false in Cp. apply Qle_bool_false in Cq.
    pose proof (round_magnitude_mono (- q) (- p) ltac:(lra) ltac:(lra)).
    lra.
Qed.

Lemma round_double_eq (p q : Q) :
  (p == q)%Q -> (Calendar.round_double p == Calendar.round_double q)%Q.
Proof.
  intros E. apply Qle_antisym; apply round_double_mono; rewrite E;
    apply Qle_refl.
Qed.

(** ** The seconds and the microseconds of a timestamp *)

Lemma trunc_floor (t : Q) :
  Qle_bool 0 t = true ->
  Calendar.trunc t = Qfloor t /\ 0 <= Qfloor t
  /\ (0 <= t - inject_Z (Calendar.trunc t))%Q
  /\ (t - inject_Z (Calendar.trunc t) < 1)%Q.
Proof.
  intros C. unfold Calendar.trunc. rewrite C. apply Qle_bool_iff in C.
  pose proof (Qfloor_le t). pose proof (Qlt_floor t) as U.
  rewrite inject_Z_plus in U. change (inject_Z 1) with 1%Q in U.
  pose proof (Qfloor_resp_le 0 t C) as F. change (Qfloor 0) with 0 in F.
  repeat split; try lra; assumption.
Qed.

Lemma trunc_ceiling (t : Q) :
  Qle_bool 0 t = false ->
  Calendar.trunc t = Qceiling t /\ Qceiling t <= 0
  /\ (t - inject_Z (Calendar.trunc t) <= 0)%Q
  /\ (- (1) < t - inject_Z (Calendar.trunc t))%Q.
Proof.
  intros C. unfold Calendar.trunc. rewrite C. apply Qle_bool_false in C.
  pose proof (Qle_ceiling t). pose proof (Qceiling_lt t) as L.
  unfold Z.sub in L. rewrite inject_Z_plus in L.
  change (inject_Z (- (1))) with (- (1))%Q in L.
  pose proof (Qceiling_resp_le t 0 ltac:(lra)) as F.
  change (Qceiling 0) with 0 in F.
  repeat split; try lra; assumption.
Qed.

Lemma trunc_mono (t1 t2 : Q) :
  (t1 <= t2)%Q -> Calendar.trunc t1 <= Calendar.trunc t2.
Proof.
  intros H.
  destruct (Qle_bool 0 t1) eqn:C1; destruct (Qle_bool 0 t2) eqn:C2.
  - destruct (trunc_floor t1 C1) as (-> & _). destruct (trunc_floor t2 C2) as (-> & _).
    now apply Qfloor_resp_le.
  - apply Qle_bool_iff in C1. apply Qle_bool_false in C2. lra.
  - destruct (trunc_ceiling t1 C1) as (-> & ? & _).
    destruct (trunc_floor t2 C2) as (-> & ? & _). lia.
  - destruct (trunc_ceiling t1 C1) as (-> & _).
    destruct (trunc_ceiling t2 C2) as (-> & _).
    now apply Qceiling_resp_le.
Qed.

Lemma round_double_million :
  (Calendar.round_double (inject_Z 1000000) == inject_Z 1000000)%Q
  /\ (Calendar.round_double (inject_Z (- 1000000)) == inject_Z (- 1000000))%Q
  /\ (Calendar.round_double 0 == inject_Z 0)%Q.
Proof. repeat split; vm_compute; reflexivity. Qed.

(** The rounded fraction: between [- 10^6] and [10^6], with the sign of the
    timestamp. *)
Lemma floatpart_bounds (t : Q) :
  - 1000000 <= Calendar.floatpart t <= 1000000
  /\ (Qle_bool 0 t = true -> 0 <= Calendar.floatpart t)
  /\ (Qle_bool 0 t = false -> Calendar.floatpart t <= 0).
Proof.
  unfold Calendar.floatpart.
  set (f := (t - inject_Z (Calendar.trunc t))%Q).
  destruct round_double_million as (M1 & M2 & M3).
  assert (Up : forall x : Q, (x <= inject_Z 1000000)%Q ->
               Calendar.round_half_even (Calendar.round_double x) <= 1000000).
  { intros x Hx.
    pose proof (round_half_even_mono _ _ (round_double_mono _ _ Hx)) as R.
    now rewrite (round_half_even_eq _ _ M1), round_half_even_Z in R. }
  assert (Lo : forall x : Q, (inject_Z (- 1000000) <= x)%Q ->
               - 1000000 <= Calendar.round_half_even (Calendar.round_double x)).
  { intros x Hx.
    pose proof (round_half_even_mono _ _ (round_double_mono _ _ Hx)) as R.
    now rewrite (round_half_even_eq _ _ M2), round_half_even_Z in R. }
  assert (Po : forall x : Q, (0 <= x)%Q ->
               0 <= Calendar.round_half_even (Calendar.round_double x)).
  { intros x Hx.
    pose proof (round_half_even_mono _ _ (round_double_mono _ _ Hx)) as R.
    now rewrite (round_half_even_eq _ _ M3), round_half_even_Z in R. }
  assert (Ne : forall x : Q, (x <= 0)%Q ->
               Calendar.round_half_even (Calendar.round_double x) <= 0).
  { intros x Hx.
    pose proof (round_half_even_mono _ _ (round_double_mono _ _ Hx)) as R.
    now rewrite (round_half_even_eq _ _ M3), round_half_even_Z in R. }
  assert (B : (- (1) < f)%Q /\ (f < 1)%Q
              /\ (Qle_bool 0 t = true -> (0 <= f)%Q)
              /\ (Qle_bool 0 t = false -> (f <= 0)%Q)).
  { unfold f. destruct (Qle_bool 0 t) eqn:C.
    - destruct (trunc_floor t C) as (_ & _ & F1 & F2).
      repeat split; try lra; discriminate.
    - destruct (trunc_ceiling t C) as (_ & _ & F1 & F2).
      repeat split; try lra; discriminate. }
  destruct B as (B1 & B2 & B3 & B4).
  change (inject_Z 1000000) with 1000000%Q in *.
  change (inject_Z (- 1000000)) with (- (1000000))%Q in *.
  split; [split|split].
  - apply Lo. lra.
  - apply Up. lra.
  - intros C. apply Po. specialize (B3 C). lra.
  - intros C. apply Ne. specialize (B4 C). lra.
Qed.

Lemma floatpart_mono (t1 t2 : Q) :
  (t1 <= t2)%Q -> Calendar.trunc t1 = Calendar.trunc t2 ->
  Calendar.floatpart t1 <= Calendar.floatpart t2.
Proof.
  intros H E. unfold Calendar.floatpart. rewrite E.
  apply round_half_even_mono, round_double_mono.
  apply Qmult_le_compat_r; [lra | discriminate].
Qed.

(** The microsecond count does not decrease with the timestamp. *)
Lemma to_micros_mono (t1 t2 : Q) :
  (t1 <= t2)%Q -> Calendar.to_micros t1 <= Calendar.to_micros t2.
Proof.
  intros H. unfold Calendar.to_micros.
  pose proof (trunc_mono t1 t2 H) as T.
  destruct (Z.eq_dec (Calendar.trunc t1) (Calendar.trunc t2)) as [E|N].
  - pose proof (floatpart_mono t1 t2 H E). lia.
  - destruct (floatpart_bounds t1) as (B1 & P1 & N1).
    destruct (floatpart_bounds t2) as (B2 & P2 & N2).
    destruct (Qle_bool 0 t1) eqn:C1.
    + assert (C2 : Qle_bool 0 t2 = true).
      { apply Qle_bool_iff. apply Qle_bool_iff in C1. lra. }
      specialize (P2 C2). lia.
    + specialize (N1 eq_refl). lia.
Qed.

(** The carry of [timeval]: quotient and remainder of the microsecond
    count. *)
Lemma timeval_micros (t : Q) :
  Calendar.timeval t
  = (Calendar.to_micros t / 1000000, Calendar.to_micros t mod 1000000).
Proof.
  unfold Calendar.timeval, Calendar.to_micros. cbv zeta.
  destruct (floatpart_bounds t) as (B & _).
  set (i := Calendar.trunc t) in *. set (f := Calendar.floatpart t) in *.
  destruct (Z.leb_spec 1000000 f) as [G|L].
  - assert (f = 1000000) by lia. f_equal; euclid.
  - destruct (Z.ltb_spec f 0) as [G|P]; f_equal; euclid.
Qed.

(** A timestamp of whole seconds has no microseconds. *)
Lemma to_micros_whole (q : Q) (n : Z) :
  (q == inject_Z n)%Q -> Calendar.to_micros q = n * 1000000.
Proof.
  intros E.
  assert (T : Calendar.trunc q = n).
  { unfold Calendar.trunc. destruct (Qle_bool 0 q).
    - rewrite E. apply Qfloor_Z.
    - rewrite E. apply Qceiling_Z. }
  unfold Calendar.to_micros, Calendar.floatpart. rewrite T.
  assert (Z : ((q - inject_Z n) * inject_Z 1000000 == 0)%Q)
    by (rewrite E; ring).
  destruct round_double_million as (_ & _ & M3).
  rewrite (round_half_even_eq _ _ (round_double_eq _ _ Z)),
    (round_half_even_eq _ _ M3), round_half_even_Z.
  lia.
Qed.

Lemma append_nil_r (a : string) : a ++ "" = a.
Proof. induction a as [|x a IH]; cbn; [reflexivity | now rewrite IH]. Qed.

Lemma strftime_iso (pad : bool) (dt : Calendar.datetime) :
  Calendar.strftime pad dt "%Y-%m-%dT%H:%M:%S" =
  (if pad then Text.fmt_0d 4 (Calendar.year dt) else Text.dec (Calendar.year dt))
  ++ "-" ++ Text.fmt_0d 2 (Calendar.month dt)
  ++ "-" ++ Text.fmt_0d 2 (Calendar.day dt)
  ++ "T" ++ Text.fmt_0d 2 (Calendar.hour dt)
  ++ ":" ++ Text.fmt_0d 2 (Calendar.minute dt)
  ++ ":" ++ Text.fmt_0d 2 (Calendar.second dt).
Proof.
  rewrite <- (append_nil_r (Text.fmt_0d 2 (Calendar.second dt))).
  reflexivity.
Qed.

(** Every text of the fixed shape has the shape. *)
Lemma iso_text_shape (dt : Calendar.datetime) : iso_shape (iso_text dt) = true.
Proof.
  unfold iso_shape, iso_text. cbn.
  rewrite !digit_char_is_digit by apply mod10_range. reflexivity.
Qed.

Lemma timeval_whole (n : Z) : Calendar.timeval (inject_Z n) = (n, 0).
Proof.
  rewrite timeval_micros, (to_micros_whole (inject_Z n) n) by reflexivity.
  f_equal; euclid.
Qed.

Lemma utcfromtimestamp_exact_value (ts : pyval) (t : Q) :
  exact_value ts = Some t ->
  utcfromtimestamp ts = Calendar.utcfromtimestamp_exact t.
Proof.
  destruct ts; cbn [exact_value utcfromtimestamp]; try discriminate.
  - intros [= <-]. unfold Calendar.utcfromtimestamp_exact.
    destruct b.
    + change (Calendar.timeval _) with (Calendar.timeval (inject_Z 1)).
      now rewrite timeval_whole.
    + change (Calendar.timeval _) with (Calendar.timeval (inject_Z 0)).
      now rewrite timeval_whole.
  - intros [= <-]. unfold Calendar.utcfromtimestamp_exact.
    now rewrite timeval_whole.
  - intros H. now rewrite H.
Qed.

Lemma utcfromtimestamp_representable (t : Q) :
  representable t -> Calendar.utcfromtimestamp_exact t = Ok (utc_time t).
Proof.
  unfold representable, rounded_second, Calendar.utcfromtimestamp_exact,
    utc_time. rewrite timeval_micros. unfold Calendar.from_timeval.
  cbv zeta. intros H.
  set (secs := Calendar.to_micros t / 1000000) in *.
  set (us := Calendar.to_micros t mod 1000000).
  pose proof (representable_year secs us H) as Y.
  assert (Hmin : min_second = - 62135596800) by reflexivity.
  assert (Hmax : max_second = 253402300799) by reflexivity.
  rewrite Hmin, Hmax in H.
  destruct (Z.ltb_spec secs (- 2 ^ 63)); [lia|].
  destruct (Z.leb_spec (2 ^ 63) secs); [lia|]. cbn [orb].
  destruct (Z.ltb_spec (Calendar.year (Calendar.gmtime secs us) - 1900) (- 2 ^ 31)); [lia|].
  destruct (Z.leb_spec (2 ^ 31) (Calendar.year (Calendar.gmtime secs us) - 1900)); [lia|].
  cbn [orb].
  destruct (Z.ltb_spec (Calendar.year (Calendar.gmtime secs us)) 1); [lia|].
  destruct (Z.ltb_spec 9999 (Calendar.year (Calendar.gmtime secs us))); [lia|].
  reflexivity.
Qed.

Lemma utc_time_valid (t : Q) : valid_time (utc_time t).
Proof. apply gmtime_valid. apply Z.mod_pos_bound. lia. Qed.

(** The text of a representable timestamp. *)
Lemma format_timestamp_text (rt : runtime) (ts : pyval) (t : Q) :
  exact_value ts = Some t -> representable t ->
  rt_pad_year rt = true \/ year_1000 <= rounded_second t ->
  format_timestamp rt ts = Ok (iso_text (utc_time t)).
Proof.
  intros Hv Hr Hy. unfold format_timestamp.
  rewrite (utcfromtimestamp_exact_value ts t Hv),
    (utcfromtimestamp_representable t Hr).
  cbn [bind]. f_equal. rewrite strftime_iso.
  pose proof (utc_time_valid t) as ([Hmo Hda] & Hh & Hm & Hs & Hu).
  pose proof (days_in_month_le (Calendar.year (utc_time t))
                (Calendar.month (utc_time t))).
  assert (Y : 1 <= Calendar.year (utc_time t) <= 9999)
    by (apply representable_year; exact Hr).
  assert (Hyear : (if rt_pad_year rt
                   then Text.fmt_0d 4 (Calendar.year (utc_time t))
                   else Text.dec (Calendar.year (utc_time t)))
                  = Text.digits_fixed 4 (Calendar.year (utc_time t))).
  { destruct (rt_pad_year rt) eqn:P.
    - apply fmt_0d_fixed; [lia | change (10 ^ Z.of_nat 4) with 10000; lia].
    - destruct Hy as [Hy|Hy]; [discriminate|].
      apply dec_four_digits.
      assert (Y2 : 1000 <= Calendar.year (utc_time t) < 10000);
        [|lia].
      apply year_of_second; [exact Hy|].
      change (Calendar.timegm 10000 1 1 0 0 0) with (max_second + 1).
      unfold representable in Hr. fold (rounded_second t). lia. }
  rewrite Hyear.
  change 1000000 with (1000 * 1000) in Hu.
  rewrite !fmt_0d_fixed
    by (try lia; first [change (10 ^ Z.of_nat 2) with 100
                       |change (10 ^ Z.of_nat 3) with 1000]; euclid).
  unfold iso_text. rewrite !append_assoc. reflexivity.
Qed.

(** ** The timestamp formatter (claims C3 and C8) *)

(** C3, as amended.  For every numeric timestamp [ts] of exact value [t] in
    the representable range (on a C library that does not pad [%Y], from the
    year 1000 on), [format_timestamp] returns a text of the exact shape
    [YYYY-MM-DDTHH:MM:SS.mmmZ]: its fields are those of the UTC time of [t]
    rounded to the microsecond as [datetime.utcfromtimestamp] rounds it,
    [Calendar.to_micros]: the fraction of [t] times [1e6], a product of
    doubles, rounded half to even and carried into the seconds (the fields
    are a date and a time of the calendar, and [timegm] maps them back to
    the rounded second), and its millisecond field is the microsecond of
    that rounded time truncated to milliseconds. *)
Theorem format_timestamp_shape (rt : runtime) (ts : pyval) (t : Q) :
  exact_value ts = Some t -> representable t ->
  rt_pad_year rt = true \/ year_1000 <= rounded_second t ->
  exists s : string,
    format_timestamp rt ts = Ok s /\ iso_shape s = true
    /\ s = iso_text (utc_time t)
    /\ valid_time (utc_time t)
    /\ Calendar.timegm (Calendar.year (utc_time t))
         (Calendar.month (utc_time t)) (Calendar.day (utc_time t))
         (Calendar.hour (utc_time t)) (Calendar.minute (utc_time t))
         (Calendar.second (utc_time t)) = rounded_second t
    /\ Calendar.microsecond (utc_time t) = Calendar.to_micros t mod 1000000.
Proof.
  intros Hv Hr Hy. exists (iso_text (utc_time t)).
  split; [now apply format_timestamp_text|].
  split; [apply iso_text_shape|]. split; [reflexivity|].
  split; [apply utc_time_valid|]. split.
  - apply (timegm_gmtime (Calendar.to_micros t / 1000000)).
  - pose proof (gmtime_fields (Calendar.to_micros t / 1000000)
                  (Calendar.to_micros t mod 1000000)) as F.
    cbv zeta in F. apply F.
Qed.

Lemma format_timestamp_shape_witness :
  exists s : string,
    format_timestamp linux_utc in_2023 = Ok s /\ iso_shape s = true
    /\ s = iso_text (utc_time in_2023_value)
    /\ valid_time (utc_time in_2023_value)
    /\ Calendar.timegm (Calendar.year (utc_time in_2023_value))
         (Calendar.month (utc_time in_2023_value))
         (Calendar.day (utc_time in_2023_value))
         (Calendar.hour (utc_time in_2023_value))
         (Calendar.minute (utc_time in_2023_value))
         (Calendar.second (utc_time in_2023_value))
       = rounded_second in_2023_value
    /\ Calendar.microsecond (utc_time in_2023_value)
       = Calendar.to_micros in_2023_value mod 1000000.
Proof.
  apply (format_timestamp_shape linux_utc in_2023 in_2023_value).
  - reflexivity.
  - split; vm_compute; discriminate.
  - right. vm_compute. discriminate.
Defined.

(** C3, as stated, fails on the float [1 - 2 ^ -30]: its fractional seconds
    truncate to 999 milliseconds of second 0, and the formatter prints
    second 1 and 000. *)
Lemma truncation_counterexample :
  exact_value almost_one = Some almost_one_value
  /\ representable almost_one_value
  /\ truncated_millis almost_one_value = 999
  /\ truncated_text almost_one_value = "1970-01-01T00:00:00.999Z"
  /\ format_timestamp linux_utc almost_one = Ok "1970-01-01T00:00:01.000Z"
  /\ format_timestamp linux_utc almost_one
     <> Ok (truncated_text almost_one_value).
Proof.
  split; [reflexivity|]. split; [split; vm_compute; discriminate|].
  split; [reflexivity|]. split; [reflexivity|]. split; [reflexivity|].
  vm_compute. discriminate.
Qed.

(** The rounding is that of the product of doubles: the float [0.0009995]
    is below 999.5 microseconds, its fraction times [1e6] is the double
    999.5, which rounds half to even to the millisecond. *)
Example format_timestamp_near_millisecond :
  exact_value near_millisecond = Some (4609380175418174 # 2 ^ 62)
  /\ ((4609380175418174 # 2 ^ 62) * 1000000 < 9995 # 10)%Q
  /\ Calendar.to_micros (4609380175418174 # 2 ^ 62) = 1000
  /\ format_timestamp linux_utc near_millisecond
     = Ok "1970-01-01T00:00:00.001Z".
Proof. repeat split; vm_compute; reflexivity. Qed.

Lemma rounded_second_mono (t1 t2 : Q) :
  (t1 <= t2)%Q -> rounded_second t1 <= rounded_second t2.
Proof.
  intros H. apply Z.div_le_mono; [lia | now apply to_micros_mono].
Qed.

Lemma epoch_millis_utc_time (t : Q) :
  epoch_millis (utc_time t) = Calendar.to_micros t / 1000.
Proof. unfold utc_time. rewrite epoch_millis_gmtime. euclid. Qed.

(** C8, as amended.  [format_timestamp] is monotonic on the representable
    range where the C library pads [%Y] to four digits, and from the year
    1000 on where it does not: for timestamps of exact values [t1 <= t2],
    the text of the first is lexicographically less than or equal to the
    text of the second.  The rounding of [datetime.utcfromtimestamp], by
    the product of doubles, keeps the order ([to_micros_mono]). *)
Theorem format_timestamp_monotone (rt : runtime) (ts1 ts2 : pyval)
  (t1 t2 : Q) :
  exact_value ts1 = Some t1 -> exact_value ts2 = Some t2 ->
  representable t1 -> representable t2 -> (t1 <= t2)%Q ->
  rt_pad_year rt = true \/ year_1000 <= rounded_second t1 ->
  exists s1 s2 : string,
    format_timestamp rt ts1 = Ok s1 /\ format_timestamp rt ts2 = Ok s2
    /\ String.leb s1 s2 = true.
Proof.
  intros Hv1 Hv2 Hr1 Hr2 Hle Hy.
  exists (iso_text (utc_time t1)), (iso_text (utc_time t2)).
  split; [now apply format_timestamp_text|]. split.
  - apply format_timestamp_text; [assumption..|].
    destruct Hy as [Hy|Hy]; [now left | right].
    pose proof (rounded_second_mono t1 t2 Hle). lia.
  - unfold String.leb.
    assert (Y1 : 1 <= Calendar.year (utc_time t1) <= 9999)
      by (apply representable_year; exact Hr1).
    assert (Y2 : 1 <= Calendar.year (utc_time t2) <= 9999)
      by (apply representable_year; exact Hr2).
    rewrite iso_text_compare by (try apply utc_time_valid; lia).
    rewrite !epoch_millis_utc_time.
    pose proof (to_micros_mono t1 t2 Hle) as Hm.
    destruct (Z.compare_spec (Calendar.to_micros t1 / 1000)
                (Calendar.to_micros t2 / 1000)) as [E|L|G];
      [reflexivity | reflexivity | exfalso].
    pose proof (Z.div_le_mono _ _ 1000 ltac:(lia) Hm). lia.
Qed.

Lemma format_timestamp_monotone_witness :
  exists s1 s2 : string,
    format_timestamp linux_utc start_of_1000 = Ok s1
    /\ format_timestamp linux_utc in_2023 = Ok s2
    /\ String.leb s1 s2 = true.
Proof.
  apply (format_timestamp_monotone linux_utc start_of_1000 in_2023
           (inject_Z (- 30610224000)) in_2023_value).
  - reflexivity.
  - reflexivity.
  - split; vm_compute; discriminate.
  - split; vm_compute; discriminate.
  - vm_compute. discriminate.
  - right. vm_compute. discriminate.
Defined.

(** C8, as stated, fails on a C library that prints the bare year: the last
    second of the year 999 comes before the first second of the year 1000,
    and its text after. *)
Lemma year_999_counterexample :
  exact_value end_of_999 = Some (inject_Z (- 30610224001))
  /\ exact_value start_of_1000 = Some (inject_Z (- 30610224000))
  /\ representable (inject_Z (- 30610224001))
  /\ representable (inject_Z (- 30610224000))
  /\ (inject_Z (- 30610224001) <= inject_Z (- 30610224000))%Q
  /\ format_timestamp linux_utc end_of_999 = Ok "999-12-31T23:59:59.000Z"
  /\ format_timestamp linux_utc start_of_1000
     = Ok "1000-01-01T00:00:00.000Z"
  /\ String.leb "999-12-31T23:59:59.000Z" "1000-01-01T00:00:00.000Z" = false.
Proof.
  repeat split; try reflexivity; vm_compute; discriminate.
Qed.

(** ** Values *)

(** Induction on values, through the lists of their containers. *)
Lemma pyval_ind' (P : pyval -> Prop) :
  P VNone -> (forall b, P (VBool b)) -> (forall n, P (VInt n)) ->
  (forall f, P (VFloat f)) -> (forall s, P (VStr s)) ->
  (forall items,
      Forall (fun kv : pyval * pyval => P (fst kv) /\ P (snd kv)) items ->
      P (VDict items)) ->
  (forall items, Forall P items -> P (VList items)) ->
  (forall items, Forall P items -> P (VTuple items)) ->
  (forall d, P (VDatetime d)) -> (forall d, P (VDate d)) ->
  (forall d, P (VDecimal d)) -> (forall u, P (VUUID u)) ->
  (forall o, P (VObject o)) ->
  forall v, P v.
Proof.
  intros HNone HBool HInt HFloat HStr HDict HList HTuple HDt HDate HDec
    HUuid HObj.
  fix IH 1. intros [| b | n | f | s | items | items | items | d | d | d | u | o].
  - exact HNone.
  - apply HBool.
  - apply HInt.
  - apply HFloat.
  - apply HStr.
  - apply HDict.
    exact ((fix go (l : list (pyval * pyval)) :
              Forall (fun kv => P (fst kv) /\ P (snd kv)) l :=
              match l with
              | [] => Forall_nil _
              | kv :: rest =>
                  Forall_cons kv (conj (IH (fst kv)) (IH (snd kv))) (go rest)
              end) items).
  - apply HList.
    exact ((fix go (l : list pyval) : Forall P l :=
              match l with
              | [] => Forall_nil _
              | x :: rest => Forall_cons x (IH x) (go rest)
              end) items).
  - apply HTuple.
    exact ((fix go (l : list pyval) : Forall P l :=
              match l with
              | [] => Forall_nil _
              | x :: rest => Forall_cons x (IH x) (go rest)
              end) items).
  - apply HDt.
  - apply HDate.
  - apply HDec.
  - apply HUuid.
  - apply HObj.
Qed.

Lemma bind_ok {A B : Type} (m : result A) (k : A -> result B) (b : B) :
  bind m k = Ok b -> exists a, m = Ok a /\ k a = Ok b.
Proof. destruct m as [a|e]; cbn; [eauto | discriminate]. Qed.

Lemma fmap_ok {A B : Type} (f : A -> B) (m : result A) (b : B) :
  fmap f m = Ok b -> exists a, m = Ok a /\ b = f a.
Proof.
  unfold fmap. intros H. apply bind_ok in H as (a & Ha & [= <-]). eauto.
Qed.

Lemma is_ok_returns {A : Type} (m : result A) : is_ok m = true <-> returns m.
Proof.
  destruct m as [a|e]; cbn; split; intros H; try discriminate.
  - now exists a.
  - reflexivity.
  - destruct H as [x H]. discriminate.
Qed.

Lemma returns_fmap {A B : Type} (f : A -> B) (m : result A) :
  returns (fmap f m) <-> returns m.
Proof.
  destruct m as [x|e]; cbn; split; intros [y H]; try discriminate;
    eexists; reflexivity.
Qed.

Lemma mapM_cons {A B : Type} (f : A -> result B) (x : A) (l : list A) :
  mapM f (x :: l) = (y <- f x ;; ys <- mapM f l ;; Ok (y :: ys)).
Proof. reflexivity. Qed.

Lemma mapM_ok {A B : Type} (f : A -> result B) (l : list A) (l' : list B) :
  mapM f l = Ok l' <-> Forall2 (fun x y => f x = Ok y) l l'.
Proof.
  revert l'. induction l as [|x l IH]; intros l'.
  - cbn. split.
    + intros [= <-]. constructor.
    + intros H. inversion H. reflexivity.
  - rewrite mapM_cons. split.
    + intros H. apply bind_ok in H as (y & Hy & H).
      apply bind_ok in H as (ys & Hys & [= <-]).
      constructor; [exact Hy | now apply IH].
    + intros H. inversion H as [|? y ? ys Hy Hys]; subst.
      rewrite Hy. cbn [bind]. apply IH in Hys. rewrite Hys. reflexivity.
Qed.

Lemma mapM_returns {A B : Type} (f : A -> result B) (l : list A) :
  returns (mapM f l) <-> Forall (fun x => returns (f x)) l.
Proof.
  induction l as [|x l IH].
  - split; [constructor | intros _; now exists []].
  - rewrite mapM_cons. split.
    + intros [ys H]. apply bind_ok in H as (y & Hy & H).
      apply bind_ok in H as (ys' & Hys & _).
      constructor; [now exists y | apply IH; now exists ys'].
    + intros H. inversion H as [|? ? [y Hy] Hl]; subst.
      apply IH in Hl as [ys Hys]. exists (y :: ys).
      rewrite Hy, Hys. reflexivity.
Qed.

Lemma Forall2_nth_error {A B : Type} (R : A -> B -> Prop) (l : list A)
  (l' : list B) (i : nat) (x : A) :
  Forall2 R l l' -> nth_error l i = Some x ->
  exists y, nth_error l' i = Some y /\ R x y.
Proof.
  intros H. revert i. induction H as [|a b l l' Hab H IH]; intros i Hi.
  - destruct i; discriminate.
  - destruct i as [|i]; cbn in *.
    + injection Hi as <-. eauto.
    + now apply IH.
Qed.

Section Normalizer.

Variable rt : runtime.

Lemma value_repr_dict (items : list (pyval * pyval)) :
  value_repr rt (VDict items) =
  (items' <- mapM (normalize_item rt) items ;; Ok (VDict items')).
Proof. reflexivity. Qed.

Lemma value_repr_of_list (items : list pyval) :
  value_repr rt (VList items) =
  (items' <- mapM (value_repr rt) items ;; Ok (VList items')).
Proof. reflexivity. Qed.

(** A normalized value is its own normal form. *)
Lemma value_repr_datetime (d : Calendar.datetime) :
  value_repr rt (VDatetime d)
  = fmap VStr (format_timestamp rt (mktime_datetime rt d)).
Proof. reflexivity. Qed.

Lemma value_repr_date (d : Calendar.date) :
  value_repr rt (VDate d)
  = fmap VStr (format_timestamp rt (mktime_date rt d)).
Proof. reflexivity. Qed.

Lemma value_repr_decimal (d : Decimal.decimal) :
  value_repr rt (VDecimal d)
  = fmap VFloat (FloatParse.float_of_string (Decimal.to_str d)).
Proof. reflexivity. Qed.

Lemma value_repr_fallback (v : pyval) :
  supported_category v = false -> value_repr rt v = fmap VStr (Py.repr v).
Proof. destruct v; intros H; try discriminate H; reflexivity. Qed.

Lemma value_repr_primitive (v : pyval) :
  json_primitive v = true -> value_repr rt v = Ok v.
Proof. destruct v; intros H; try discriminate H; reflexivity. Qed.

Lemma value_repr_uuid (u : Z) :
  value_repr rt (VUUID u) = Ok (VStr (Text.hex_fixed 32 u)).
Proof. reflexivity. Qed.

(** A normalized value is its own normal form. *)
Lemma value_repr_fixed (v w : pyval) :
  value_repr rt v = Ok w -> value_repr rt w = Ok w.
Proof.
  revert w. induction v as [| b | n | f | s | items IH | items IH | items IH
                            | d | d | d | u | o] using pyval_ind';
    intros w H.
  1-5: rewrite value_repr_primitive in H by reflexivity;
       injection H as <-; reflexivity.
  4: rewrite value_repr_datetime in H.
  5: rewrite value_repr_date in H.
  6: rewrite value_repr_decimal in H.
  7: rewrite value_repr_uuid in H; injection H as <-; reflexivity.
  3, 7: rewrite value_repr_fallback in H by reflexivity.
  3-7: apply fmap_ok in H as (x & _ & ->); reflexivity.
  - rewrite value_repr_dict in H.
    apply bind_ok in H as (items' & Hm & [= <-]).
    rewrite value_repr_dict.
    assert (E : mapM (normalize_item rt) items' = Ok items'); [|now rewrite E].
    apply mapM_ok. apply mapM_ok in Hm.
    induction Hm as [|[k v] [k' v'] l l' Hkv Hm IHm]; constructor.
    + inversion IH as [|? ? [_ IHv] _]; subst. cbn in Hkv, IHv.
      apply bind_ok in Hkv as (x & Hx & [= <- <-]).
      cbn. now rewrite (IHv x Hx).
    + apply IHm. now inversion IH.
  - rewrite value_repr_of_list in H.
    apply bind_ok in H as (items' & Hm & [= <-]).
    rewrite value_repr_of_list.
    assert (E : mapM (value_repr rt) items' = Ok items'); [|now rewrite E].
    apply mapM_ok. apply mapM_ok in Hm.
    induction Hm as [|x y l l' Hxy Hm IHm]; constructor.
    + inversion IH as [|? ? IHx _]; subst. now apply IHx.
    + apply IHm. now inversion IH.
Qed.

Lemma forallb_Forall {A : Type} (p : A -> bool) (l : list A) :
  forallb p l = true <-> Forall (fun x => p x = true) l.
Proof.
  induction l as [|x l IH]; cbn.
  - split; [constructor | reflexivity].
  - rewrite andb_true_iff, IH. split.
    + intros [Hx Hl]. now constructor.
    + intros H. now inversion H.
Qed.

Lemma returns_bind_ok {A B : Type} (m : result A) (f : A -> B) :
  returns (x <- m ;; Ok (f x)) <-> returns m.
Proof. apply (returns_fmap f m). Qed.

(** [value_repr] returns exactly when the conversion of every leaf does. *)
Lemma value_repr_convertible (v : pyval) :
  returns (value_repr rt v) <-> convertible rt v = true.
Proof.
  induction v as [| b | n | f | s | items IH | items IH | items IH
                  | d | d | d | u | o] using pyval_ind';
    try (cbn [value_repr convertible]; split;
         [reflexivity | intros _; eexists; reflexivity]);
    try (cbn [value_repr convertible]; rewrite returns_fmap;
         symmetry; apply is_ok_returns).
  - rewrite value_repr_dict, returns_bind_ok, mapM_returns.
    cbn [convertible]. rewrite forallb_Forall.
    induction IH as [|[k x] l [_ IHx] _ IHl].
    + split; constructor.
    + split; intros H; inversion H as [|? ? Hx Hl]; subst; constructor;
        try (now apply IHl).
      * cbn in Hx. rewrite returns_bind_ok in Hx. now apply IHx.
      * cbn. rewrite returns_bind_ok. now apply IHx.
  - rewrite value_repr_of_list, returns_bind_ok, mapM_returns.
    cbn [convertible]. rewrite forallb_Forall.
    induction IH as [|x l IHx _ IHl].
    + split; constructor.
    + split; intros H; inversion H as [|? ? Hx Hl]; subst; constructor;
        try (now apply IHl); now apply IHx.
Qed.

(** ** The value normalizer (claims C2, C6 and C7) *)


(** C6, as amended.  For every list (not: every ordered sequence) whose
    elements the normalizer returns on, the result is a new list of the
    same length whose i-th element is the normalized i-th element of the
    input; the list branch is taken before the fallback to [repr], so the
    result is never a string. *)
Theorem value_repr_list (items : list pyval) :
  Forall (fun x => returns (value_repr rt x)) items ->
  exists items' : list pyval,
    value_repr rt (VList items) = Ok (VList items')
    /\ List.length items' = List.length items
    /\ forall (i : nat) (x : pyval),
         nth_error items i = Some x ->
         exists y, nth_error items' i = Some y /\ value_repr rt x = Ok y.
Proof.
  intros H. apply mapM_returns in H as [items' Hm].
  exists items'. rewrite value_repr_of_list, Hm.
  split; [reflexivity|]. apply mapM_ok in Hm. split.
  - symmetry. exact (Forall2_length Hm).
  - intros i x Hi. exact (Forall2_nth_error _ _ _ i x Hm Hi).
Qed.

Lemma same_shape_leaf (v w : pyval) :
  is_container v = false -> value_repr rt v = Ok w ->
  is_container w = false /\ json_primitive w = true.
Proof.
  destruct v; cbn [is_container value_repr]; intros Hc H; try discriminate;
    try (injection H as <-; split; reflexivity);
    apply fmap_ok in H as (x & _ & ->); split; reflexivity.
Qed.

Lemma leaves_json_safe_leaf (w : pyval) :
  json_primitive w = true -> leaves_json_safe w = true.
Proof. destruct w; cbn; congruence. Qed.

(** On a container of supported leaves, normalization keeps the shape and
    leaves JSON-safe primitives. *)
Lemma value_repr_shape (v w : pyval) :
  supported_container v = true -> value_repr rt v = Ok w ->
  same_shape v w /\ leaves_json_safe w = true.
Proof.
  revert w. induction v as [| b | n | f | s | items IH | items IH | items IH
                            | d | d | d | u | o] using pyval_ind';
    intros w Hs H;
    try (match type of H with
         | value_repr _ ?x = _ =>
             destruct (same_shape_leaf x w eq_refl H) as [Hc Hp]
         end;
         split; [now apply shape_leaf | now apply leaves_json_safe_leaf]).
  - rewrite value_repr_dict in H.
    apply bind_ok in H as (items' & Hm & [= <-]).
    cbn [supported_container] in Hs. apply forallb_Forall in Hs.
    apply mapM_ok in Hm.
    enough (G : Forall2 (fun kv kv' : pyval * pyval =>
                           fst kv = fst kv' /\ same_shape (snd kv) (snd kv'))
                        items items'
                /\ Forall (fun kv : pyval * pyval =>
                             leaves_json_safe (snd kv) = true) items').
    { destruct G as [G1 G2]. split; [now constructor|].
      cbn [leaves_json_safe]. now apply forallb_Forall. }
    induction Hm as [|[k x] [k' x'] l l' Hkv Hm IHm].
    + split; constructor.
    + inversion IH as [|? ? [_ IHx] IHl]; subst.
      inversion Hs as [|? ? Hsx Hsl]; subst.
      cbn in Hkv. apply bind_ok in Hkv as (y & Hy & [= <- <-]).
      destruct (IHx y Hsx Hy) as [S1 S2].
      destruct (IHm IHl Hsl) as [G1 G2].
      split; constructor; auto.
  - rewrite value_repr_of_list in H.
    apply bind_ok in H as (items' & Hm & [= <-]).
    cbn [supported_container] in Hs. apply forallb_Forall in Hs.
    apply mapM_ok in Hm.
    enough (G : Forall2 same_shape items items'
                /\ Forall (fun x => leaves_json_safe x = true) items').
    { destruct G as [G1 G2]. split; [now constructor|].
      cbn [leaves_json_safe]. now apply forallb_Forall. }
    induction Hm as [|x x' l l' Hx Hm IHm].
    + split; constructor.
    + inversion IH as [|? ? IHx IHl]; subst.
      inversion Hs as [|? ? Hsx Hsl]; subst.
      destruct (IHx x' Hsx Hx) as [S1 S2].
      destruct (IHm IHl Hsl) as [G1 G2].
      split; constructor; auto.
Qed.

(** C7, as amended.  The value normalizer is idempotent: normalizing the
    result of a normalization gives the same result (and a normalization
    that raises raises the same exception again); and on every nesting of
    mappings and lists (not: of tuples) built from supported leaf types,
    each of which converts, the result is a container of the same shape,
    with the same keys in the same order and elements in the same order,
    whose leaves are all JSON-safe. *)
Theorem value_repr_idempotent (v : pyval) :
  (x <- value_repr rt v ;; value_repr rt x) = value_repr rt v
  /\ (supported_container v = true -> convertible rt v = true ->
      exists w : pyval,
        value_repr rt v = Ok w /\ same_shape v w
        /\ leaves_json_safe w = true).
Proof.
  split.
  - destruct (value_repr rt v) as [w|e] eqn:H; cbn [bind]; [|reflexivity].
    now apply (value_repr_fixed v).
  - intros Hs Hc. apply value_repr_convertible in Hc as [w Hw].
    exists w. split; [exact Hw|]. now apply value_repr_shape.
Qed.

End Normalizer.



Lemma value_repr_list_witness :
  Forall (fun x => returns (value_repr linux_utc x))
         [VInt 1; one_fifty; an_uuid]
  /\ exists items' : list pyval,
       value_repr linux_utc (VList [VInt 1; one_fifty; an_uuid])
       = Ok (VList items')
       /\ List.length items' = List.length [VInt 1; one_fifty; an_uuid]
       /\ forall (i : nat) (x : pyval),
            nth_error [VInt 1; one_fifty; an_uuid] i = Some x ->
            exists y, nth_error items' i = Some y
                      /\ value_repr linux_utc x = Ok y.
Proof.
  assert (H : Forall (fun x => returns (value_repr linux_utc x))
                     [VInt 1; one_fifty; an_uuid]).
  { repeat constructor; eexists; reflexivity. }
  split; [exact H|].
  exact (value_repr_list linux_utc [VInt 1; one_fifty; an_uuid] H).
Defined.

(** C6, as stated, fails on a tuple: the tuple [(1, 2)] is an ordered
    sequence that is not a string, and the normalizer returns the string
    ['(1, 2)'], which is no sequence of two elements. *)
Lemma tuple_counterexample :
  sequence_items pair = Some [VInt 1; VInt 2]
  /\ value_repr linux_utc pair = Ok (VStr "(1, 2)")
  /\ sequence_items (VStr "(1, 2)") = None.
Proof. repeat split. Qed.

(** C7, as stated, fails on two nested containers of supported leaf types:
    on the list of [Decimal('sNaN')] the normalizer raises, so there is no
    result of the same shape; in the list of the tuple [(1, 2)] the inner
    sequence becomes the string ['(1, 2)']. *)
Lemma shape_counterexample :
  claimed_container (VList [snan]) = true
  /\ supported_container (VList [snan]) = true
  /\ value_repr linux_utc (VList [snan]) = Raise ValueError
  /\ claimed_container (VList [pair]) = true
  /\ value_repr linux_utc (VList [pair]) = Ok (VList [VStr "(1, 2)"])
  /\ sequence_items pair = Some [VInt 1; VInt 2]
  /\ sequence_items (VStr "(1, 2)") = None.
Proof. repeat split. Qed.

Lemma value_repr_idempotent_witness :
  supported_container nested = true /\ convertible linux_utc nested = true
  /\ exists w : pyval,
       value_repr linux_utc nested = Ok w /\ same_shape nested w
       /\ leaves_json_safe w = true.
Proof.
  split; [reflexivity|]. split; [reflexivity|].
  apply (proj2 (value_repr_idempotent linux_utc nested)); reflexivity.
Defined.

(** ** Dictionaries *)

Lemma dict_get_in_keys (k : string) (d : sdict) :
  Py.dict_get k d <> None <-> In k (Py.keys d).
Proof.
  induction d as [|[k' v] d IH]; cbn.
  - split; [congruence | contradiction].
  - destruct (String.eqb_spec k k') as [E|N].
    + split; [intros _; left; now symmetry | discriminate].
    + rewrite IH. split; [now right | intros [E|H]; [congruence | exact H]].
Qed.

Lemma dict_get_not_in (k : string) (d : sdict) :
  ~ In k (Py.keys d) -> Py.dict_get k d = None.
Proof.
  intros H. destruct (Py.dict_get k d) eqn:E; [|reflexivity].
  exfalso. apply H, dict_get_in_keys. congruence.
Qed.

Lemma dict_get_set_eq (k : string) (v : pyval) (d : sdict) :
  Py.dict_get k (Py.dict_set k v d) = Some v.
Proof.
  induction d as [|[k' v'] d IH]; cbn.
  - now rewrite String.eqb_refl.
  - destruct (String.eqb_spec k k') as [E|N]; cbn.
    + subst. now rewrite String.eqb_refl.
    + destruct (String.eqb_spec k k'); [contradiction | exact IH].
Qed.

Lemma dict_get_set_neq (k k' : string) (v : pyval) (d : sdict) :
  k <> k' -> Py.dict_get k (Py.dict_set k' v d) = Py.dict_get k d.
Proof.
  intros N. induction d as [|[k0 v0] d IH]; cbn.
  - destruct (String.eqb_spec k k'); [contradiction | reflexivity].
  - destruct (String.eqb_spec k' k0) as [E|N0]; cbn.
    + subst. destruct (String.eqb_spec k k0); [contradiction | reflexivity].
    + destruct (String.eqb_spec k k0); [reflexivity | exact IH].
Qed.

Lemma keys_dict_set (k : string) (v : pyval) (d : sdict) :
  forall x, In x (Py.keys (Py.dict_set k v d)) <-> x = k \/ In x (Py.keys d).
Proof.
  intros x. induction d as [|[k' v'] d IH]; cbn.
  - intuition.
  - destruct (String.eqb_spec k k') as [E|N]; cbn.
    + subst. intuition.
    + rewrite IH. intuition.
Qed.

Lemma dict_set_well_formed (k : string) (v : pyval) (d : sdict) :
  well_formed d -> well_formed (Py.dict_set k v d).
Proof.
  unfold well_formed. induction d as [|[k' v'] d IH]; cbn; intros H.
  - repeat constructor. intros [].
  - inversion H as [|? ? Hn Hd]; subst.
    destruct (String.eqb_spec k k') as [E|N]; cbn.
    + now constructor.
    + constructor; [|now apply IH].
      change (~ In k' (Py.keys (Py.dict_set k v d))).
      rewrite keys_dict_set. intros [E|I]; [congruence | contradiction].
Qed.

(** Last write wins: after [d.update(other)], a key of [other] has the value
    of [other], any other key the value it had. *)
Lemma dict_get_update (k : string) (d other : sdict) :
  well_formed other ->
  Py.dict_get k (Py.dict_update d other) =
  match Py.dict_get k other with
  | Some v => Some v
  | None => Py.dict_get k d
  end.
Proof.
  unfold Py.dict_update, well_formed. revert d.
  induction other as [|[k0 v0] other IH]; intros d H; cbn.
  - reflexivity.
  - inversion H as [|? ? Hn Hd]; subst. rewrite (IH _ Hd).
    destruct (String.eqb_spec k k0) as [E|N].
    + subst. rewrite (dict_get_not_in _ _ Hn). apply dict_get_set_eq.
    + now rewrite dict_get_set_neq.
Qed.

Lemma keys_dict_update (d other : sdict) (x : string) :
  In x (Py.keys d) -> In x (Py.keys (Py.dict_update d other)).
Proof.
  unfold Py.dict_update. revert d.
  induction other as [|[k0 v0] other IH]; intros d H; cbn; [exact H|].
  apply IH. apply keys_dict_set. now right.
Qed.

Lemma region_of_fields (fields : sdict) :
  flat_map (fun kv : pyval * pyval =>
              match fst kv with
              | VStr k => [(k, snd kv)]
              | _ => []
              end)
           (map (fun kv : string * pyval => (VStr (fst kv), snd kv)) fields)
  = fields.
Proof.
  induction fields as [|[k v] fields IH]; cbn; [reflexivity | now rewrite IH].
Qed.

(** ** Reserved names *)

Lemma in_skip_list_reserved (k : string) : in_skip_list k = reserved k.
Proof.
  unfold in_skip_list, reserved, skip_list, reserved_names.
  cbn [existsb]. destruct (String.eqb k "msecs"); cbn [orb]; reflexivity.
Qed.

(** ** The extra fields (claim C1) *)

Section Extras.

Variable rt : runtime.

Lemma extra_fields_loop_get (items fields out : sdict) :
  well_formed items -> extra_fields_loop rt items fields = Ok out ->
  forall k : string,
    Py.dict_get k out =
    match Py.dict_get k items with
    | Some v =>
        if reserved k then Py.dict_get k fields
        else match value_repr rt v with
             | Ok v' => Some v'
             | Raise _ => None
             end
    | None => Py.dict_get k fields
    end.
Proof.
  unfold well_formed. revert fields.
  induction items as [|[key value] items IH]; intros fields Hwf H k.
  - cbn in H. injection H as <-. reflexivity.
  - inversion Hwf as [|? ? Hn Hd]; subst.
    cbn [extra_fields_loop] in H. rewrite in_skip_list_reserved in H.
    cbn [Py.dict_get].
    destruct (reserved key) eqn:R; cbn [negb] in H.
    + rewrite (IH _ Hd H k).
      destruct (String.eqb_spec k key) as [E|N]; [|reflexivity].
      subst. now rewrite (dict_get_not_in _ _ Hn), R.
    + apply bind_ok in H as (v & Hv & H). rewrite (IH _ Hd H k).
      destruct (String.eqb_spec k key) as [E|N].
      * subst. rewrite (dict_get_not_in _ _ Hn), R, Hv.
        apply dict_get_set_eq.
      * rewrite dict_get_set_neq by exact N. reflexivity.
Qed.

Lemma extra_fields_loop_returns (items fields : sdict) :
  (forall k v, In (k, v) items -> reserved k = false ->
               returns (value_repr rt v)) ->
  returns (extra_fields_loop rt items fields).
Proof.
  revert fields. induction items as [|[key value] items IH]; intros fields H.
  - now exists fields.
  - cbn [extra_fields_loop]. rewrite in_skip_list_reserved.
    destruct (reserved key) eqn:R; cbn [negb].
    + apply IH. intros k v I. apply H. now right.
    + destruct (H key value (or_introl eq_refl) R) as [v Hv].
      rewrite Hv. cbn [bind]. apply IH. intros k x I. apply H. now right.
Qed.

Lemma extra_fields_loop_well_formed (items fields out : sdict) :
  well_formed fields -> extra_fields_loop rt items fields = Ok out ->
  well_formed out.
Proof.
  revert fields. induction items as [|[key value] items IH]; intros fields W H.
  - cbn in H. now injection H as <-.
  - cbn [extra_fields_loop] in H.
    destruct (negb (in_skip_list key)).
    + apply bind_ok in H as (v & _ & H).
      apply (IH _ (dict_set_well_formed key v fields W) H).
    + apply (IH _ W H).
Qed.

Lemma dict_get_In (k : string) (v : pyval) (d : sdict) :
  Py.dict_get k d = Some v -> In (k, v) d.
Proof.
  induction d as [|[k' v'] d IH]; cbn; [discriminate|].
  destruct (String.eqb_spec k k') as [E|N].
  - intros [= <-]. subst. now left.
  - intros H. right. now apply IH.
Qed.

Lemma In_dict_get (k : string) (v : pyval) (d : sdict) :
  well_formed d -> In (k, v) d -> Py.dict_get k d = Some v.
Proof.
  unfold well_formed. induction d as [|[k' v'] d IH]; cbn; [contradiction|].
  intros W [E|I].
  - injection E as -> ->. now rewrite String.eqb_refl.
  - inversion W as [|? ? Hn Hd]; subst.
    destruct (String.eqb_spec k k') as [E|N]; [|now apply IH].
    subst. exfalso. apply Hn. change (In k' (map fst d)).
    apply in_map_iff. now exists (k', v).
Qed.

Lemma get_extra_fields_spec (record : LogRecord) (fields : sdict) :
  well_formed (__dict__ record) -> get_extra_fields rt record = Ok fields ->
  extras_of rt record fields /\ well_formed fields.
Proof.
  intros W H. unfold get_extra_fields in H. split.
  - intros k v'. rewrite (extra_fields_loop_get _ _ _ W H k). cbn [Py.dict_get].
    destruct (Py.dict_get k (__dict__ record)) as [v|] eqn:G.
    + destruct (reserved k) eqn:R.
      * split; [discriminate | intros [[=] _]].
      * destruct (value_repr rt v) as [x|e] eqn:V.
        -- split.
           ++ intros [= <-]. split; [reflexivity|]. now exists v.
           ++ intros [_ (v0 & [= <-] & Hv)]. congruence.
        -- split; [discriminate|].
           intros [_ (v0 & [= <-] & Hv)]. congruence.
    + split; [discriminate|]. intros [_ (v0 & [=] & _)].
  - apply (extra_fields_loop_well_formed (__dict__ record) [] fields);
      [constructor | exact H].
Qed.

End Extras.

(** ** The debug fields (claims C5 and C10) *)

Section Debug.

Variable rt : runtime.

Lemma getattr_ok (record : LogRecord) (name : string) (v : pyval) :
  getattr record name = Ok v <-> Py.dict_get name (__dict__ record) = Some v.
Proof.
  unfold getattr. destruct (Py.dict_get name (__dict__ record)); split;
    congruence.
Qed.

Lemma getattr_missing (record : LogRecord) (name : string) :
  Py.dict_get name (__dict__ record) = None ->
  getattr record name = Raise AttributeError.
Proof. unfold getattr. now intros ->. Qed.

Lemma getattr_raise (record : LogRecord) (name : string) (e : exn) :
  getattr record name = Raise e -> e = AttributeError.
Proof.
  unfold getattr. destruct (Py.dict_get name (__dict__ record)); congruence.
Qed.

Lemma getattr_default_ok (record : LogRecord) (name : string) (v d : pyval) :
  getattr record name = Ok v -> getattr_default record name d = v.
Proof.
  rewrite getattr_ok. unfold getattr_default. now intros ->.
Qed.

Lemma format_exception_triple (etype value tb : pyval) :
  format_exception rt (VTuple [etype; value; tb])
  = if exception_value value && traceback_value tb
    then Ok (Text.join "" (rt_format_exception rt etype value tb))
    else Raise AttributeError.
Proof. reflexivity. Qed.

Lemma format_exception_absent (exc_info : pyval) :
  Py.truthy exc_info = false -> format_exception rt exc_info = Ok "".
Proof. unfold format_exception. now intros ->. Qed.

(** What [get_debug_fields] computes when the attributes it reads exist. *)
Lemma get_debug_fields_value (record : LogRecord)
  (exc_info lineno process threadName funcName processName : pyval)
  (trace : string) :
  getattr record "exc_info" = Ok exc_info ->
  format_exception rt exc_info = Ok trace ->
  getattr record "lineno" = Ok lineno ->
  getattr record "process" = Ok process ->
  getattr record "threadName" = Ok threadName ->
  getattr record "funcName" = Ok funcName ->
  getattr record "processName" = Ok processName ->
  get_debug_fields rt record =
  Ok ((if Py.truthy processName then fun d => d
       else Py.dict_set "processName" processName)
        ((if Py.truthy funcName then fun d => d
          else Py.dict_set "funcName" funcName)
           [("stack_trace", VStr trace); ("lineno", lineno);
            ("process", process); ("thread_name", threadName)])).
Proof.
  intros He Ht Hl Hp Hth Hf Hpn. unfold get_debug_fields.
  rewrite He. cbn [bind]. rewrite Ht, Hl, Hp, Hth. cbn [bind].
  rewrite (getattr_default_ok _ _ _ _ Hf), (getattr_default_ok _ _ _ _ Hpn).
  rewrite Hf, Hpn.
  destruct (Py.truthy funcName), (Py.truthy processName); reflexivity.
Qed.

Lemma get_debug_fields_keys (record : LogRecord) (fields : sdict) :
  get_debug_fields rt record = Ok fields ->
  well_formed fields
  /\ (forall k, In k (Py.keys fields) -> In k (debug_keys ++ guarded_keys)%list)
  /\ (In "funcName" (Py.keys fields) <->
      Py.truthy (getattr_default record "funcName" VNone) = false)
  /\ (In "processName" (Py.keys fields) <->
      Py.truthy (getattr_default record "processName" VNone) = false).
Proof.
  unfold get_debug_fields. intros H.
  apply bind_ok in H as (e & _ & H). apply bind_ok in H as (t & _ & H).
  apply bind_ok in H as (l & _ & H). apply bind_ok in H as (p & _ & H).
  apply bind_ok in H as (th & _ & H). apply bind_ok in H as (f1 & H1 & H).
  apply bind_ok in H as (f2 & H2 & [= <-]).
  destruct (Py.truthy (getattr_default record "funcName" VNone));
    destruct (Py.truthy (getattr_default record "processName" VNone));
    cbn [negb] in H1, H2;
    try (apply bind_ok in H1 as (fn & _ & H1));
    injection H1 as <-;
    try (apply bind_ok in H2 as (pn & _ & H2));
    injection H2 as <-;
    (split; [unfold well_formed; cbn;
             repeat constructor; cbn; intuition discriminate|]);
    (split; [cbn; intuition|]);
    cbn; intuition discriminate.
Qed.

(** C5, as amended.  For every record with exception context that has the
    attributes the builder reads, the debug-field builder returns a mapping
    that has the keys [stack_trace], [lineno], [process] and [thread_name]
    (exactly these four: not promised), where [stack_trace] is the formatted
    traceback joined into a single string (the empty string when the
    exception triple is absent) and the other three are taken unchanged
    from the record, and no key other than these four and [funcName] and
    [processName]. *)
Theorem get_debug_fields_spec (record : LogRecord)
  (exc_info lineno process threadName funcName processName : pyval)
  (trace : string) :
  getattr record "exc_info" = Ok exc_info ->
  format_exception rt exc_info = Ok trace ->
  getattr record "lineno" = Ok lineno ->
  getattr record "process" = Ok process ->
  getattr record "threadName" = Ok threadName ->
  getattr record "funcName" = Ok funcName ->
  getattr record "processName" = Ok processName ->
  exists fields : sdict,
    get_debug_fields rt record = Ok fields
    /\ Py.dict_get "stack_trace" fields = Some (VStr trace)
    /\ Py.dict_get "lineno" fields = Some lineno
    /\ Py.dict_get "process" fields = Some process
    /\ Py.dict_get "thread_name" fields = Some threadName
    /\ (forall k, In k (Py.keys fields) ->
                  In k (debug_keys ++ guarded_keys)%list)
    /\ (forall etype value tb,
           exc_info = VTuple [etype; value; tb] ->
           trace = Text.join "" (rt_format_exception rt etype value tb))
    /\ (Py.truthy exc_info = false -> trace = "").
Proof.
  intros He Ht Hl Hp Hth Hf Hpn.
  pose proof (get_debug_fields_value record _ _ _ _ _ _ _
                He Ht Hl Hp Hth Hf Hpn) as E.
  eexists. split; [exact E|].
  pose proof (get_debug_fields_keys record _ E) as (_ & K & _).
  repeat split.
  - destruct (Py.truthy funcName), (Py.truthy processName); reflexivity.
  - destruct (Py.truthy funcName), (Py.truthy processName); reflexivity.
  - destruct (Py.truthy funcName), (Py.truthy processName); reflexivity.
  - destruct (Py.truthy funcName), (Py.truthy processName); reflexivity.
  - exact K.
  - intros etype value tb ->. rewrite format_exception_triple in Ht.
    destruct (exception_value value && traceback_value tb); congruence.
  - intros F. rewrite (format_exception_absent _ F) in Ht. congruence.
Qed.

(** C10.  For every record that carries exception context and has no
    [processName] attribute, the debug-field builder raises
    [AttributeError]; and whenever the builder returns, it has added the
    key [funcName], and the key [processName], exactly when [getattr] with
    the default [None] gave a false value for it. *)
Theorem get_debug_fields_guard (record : LogRecord) :
  (forall etype value tb : pyval,
      getattr record "exc_info" = Ok (VTuple [etype; value; tb]) ->
      Py.dict_get "processName" (__dict__ record) = None ->
      get_debug_fields rt record = Raise AttributeError)
  /\ (forall fields : sdict,
         get_debug_fields rt record = Ok fields ->
         (In "funcName" (Py.keys fields) <->
          Py.truthy (getattr_default record "funcName" VNone) = false)
         /\ (In "processName" (Py.keys fields) <->
             Py.truthy (getattr_default record "processName" VNone)
             = false)).
Proof.
  split.
  - intros etype value tb He Hm. unfold get_debug_fields.
    rewrite He. cbn [bind]. rewrite format_exception_triple.
    destruct (exception_value value && traceback_value tb);
      [|reflexivity].
    cbn [bind]. unfold getattr_default at 2. rewrite Hm. cbn [Py.truthy negb].
    rewrite (getattr_missing _ _ Hm).
    destruct (getattr record "lineno") as [l|e] eqn:Hl; cbn [bind];
      [|now rewrite (getattr_raise _ _ _ Hl)].
    destruct (getattr record "process") as [p|e] eqn:Hp; cbn [bind];
      [|now rewrite (getattr_raise _ _ _ Hp)].
    destruct (getattr record "threadName") as [t|e] eqn:Hth; cbn [bind];
      [|now rewrite (getattr_raise _ _ _ Hth)].
    destruct (Py.truthy (getattr_default record "funcName" VNone));
      cbn [negb bind]; [reflexivity|].
    destruct (getattr record "funcName") as [f|e] eqn:Hf; cbn [bind];
      [reflexivity|].
    now rewrite (getattr_raise _ _ _ Hf).
  - intros fields H. apply (get_debug_fields_keys record fields H).
Qed.

End Debug.

(** ** The messages (claims C1 and C4) *)

Section Messages.

Variable rt : runtime.

Lemma not_debug_key (k : string) (debug : sdict) :
  (forall x, In x (Py.keys debug) -> In x (debug_keys ++ guarded_keys)%list) ->
  reserved k = false -> k <> "stack_trace" -> k <> "thread_name" ->
  Py.dict_get k debug = None.
Proof.
  intros K R N1 N2. apply dict_get_not_in. intros I. apply K in I.
  cbn in I.
  destruct I as [E|[E|[E|[E|[E|[E|[]]]]]]]; subst k;
    try contradiction; discriminate R.
Qed.

(** The merge of the two formatters: the extras over the schema keys, then
    the debug fields when the record carries exception context. *)
Lemma merged_get (d extra debug : sdict) (k : string) :
  well_formed extra -> well_formed debug ->
  Py.dict_get k (Py.dict_update (Py.dict_update d extra) debug) =
  match Py.dict_get k debug with
  | Some v => Some v
  | None => match Py.dict_get k extra with
            | Some v => Some v
            | None => Py.dict_get k d
            end
  end.
Proof. intros We Wd. now rewrite !dict_get_update. Qed.

Lemma message_v0_fields (self : LogstashFormatterBase) (record : LogRecord)
  (message : sdict) :
  message_v0 rt self record = Ok message ->
  exists (levelname name exc_info : pyval) (extra debug : sdict),
    getattr record "levelname" = Ok levelname
    /\ getattr record "name" = Ok name
    /\ get_extra_fields rt record = Ok extra
    /\ getattr record "exc_info" = Ok exc_info
    /\ (if Py.truthy exc_info then get_debug_fields rt record = Ok debug
        else debug = [])
    /\ region_v0 message =
       Some (Py.dict_update
               (Py.dict_update [("levelname", levelname); ("logger", name)]
                               extra) debug).
Proof.
  unfold message_v0. intros H.
  apply bind_ok in H as (created & _ & H).
  apply bind_ok in H as (timestamp & _ & H).
  apply bind_ok in H as (msg & _ & H).
  apply bind_ok in H as (pathname & _ & H).
  apply bind_ok in H as (source & _ & H).
  apply bind_ok in H as (pathname' & _ & H).
  apply bind_ok in H as (levelname & Hl & H).
  apply bind_ok in H as (name & Hn & H).
  apply bind_ok in H as (extra & He & H).
  apply bind_ok in H as (exc_info & Hx & H).
  apply bind_ok in H as (fields & Hf & [= <-]).
  exists levelname, name, exc_info, extra.
  destruct (Py.truthy exc_info) eqn:T.
  - apply bind_ok in Hf as (debug & Hd & [= <-]). exists debug.
    repeat split; try assumption.
    unfold region_v0, Py.dict_val. cbn [Py.dict_get String.eqb Ascii.eqb
      Bool.eqb fst snd]. cbn. now rewrite region_of_fields.
  - injection Hf as <-. exists [].
    repeat split; try assumption.
    unfold region_v0, Py.dict_val. cbn. now rewrite region_of_fields.
Qed.

Lemma message_v1_merge (self : LogstashFormatterBase) (record : LogRecord)
  (message : sdict) :
  message_v1 rt self record = Ok message ->
  exists (created pathname levelname name exc_info : pyval)
         (timestamp msg : string) (extra debug : sdict),
    getattr record "created" = Ok created
    /\ format_timestamp rt created = Ok timestamp
    /\ getMessage record = Ok msg
    /\ getattr record "pathname" = Ok pathname
    /\ getattr record "levelname" = Ok levelname
    /\ getattr record "name" = Ok name
    /\ get_extra_fields rt record = Ok extra
    /\ getattr record "exc_info" = Ok exc_info
    /\ (if Py.truthy exc_info then get_debug_fields rt record = Ok debug
        else debug = [])
    /\ message =
       Py.dict_update
         (Py.dict_update
            [("@timestamp", VStr timestamp); ("@version", VStr "1");
             ("message", VStr msg); ("host", VStr (host self));
             ("path", pathname); ("tags", tags self);
             ("type", message_type self); ("level", levelname);
             ("logger_name", name)]
            extra) debug.
Proof.
  unfold message_v1. intros H.
  apply bind_ok in H as (created & Hc & H).
  apply bind_ok in H as (timestamp & Ht & H).
  apply bind_ok in H as (msg & Hm & H).
  apply bind_ok in H as (pathname & Hp & H).
  apply bind_ok in H as (levelname & Hl & H).
  apply bind_ok in H as (name & Hn & H).
  apply bind_ok in H as (extra & He & H).
  apply bind_ok in H as (exc_info & Hx & H).
  exists created, pathname, levelname, name, exc_info, timestamp, msg, extra.
  destruct (Py.truthy exc_info) eqn:T.
  - apply bind_ok in H as (debug & Hd & [= <-]). exists debug.
    repeat split; assumption.
  - injection H as <-. exists []. repeat split; assumption.
Qed.

Lemma debug_or_nothing (record : LogRecord) (exc_info : pyval)
  (debug : sdict) :
  (if Py.truthy exc_info then get_debug_fields rt record = Ok debug
   else debug = []) ->
  well_formed debug
  /\ forall x, In x (Py.keys debug) -> In x (debug_keys ++ guarded_keys)%list.
Proof.
  destruct (Py.truthy exc_info); intros H.
  - pose proof (get_debug_fields_keys rt record debug H) as (W & K & _).
    now split.
  - subst. split; [constructor | intros x []].
Qed.

(** C1, as amended.  For every log record on whose non-reserved attributes
    the normalizer returns, the extra-field extractor returns a mapping
    with an entry for exactly those record attributes whose name is not in
    the reserved-name set, each value passed through the value normalizer,
    and no entry for a reserved name, whatever its value; both schema
    versions merge that mapping into their extras region (the [@fields]
    mapping of version 0, the top level of version 1), over the schema's
    own keys and under the debug fields: every entry of it other than
    [stack_trace] and [thread_name] is an entry of the region. *)
Theorem get_extra_fields_exact (record : LogRecord) :
  well_formed (__dict__ record) ->
  Forall (fun kv : string * pyval =>
            reserved (fst kv) = false -> returns (value_repr rt (snd kv)))
         (__dict__ record) ->
  exists fields : sdict,
    get_extra_fields rt record = Ok fields
    /\ extras_of rt record fields
    /\ forall (self : LogstashFormatterBase) (message region : sdict)
              (k : string) (v' : pyval),
         (message_v0 rt self record = Ok message
          /\ region_v0 message = Some region)
         \/ (message_v1 rt self record = Ok message
             /\ region_v1 message = Some region) ->
         Py.dict_get k fields = Some v' ->
         k <> "stack_trace" -> k <> "thread_name" ->
         Py.dict_get k region = Some v'.
Proof.
  intros W Hret.
  destruct (extra_fields_loop_returns rt (__dict__ record) []) as [fields Hf].
  { intros k v I R. rewrite Forall_forall in Hret.
    apply (Hret (k, v) I R). }
  fold (get_extra_fields rt record) in Hf.
  destruct (get_extra_fields_spec rt record fields W Hf) as [Hex Wf].
  exists fields. split; [exact Hf|]. split; [exact Hex|].
  intros self message region k v' Hm Hk N1 N2.
  assert (R : reserved k = false) by (apply (Hex k v'); exact Hk).
  destruct Hm as [[Hm Hr]|[Hm Hr]].
  - apply message_v0_fields in Hm
      as (levelname & name & exc_info & extra & debug & _ & _ & He & _
          & Hd & Hreg).
    rewrite Hreg in Hr. injection Hr as <-.
    assert (extra = fields) by congruence. subst extra.
    destruct (debug_or_nothing record exc_info debug Hd) as [Wd Kd].
    rewrite merged_get by assumption.
    now rewrite (not_debug_key k debug Kd R N1 N2), Hk.
  - apply message_v1_merge in Hm
      as (created & pathname & levelname & name & exc_info & timestamp & msg
          & extra & debug & _ & _ & _ & _ & _ & _ & He & _ & Hd & ->).
    injection Hr as <-.
    assert (extra = fields) by congruence. subst extra.
    destruct (debug_or_nothing record exc_info debug Hd) as [Wd Kd].
    rewrite merged_get by assumption.
    now rewrite (not_debug_key k debug Kd R N1 N2), Hk.
Qed.

(** C4.  For every record and configuration on which the steps of the
    version 1 builder return, the builder returns a flat mapping: the keys
    [@timestamp], [@version] (the string [1]), [message], [host], [path],
    [tags], [type], [level] and [logger_name], updated with the extras
    mapping, then updated with the debug-field mapping if and only if the
    record carries exception context; all nine keys are keys of the
    result, a later write overwrites an earlier one of the same key, and
    with no exception context nothing is merged after the extras. *)
Theorem message_v1_structure (self : LogstashFormatterBase)
  (record : LogRecord) (created pathname levelname name exc_info : pyval)
  (timestamp msg : string) (extra : sdict) :
  getattr record "created" = Ok created ->
  format_timestamp rt created = Ok timestamp ->
  getMessage record = Ok msg ->
  getattr record "pathname" = Ok pathname ->
  getattr record "levelname" = Ok levelname ->
  getattr record "name" = Ok name ->
  get_extra_fields rt record = Ok extra ->
  getattr record "exc_info" = Ok exc_info ->
  (Py.truthy exc_info = true -> returns (get_debug_fields rt record)) ->
  exists (base debug message : sdict),
    base = [("@timestamp", VStr timestamp); ("@version", VStr "1");
            ("message", VStr msg); ("host", VStr (host self));
            ("path", pathname); ("tags", tags self);
            ("type", message_type self); ("level", levelname);
            ("logger_name", name)]
    /\ (if Py.truthy exc_info then get_debug_fields rt record = Ok debug
        else debug = [])
    /\ message_v1 rt self record = Ok message
    /\ message = Py.dict_update (Py.dict_update base extra) debug
    /\ (forall k, In k v1_keys -> In k (Py.keys message))
    /\ (forall k,
           Py.dict_get k message =
           match Py.dict_get k debug with
           | Some v => Some v
           | None => match Py.dict_get k extra with
                     | Some v => Some v
                     | None => Py.dict_get k base
                     end
           end).
Proof.
  intros Hc Ht Hm Hp Hl Hn He Hx Hd.
  assert (D : exists debug,
             (if Py.truthy exc_info then get_debug_fields rt record = Ok debug
              else debug = [])
             /\ (if Py.truthy exc_info
                 then debug' <- get_debug_fields rt record ;;
                      Ok (Py.dict_update
                            (Py.dict_update
                               [("@timestamp", VStr timestamp);
                                ("@version", VStr "1");
                                ("message", VStr msg);
                                ("host", VStr (host self));
                                ("path", pathname); ("tags", tags self);
                                ("type", message_type self);
                                ("level", levelname);
                                ("logger_name", name)] extra) debug')
                 else Ok (Py.dict_update
                            [("@timestamp", VStr timestamp);
                             ("@version", VStr "1");
                             ("message", VStr msg);
                             ("host", VStr (host self));
                             ("path", pathname); ("tags", tags self);
                             ("type", message_type self);
                             ("level", levelname);
                             ("logger_name", name)] extra))
                = Ok (Py.dict_update
                        (Py.dict_update
                           [("@timestamp", VStr timestamp);
                            ("@version", VStr "1");
                            ("message", VStr msg);
                            ("host", VStr (host self));
                            ("path", pathname); ("tags", tags self);
                            ("type", message_type self);
                            ("level", levelname);
                            ("logger_name", name)] extra) debug)).
  { destruct (Py.truthy exc_info).
    - destruct (Hd eq_refl) as [debug Hdebug]. exists debug.
      split; [exact Hdebug|]. now rewrite Hdebug.
    - exists []. split; reflexivity. }
  destruct D as (debug & Hdebug & Hrun).
  eexists. exists debug. eexists.
  split; [reflexivity|]. split; [exact Hdebug|].
  assert (Wx : well_formed extra).
  { unfold get_extra_fields in He.
    apply (extra_fields_loop_well_formed rt (__dict__ record) [] extra);
      [constructor | exact He]. }
  destruct (debug_or_nothing record exc_info debug Hdebug) as [Wd _].
  split; [|split; [reflexivity|split]].
  - unfold message_v1. rewrite Hc. cbn [bind]. rewrite Ht. cbn [bind].
    rewrite Hm. cbn [bind]. rewrite Hp, Hl, Hn. cbn [bind].
    rewrite He. cbn [bind]. rewrite Hx. cbn [bind]. exact Hrun.
  - intros k I. apply keys_dict_update, keys_dict_update. exact I.
  - intros k. now apply merged_get.
Qed.

End Messages.

(** ** Examples *)

Ltac distinct_keys :=
  unfold well_formed; cbn;
  repeat (constructor; [cbn; intuition discriminate|]); constructor.

Lemma get_extra_fields_exact_witness :
  exists fields : sdict,
    get_extra_fields linux_utc record_info = Ok fields
    /\ extras_of linux_utc record_info fields
    /\ forall (self : LogstashFormatterBase) (message region : sdict)
              (k : string) (v' : pyval),
         (message_v0 linux_utc self record_info = Ok message
          /\ region_v0 message = Some region)
         \/ (message_v1 linux_utc self record_info = Ok message
             /\ region_v1 message = Some region) ->
         Py.dict_get k fields = Some v' ->
         k <> "stack_trace" -> k <> "thread_name" ->
         Py.dict_get k region = Some v'.
Proof.
  apply (get_extra_fields_exact linux_utc record_info).
  - distinct_keys.
  - repeat (constructor; [intros _; eexists; reflexivity|]). constructor.
Defined.

(** C1, as stated, fails on version 0: the [@fields] mapping of every
    message has the key [levelname], a reserved name, with the level of
    the record. *)
Lemma levelname_counterexample :
  exists message region : sdict,
    message_v0 linux_utc logstash record_info = Ok message
    /\ region_v0 message = Some region
    /\ reserved "levelname" = true
    /\ Py.dict_get "levelname" region = Some (VStr "INFO")
    /\ ~ extras_of linux_utc record_info region.
Proof.
  eexists. eexists. split; [vm_compute; reflexivity|].
  split; [reflexivity|].
  split; [reflexivity|]. split; [reflexivity|].
  intros H. destruct (proj1 (H "levelname" (VStr "INFO")) eq_refl) as [R _].
  discriminate R.
Qed.

Lemma message_v1_structure_witness :
  exists (base debug message : sdict),
    base = [("@timestamp", VStr "2023-11-14T22:13:20.123Z");
            ("@version", VStr "1"); ("message", VStr "hello");
            ("host", VStr (host logstash)); ("path", VStr "/srv/app.py");
            ("tags", tags logstash); ("type", message_type logstash);
            ("level", VStr "INFO"); ("logger_name", VStr "app")]
    /\ (if Py.truthy exc_triple
        then get_debug_fields linux_utc record_error = Ok debug
        else debug = [])
    /\ message_v1 linux_utc logstash record_error = Ok message
    /\ message = Py.dict_update
                   (Py.dict_update base [("user_id", VInt 42)]) debug
    /\ (forall k, In k v1_keys -> In k (Py.keys message))
    /\ (forall k,
           Py.dict_get k message =
           match Py.dict_get k debug with
           | Some v => Some v
           | None => match Py.dict_get k [("user_id", VInt 42)] with
                     | Some v => Some v
                     | None => Py.dict_get k base
                     end
           end).
Proof.
  apply (message_v1_structure linux_utc logstash record_error in_2023);
    try (vm_compute; reflexivity).
  intros _. eexists. reflexivity.
Defined.

Lemma get_debug_fields_spec_witness :
  exists fields : sdict,
    get_debug_fields linux_utc record_error = Ok fields
    /\ Py.dict_get "stack_trace" fields
       = Some (VStr (("Traceback (most recent call last):" ++ newline)
                     ++ ("  File app.py, line 12, in handler" ++ newline)
                     ++ "ValueError: boom" ++ newline))
    /\ Py.dict_get "lineno" fields = Some (VInt 12)
    /\ Py.dict_get "process" fields = Some (VInt 4242)
    /\ Py.dict_get "thread_name" fields = Some (VStr "MainThread")
    /\ (forall k, In k (Py.keys fields) ->
                  In k (debug_keys ++ guarded_keys)%list)
    /\ (forall etype value tb,
           exc_triple = VTuple [etype; value; tb] ->
           (("Traceback (most recent call last):" ++ newline)
            ++ ("  File app.py, line 12, in handler" ++ newline)
            ++ "ValueError: boom" ++ newline)
           = Text.join "" (rt_format_exception linux_utc etype value tb))
    /\ (Py.truthy exc_triple = false ->
        (("Traceback (most recent call last):" ++ newline)
         ++ ("  File app.py, line 12, in handler" ++ newline)
         ++ "ValueError: boom" ++ newline) = "").
Proof.
  apply (get_debug_fields_spec linux_utc record_error exc_triple (VInt 12)
           (VInt 4242) (VStr "MainThread") (VStr "handler")
           (VStr "MainProcess"));
    reflexivity.
Defined.

(** C5, as stated, fails on a record whose [funcName] is [None]: the
    record carries exception context and the mapping has a fifth key. *)
Lemma funcName_counterexample :
  getattr record_no_func "exc_info" = Ok exc_triple
  /\ Py.truthy exc_triple = true
  /\ exists fields : sdict,
       get_debug_fields linux_utc record_no_func = Ok fields
       /\ Py.keys fields
          = ["stack_trace"; "lineno"; "process"; "thread_name"; "funcName"]
       /\ Py.keys fields <> debug_keys.
Proof.
  split; [reflexivity|]. split; [reflexivity|]. eexists.
  split; [reflexivity|]. split; [reflexivity|]. discriminate.
Qed.

Lemma get_debug_fields_guard_witness :
  getattr record_no_process "exc_info" = Ok exc_triple
  /\ Py.dict_get "processName" (__dict__ record_no_process) = None
  /\ get_debug_fields linux_utc record_no_process = Raise AttributeError.
Proof.
  split; [reflexivity|]. split; [reflexivity|].
  exact (proj1 (get_debug_fields_guard linux_utc record_no_process)
               _ _ _ eq_refl eq_refl).
Defined.

(** ** The serializer (claim C9) *)

Lemma bind_raise {A B : Type} (m : result A) (k : A -> result B) (e : exn) :
  bind m k = Raise e ->
  m = Raise e \/ exists a, m = Ok a /\ k a = Raise e.
Proof. destruct m as [a|e']; cbn; [eauto | intros [= ->]; now left]. Qed.

Lemma mapM_raise {A B : Type} (f : A -> result B) (l : list A) (e : exn) :
  mapM f l = Raise e -> exists x, In x l /\ f x = Raise e.
Proof.
  induction l as [|x l IH]; [discriminate|].
  rewrite mapM_cons. intros H.
  apply bind_raise in H as [H|(y & _ & H)].
  - exists x. split; [now left | exact H].
  - apply bind_raise in H as [H|(ys & _ & H)]; [|discriminate].
    destruct (IH H) as (z & I & Hz). exists z. split; [now right | exact Hz].
Qed.

Lemma dumps_dict (items : list (pyval * pyval)) :
  Json.dumps (VDict items) =
  (xs <- mapM json_item items ;; Ok ("{" ++ Text.join ", " xs ++ "}")).
Proof. reflexivity. Qed.

Lemma dumps_list (items : list pyval) :
  Json.dumps (VList items) =
  (xs <- mapM Json.dumps items ;; Ok ("[" ++ Text.join ", " xs ++ "]")).
Proof. reflexivity. Qed.

Lemma dumps_tuple (items : list pyval) :
  Json.dumps (VTuple items) =
  (xs <- mapM Json.dumps items ;; Ok ("[" ++ Text.join ", " xs ++ "]")).
Proof. reflexivity. Qed.

Lemma int_repr_spec (n : Z) :
  Py.int_repr n
  = if int_printable n then Ok (Text.dec n) else Raise ValueError.
Proof.
  unfold Py.int_repr, int_printable.
  rewrite Z.ltb_antisym. now destruct (_ <=? _).
Qed.

Lemma encode_key_spec (k : pyval) :
  (returns (Json.encode_key k) <-> json_key k = true)
  /\ forall e, Json.encode_key k = Raise e ->
               e = TypeError
               \/ (e = ValueError
                   /\ exists n, k = VInt n /\ int_printable n = false).
Proof.
  destruct k as [| b | n | f | s | items | items | items | d | d | d | u | o];
    cbn [Json.encode_key json_key]; split;
    try (split; [reflexivity | intros _; eexists; reflexivity]);
    try (split; [intros [x H]; discriminate H | discriminate]);
    try (intros e H; left; congruence);
    try (intros e H; discriminate H).
  - rewrite int_repr_spec. destruct (int_printable n).
    + split; [reflexivity | intros _; eexists; reflexivity].
    + split; [intros [x H]; discriminate H | discriminate].
  - rewrite int_repr_spec. intros e H. destruct (int_printable n) eqn:P.
    + discriminate H.
    + right. split; [congruence|]. now exists n.
Qed.

(** [json.dumps] raises nothing but [TypeError] and, on an [int] beyond the
    limit of the conversion to a string, [ValueError]. *)
Lemma dumps_raise (v : pyval) (e : exn) :
  Json.dumps v = Raise e ->
  e = TypeError \/ (e = ValueError /\ ints_printable v = false).
Proof.
  induction v as [| b | n | f | s | items IH | items IH | items IH
                  | d | d | d | u | o] using pyval_ind';
    try (cbn; intros H; left; congruence);
    try (cbn; intros H; discriminate H).
  - cbn [Json.dumps ints_printable]. rewrite int_repr_spec.
    destruct (int_printable n); [discriminate|].
    intros H. right. split; [congruence | reflexivity].
  - rewrite dumps_dict. intros H.
    apply bind_raise in H as [H|(xs & _ & H)]; [|discriminate].
    apply mapM_raise in H as ([k x] & I & H).
    assert (F : forall b : bool,
               b = false ->
               In (k, x) items ->
               (match k with VInt n => int_printable n | _ => true end
                && ints_printable x) = b ->
               ints_printable (VDict items) = false).
    { intros b -> J E. cbn [ints_printable].
      destruct (forallb _ items) eqn:A; [|reflexivity].
      rewrite forallb_forall in A. specialize (A _ J). cbn [fst snd] in A.
      congruence. }
    rewrite Forall_forall in IH. destruct (IH _ I) as [_ IHx].
    cbn in H, IHx.
    apply bind_raise in H as [H|(tk & _ & H)].
    + destruct (proj2 (encode_key_spec k) e H) as [T|(V & n & -> & P)];
        [now left | right].
      split; [exact V|]. apply (F false eq_refl I). now rewrite P.
    + apply bind_raise in H as [H|(tx & _ & H)]; [|discriminate].
      destruct (IHx H) as [T|[V P]]; [now left | right].
      split; [exact V|]. apply (F false eq_refl I).
      rewrite P. apply andb_false_r.
  - rewrite dumps_list. intros H.
    apply bind_raise in H as [H|(xs & _ & H)]; [|discriminate].
    apply mapM_raise in H as (x & I & H).
    rewrite Forall_forall in IH.
    destruct (IH x I H) as [T|[V P]]; [now left | right].
    split; [exact V|]. cbn [ints_printable].
    destruct (forallb _ items) eqn:A; [|reflexivity].
    rewrite forallb_forall in A. specialize (A _ I). congruence.
  - rewrite dumps_tuple. intros H.
    apply bind_raise in H as [H|(xs & _ & H)]; [|discriminate].
    apply mapM_raise in H as (x & I & H).
    rewrite Forall_forall in IH.
    destruct (IH x I H) as [T|[V P]]; [now left | right].
    split; [exact V|]. cbn [ints_printable].
    destruct (forallb _ items) eqn:A; [|reflexivity].
    rewrite forallb_forall in A. specialize (A _ I). congruence.
Qed.

Lemma returns_bind {A B : Type} (m : result A) (k : A -> result B) :
  returns (bind m k) <-> exists a, m = Ok a /\ returns (k a).
Proof.
  destruct m as [a|e]; cbn; split.
  - intros H. now exists a.
  - intros (x & [= <-] & H). exact H.
  - intros [x H]. discriminate H.
  - intros (x & H & _). discriminate H.
Qed.

(** [json.dumps] returns exactly on the values it can encode. *)
Lemma dumps_returns (v : pyval) :
  returns (Json.dumps v) <-> json_encodable v = true.
Proof.
  induction v as [| b | n | f | s | items IH | items IH | items IH
                  | d | d | d | u | o] using pyval_ind';
    try (cbn [Json.dumps json_encodable]; split;
         [reflexivity | intros _; eexists; reflexivity]);
    try (cbn [Json.dumps json_encodable]; split;
         [intros [x H]; discriminate H | discriminate]).
  - cbn [Json.dumps json_encodable]. rewrite int_repr_spec.
    destruct (int_printable n).
    + split; [reflexivity | intros _; eexists; reflexivity].
    + split; [intros [x H]; discriminate H | discriminate].
  - rewrite dumps_dict, returns_bind_ok, mapM_returns.
    cbn [json_encodable]. rewrite forallb_Forall.
    induction IH as [|[k x] l [_ IHx] _ IHl].
    + split; constructor.
    + cbn [fst snd] in IHx.
      split; intros H; inversion H as [|? ? Hx Hl]; subst; constructor;
        try (now apply IHl).
      * cbn in Hx. apply returns_bind in Hx as (tk & Hk & Hx).
        apply returns_bind in Hx as (tx & Hx & _).
        cbn [fst snd]. apply andb_true_intro. split.
        -- apply (encode_key_spec k). now exists tk.
        -- apply IHx. now exists tx.
      * cbn [fst snd] in Hx. apply andb_prop in Hx as [Hk Hx].
        apply (encode_key_spec k) in Hk as [tk Hk].
        apply IHx in Hx as [tx Hx].
        cbn. rewrite Hk, Hx. eexists. reflexivity.
  - rewrite dumps_list, returns_bind_ok, mapM_returns.
    cbn [json_encodable]. rewrite forallb_Forall.
    induction IH as [|x l IHx _ IHl].
    + split; constructor.
    + split; intros H; inversion H as [|? ? Hx Hl]; subst; constructor;
        try (now apply IHl); now apply IHx.
  - rewrite dumps_tuple, returns_bind_ok, mapM_returns.
    cbn [json_encodable]. rewrite forallb_Forall.
    induction IH as [|x l IHx _ IHl].
    + split; constructor.
    + split; intros H; inversion H as [|? ? Hx Hl]; subst; constructor;
        try (now apply IHl); now apply IHx.
Qed.

(** A JSON-safe value of the specification whose [int]s are within the
    limit is one [json.dumps] encodes. *)
Lemma json_safe_encodable (v : pyval) :
  json_safe v = true -> ints_printable v = true -> json_encodable v = true.
Proof.
  induction v as [| b | n | f | s | items IH | items IH | items IH
                  | d | d | d | u | o] using pyval_ind';
    cbn [json_safe json_encodable ints_printable]; try congruence;
    rewrite !forallb_Forall; intros H P.
  - induction IH as [|[k x] l [_ IHx] _ IHl]; [constructor|].
    inversion H as [|? ? Hx Hl]; subst.
    inversion P as [|? ? Px Pl]; subst. constructor; [|now apply IHl].
    cbn [fst snd] in Hx, Px, IHx |- *. apply andb_prop in Hx as [Hk Hx].
    apply andb_prop in Px as [Pk Px].
    apply andb_true_intro. split; [|now apply IHx].
    destruct k; try discriminate Hk; reflexivity.
  - induction IH as [|x l IHx _ IHl]; [constructor|].
    inversion H; subst. inversion P; subst.
    constructor; [now apply IHx | now apply IHl].
  - induction IH as [|x l IHx _ IHl]; [constructor|].
    inversion H; subst. inversion P; subst.
    constructor; [now apply IHx | now apply IHl].
Qed.

(** C9, as amended.  The serializer encodes the document to the UTF-8 bytes
    of its JSON text, and it fails, with the exception of the encoder
    surfaced to the caller, if and only if the document holds a value that
    is not a string, a number, a boolean, null, a mapping or an ordered
    sequence of such values, or a mapping key that is not a string, a
    number, a boolean or null ([TypeError]), or an [int] of more digits
    than the interpreter converts to a string ([ValueError]); it returns
    on every JSON-safe document of the specification whose [int]s are
    within that limit, and also on a document with numbers, booleans or
    null as keys. *)
Theorem serialize_spec (message : pyval) :
  (returns (serialize message) <-> json_encodable message = true)
  /\ (forall e : exn,
         serialize message = Raise e ->
         e = TypeError
         \/ (e = ValueError /\ ints_printable message = false))
  /\ (forall bytes : list Byte.byte,
         serialize message = Ok bytes ->
         exists text : string,
           Json.dumps message = Ok text /\ bytes = Json.utf8 text)
  /\ (json_safe message = true -> ints_printable message = true ->
      returns (serialize message)).
Proof.
  assert (R : returns (serialize message) <-> json_encodable message = true).
  { unfold serialize. rewrite returns_bind_ok. apply dumps_returns. }
  split; [exact R|]. split; [|split].
  - unfold serialize. intros e H.
    apply bind_raise in H as [H|(text & _ & H)]; [|discriminate].
    now apply (dumps_raise message).
  - unfold serialize. intros bytes H.
    apply bind_ok in H as (text & Ht & [= <-]). now exists text.
  - intros H P. apply R. now apply json_safe_encodable.
Qed.

Lemma serialize_spec_witness :
  json_safe (Py.dict_val [("user_id", VInt 42); ("tags", VList [])]) = true
  /\ ints_printable (Py.dict_val [("user_id", VInt 42); ("tags", VList [])])
     = true
  /\ returns (serialize (Py.dict_val [("user_id", VInt 42);
                                      ("tags", VList [])])).
Proof.
  split; [reflexivity|]. split; [reflexivity|].
  apply (proj2 (proj2 (proj2 (serialize_spec
           (Py.dict_val [("user_id", VInt 42); ("tags", VList [])]))))).
  - reflexivity.
  - reflexivity.
Defined.

(** C9, as stated, fails in both directions.  A mapping with an [int] key
    is not a mapping from string keys, so not JSON-safe, and the serializer
    returns, the key printed as a string; an [int] of 4301 digits is
    JSON-safe, and the serializer raises [ValueError]. *)
Lemma int_key_counterexample :
  json_safe int_keyed = false
  /\ Json.dumps int_keyed
     = Ok ("{" ++ Json.encode_string "k" ++ ": {" ++ Json.encode_string "1"
           ++ ": " ++ Json.encode_string "a" ++ "}}")
  /\ returns (serialize int_keyed)
  /\ json_safe huge = true
  /\ serialize huge = Raise ValueError.
Proof.
  split; [reflexivity|]. split; [vm_compute; reflexivity|].
  split; [eexists; vm_compute; reflexivity|].
  split; [reflexivity|]. vm_compute. reflexivity.
Qed.

(** ** More on the timestamp formatter *)

Lemma second_of_year (secs us : Z) :
  1 <= Calendar.year (Calendar.gmtime secs us) <= 9999 ->
  min_second <= secs <= max_second.
Proof.
  intros Y.
  pose proof (gmtime_fields secs us) as F. cbv zeta in F.
  destruct F as (Ho & [Hm Hd] & _).
  set (dt := Calendar.gmtime secs us) in *.
  pose proof (days_in_year_months (Calendar.year dt) (Calendar.month dt) Hm).
  unfold Calendar.ymd_to_ord in Ho.
  assert (L : 0 <= Calendar.days_before_year (Calendar.year dt)).
  { destruct (Z.eq_dec (Calendar.year dt) 1) as [E|N]; [now rewrite E|].
    pose proof (days_before_year_mono 1 (Calendar.year dt) ltac:(lia)).
    change (Calendar.days_before_year 1) with 0 in *.
    change (Calendar.days_in_year 1) with 365 in *. lia. }
  assert (U : Calendar.days_before_year (Calendar.year dt)
              + Calendar.days_in_year (Calendar.year dt) <= 3652059).
  { change 3652059 with (Calendar.days_before_year 10000).
    apply days_before_year_mono. lia. }
  assert (Hmin : min_second = - 62135596800) by reflexivity.
  assert (Hmax : max_second = 253402300799) by reflexivity.
  unfold Calendar.epoch_ord in Ho. rewrite Hmin, Hmax. euclid.
Qed.

Lemma utcfromtimestamp_exact_returns (t : Q) :
  returns (Calendar.utcfromtimestamp_exact t) <-> representable t.
Proof.
  split.
  - intros [dt H]. unfold Calendar.utcfromtimestamp_exact in H.
    rewrite timeval_micros in H. unfold Calendar.from_timeval in H.
    cbv zeta in H.
    destruct (_ || _) in H; [discriminate|].
    destruct (_ || _) in H; [discriminate|].
    destruct ((Calendar.year _ <? 1) || (9999 <? Calendar.year _)) eqn:Y in H;
      [discriminate|].
    apply orb_false_elim in Y as [Y1 Y2].
    apply Z.ltb_ge in Y1, Y2.
    apply (second_of_year _ (Calendar.to_micros t mod 1000000)).
    split; assumption.
  - intros H. rewrite (utcfromtimestamp_representable t H). now eexists.
Qed.

Lemma utcfromtimestamp_not_number (rt : runtime) (ts : pyval) :
  is_number ts = false -> format_timestamp rt ts = Raise TypeError.
Proof. destruct ts; cbn; intros H; try discriminate H; reflexivity. Qed.

(** X1.  [format_timestamp] returns exactly on the numeric timestamps
    ([float], [int], [bool]) whose value, rounded to the microsecond as
    [datetime.utcfromtimestamp] rounds it (the fraction times [1e6], a
    product of doubles, rounded half to even), falls in the years 1 to
    9999; a timestamp of another type raises
    [TypeError], a NaN [ValueError], an infinity [OverflowError]. *)
Theorem format_timestamp_returns (rt : runtime) (ts : pyval) :
  (returns (format_timestamp rt ts) <->
   exists t : Q, exact_value ts = Some t /\ representable t)
  /\ (is_number ts = false -> format_timestamp rt ts = Raise TypeError)
  /\ (ts = VFloat S754_nan -> format_timestamp rt ts = Raise ValueError)
  /\ (forall s : bool,
         ts = VFloat (S754_infinity s) ->
         format_timestamp rt ts = Raise OverflowError).
Proof.
  split; [|split; [apply utcfromtimestamp_not_number|split]].
  - unfold format_timestamp. rewrite returns_bind_ok. split.
    + intros H. destruct (exact_value ts) as [t|] eqn:E.
      * exists t. split; [reflexivity|].
        rewrite (utcfromtimestamp_exact_value ts t E) in H.
        now apply utcfromtimestamp_exact_returns.
      * exfalso. destruct H as [dt H].
        destruct ts; cbn in E, H; try discriminate.
        rewrite E in H. destruct f; discriminate.
    + intros (t & E & R).
      rewrite (utcfromtimestamp_exact_value ts t E).
      now apply utcfromtimestamp_exact_returns.
  - intros ->. reflexivity.
  - intros s ->. reflexivity.
Qed.

Lemma format_timestamp_returns_witness :
  is_number VNone = false
  /\ format_timestamp linux_utc VNone = Raise TypeError
  /\ format_timestamp linux_utc a_nan = Raise ValueError
  /\ format_timestamp linux_utc year_10000 = Raise ValueError.
Proof.
  split; [reflexivity|]. split.
  - apply (proj1 (proj2 (format_timestamp_returns linux_utc VNone))).
    reflexivity.
  - split; reflexivity.
Defined.




(** ** More on the value normalizer *)

Section NormalizerMore.

Variable rt : runtime.

Lemma value_repr_leaf_primitive (v w : pyval) :
  is_container v = false -> value_repr rt v = Ok w -> json_primitive w = true.
Proof.
  destruct v; cbn [is_container value_repr]; intros Hc H; try discriminate;
    try (injection H as <-; reflexivity);
    apply fmap_ok in H as (x & _ & ->); reflexivity.
Qed.

Lemma leaves_json_safe_primitive (w : pyval) :
  json_primitive w = true -> leaves_json_safe w = true.
Proof. destruct w; cbn; intros H; try discriminate; reflexivity. Qed.

(** A leaf is encodable after normalization as far as it is an [int]
    within the limit or no [int]. *)
Lemma normalized_leaf (v w : pyval) :
  is_container v = false -> value_repr rt v = Ok w ->
  json_encodable w = kept_encodable v.
Proof.
  destruct v; cbn [is_container value_repr]; intros Hc H; try discriminate;
    try (injection H as <-; reflexivity);
    apply fmap_ok in H as (x & _ & ->); reflexivity.
Qed.

(** What [value_repr] returns has primitives at its leaves, and is taken by
    [json.dumps] when what it kept, keys and integers, can be encoded. *)
Lemma normalized_leaves (v w : pyval) :
  value_repr rt v = Ok w ->
  leaves_json_safe w = true
  /\ (json_encodable w = true <-> kept_encodable v = true).
Proof.
  revert w. induction v as [| b | n | f | s | items IH | items IH | items IH
                            | d | d | d | u | o] using pyval_ind';
    intros w H;
    try (match type of H with
         | value_repr _ ?x = _ =>
             pose proof (value_repr_leaf_primitive x w eq_refl H) as Hp;
             pose proof (normalized_leaf x w eq_refl H) as He
         end;
         split; [now apply leaves_json_safe_primitive | now rewrite He]).
  - rewrite value_repr_dict in H.
    apply bind_ok in H as (items' & Hm & [= <-]).
    apply mapM_ok in Hm. cbn [leaves_json_safe json_encodable kept_encodable].
    rewrite !forallb_Forall.
    induction Hm as [|[k x] [k' x'] l l' Hkv Hm IHm].
    + split; [constructor | split; constructor].
    + inversion IH as [|? ? [_ IHx] IHl]; subst.
      cbn in Hkv. apply bind_ok in Hkv as (y & Hy & [= <- <-]).
      destruct (IHx y Hy) as [S1 S2]. destruct (IHm IHl) as [G1 G2].
      split; [constructor; assumption|].
      split; intros G; inversion G as [|? ? Gx Gl]; subst;
        cbn [fst snd] in Gx; apply andb_true_iff in Gx as [Gk Gv];
        constructor; try (now apply G2);
        cbn [fst snd]; apply andb_true_iff; split; try assumption;
        now apply S2.
  - rewrite value_repr_of_list in H.
    apply bind_ok in H as (items' & Hm & [= <-]).
    apply mapM_ok in Hm. cbn [leaves_json_safe json_encodable kept_encodable].
    rewrite !forallb_Forall.
    induction Hm as [|x x' l l' Hx Hm IHm].
    + split; [constructor | split; constructor].
    + inversion IH as [|? ? IHx IHl]; subst.
      destruct (IHx x' Hx) as [S1 S2]. destruct (IHm IHl) as [G1 G2].
      split; [constructor; assumption|].
      split; intros G; inversion G as [|? ? Gx Gl]; subst;
        constructor; try (now apply G2); now apply S2.
Qed.

(** X3.  Whatever the value, what [value_repr] returns has only JSON
    primitives at its leaves, and [json.dumps] returns on it exactly when
    what the normalizer keeps as it is can be encoded: every key of every
    mapping it went through is a primitive, and every [int], key or value,
    is within the limit of the conversion to a string. *)
Theorem value_repr_json_ready (v w : pyval) :
  value_repr rt v = Ok w ->
  leaves_json_safe w = true
  /\ (returns (Json.dumps w) <-> kept_encodable v = true).
Proof.
  intros H. destruct (normalized_leaves v w H) as [L E].
  split; [exact L|]. now rewrite dumps_returns.
Qed.

(** X4.  For every mapping on whose values the normalizer returns, the
    result is a new mapping with the same keys in the same order, the keys
    unchanged whatever their type, and at each key the normalized value. *)
Theorem value_repr_mapping (items : list (pyval * pyval)) :
  Forall (fun kv : pyval * pyval => returns (value_repr rt (snd kv))) items ->
  exists items' : list (pyval * pyval),
    value_repr rt (VDict items) = Ok (VDict items')
    /\ map fst items' = map fst items
    /\ forall (i : nat) (k x : pyval),
         nth_error items i = Some (k, x) ->
         exists y, nth_error items' i = Some (k, y)
                   /\ value_repr rt x = Ok y.
Proof.
  intros H.
  assert (R : Forall (fun kv => returns (normalize_item rt kv)) items).
  { eapply Forall_impl; [|exact H]. intros [k x] Hx. cbn in *.
    now rewrite returns_bind_ok. }
  apply mapM_returns in R as [items' Hm].
  exists items'. rewrite value_repr_dict.
  change (fun kv : pyval * pyval =>
            let (k, v) := kv in v' <- value_repr rt v ;; Ok (k, v'))
    with (normalize_item rt).
  rewrite Hm. split; [reflexivity|]. apply mapM_ok in Hm. split.
  - clear H. induction Hm as [|[k x] [k' x'] l l' Hkv Hm IHm];
      [reflexivity|].
    cbn in Hkv. apply bind_ok in Hkv as (y & _ & [= <- <-]).
    cbn. now rewrite IHm.
  - intros i k x Hi.
    destruct (Forall2_nth_error _ _ _ i (k, x) Hm Hi) as ([k' y] & Hy & Hkv).
    cbn in Hkv. apply bind_ok in Hkv as (z & Hz & [= <- <-]).
    exists z. now split.
Qed.

End NormalizerMore.

Lemma value_repr_json_ready_witness :
  leaves_json_safe (VDict [(pair, VList [VStr "(1, 2)"; huge])]) = true
  /\ (returns (Json.dumps (VDict [(pair, VList [VStr "(1, 2)"; huge])])) <->
      kept_encodable (VDict [(pair, VList [pair; huge])]) = true).
Proof.
  apply (value_repr_json_ready linux_utc
           (VDict [(pair, VList [pair; huge])])).
  reflexivity.
Defined.

Lemma value_repr_mapping_witness :
  exists items' : list (pyval * pyval),
    value_repr linux_utc (VDict [(pair, one_fifty); (VStr "id", an_uuid)])
    = Ok (VDict items')
    /\ map fst items' = [pair; VStr "id"]
    /\ forall (i : nat) (k x : pyval),
         nth_error [(pair, one_fifty); (VStr "id", an_uuid)] i = Some (k, x) ->
         exists y, nth_error items' i = Some (k, y)
                   /\ value_repr linux_utc x = Ok y.
Proof.
  apply (value_repr_mapping linux_utc
           [(pair, one_fifty); (VStr "id", an_uuid)]).
  repeat constructor; cbn [snd]; eexists; vm_compute; reflexivity.
Defined.

(** ** More on the extra fields *)

Section ExtrasMore.

Variable rt : runtime.

Lemma extra_fields_loop_ok (items fields out : sdict) :
  extra_fields_loop rt items fields = Ok out ->
  forall k v, In (k, v) items -> reserved k = false ->
              returns (value_repr rt v).
Proof.
  revert fields. induction items as [|[key value] items IH];
    intros fields H k v I R; [destruct I|].
  cbn [extra_fields_loop] in H. rewrite in_skip_list_reserved in H.
  destruct I as [[= -> ->]|I].
  - rewrite R in H. cbn [negb] in H.
    apply bind_ok in H as (x & Hx & _). now exists x.
  - destruct (reserved key); cbn [negb] in H.
    + exact (IH _ H k v I R).
    + apply bind_ok in H as (x & _ & H). exact (IH _ H k v I R).
Qed.

Lemma extra_fields_loop_reserved (items fields : sdict) :
  (forall k, In k (Py.keys items) -> reserved k = true) ->
  extra_fields_loop rt items fields = Ok fields.
Proof.
  induction items as [|[key value] items IH]; intros H; [reflexivity|].
  cbn [extra_fields_loop]. rewrite in_skip_list_reserved.
  rewrite (H key (or_introl eq_refl)). cbn [negb].
  apply IH. intros k I. apply H. now right.
Qed.

(** X5.  [get_extra_fields] returns exactly when [value_repr] returns on
    the value of every attribute whose name is not reserved: the value of
    a reserved attribute is never normalized, and a record that has only
    reserved attributes gives the empty mapping, whatever their values. *)
Theorem get_extra_fields_returns (record : LogRecord) :
  (returns (get_extra_fields rt record) <->
   forall k v, In (k, v) (__dict__ record) -> reserved k = false ->
               returns (value_repr rt v))
  /\ ((forall k, In k (Py.keys (__dict__ record)) -> reserved k = true) ->
      get_extra_fields rt record = Ok []).
Proof.
  unfold get_extra_fields. split; [split|].
  - intros [out H]. exact (extra_fields_loop_ok _ _ _ H).
  - apply extra_fields_loop_returns.
  - apply extra_fields_loop_reserved.
Qed.

Lemma dict_set_new (k : string) (v : pyval) (d : sdict) :
  ~ In k (Py.keys d) -> Py.dict_set k v d = (d ++ [(k, v)])%list.
Proof.
  induction d as [|[k' v'] d IH]; cbn; intros H; [reflexivity|].
  destruct (String.eqb_spec k k') as [E|N].
  - exfalso. apply H. left. now symmetry.
  - rewrite IH; [reflexivity|]. intros I. apply H. now right.
Qed.

Lemma extra_fields_loop_keys (items fields out : sdict) :
  NoDup (Py.keys fields ++ Py.keys items)%list ->
  extra_fields_loop rt items fields = Ok out ->
  Py.keys out
  = (Py.keys fields
     ++ filter (fun k => negb (reserved k)) (Py.keys items))%list.
Proof.
  revert fields. induction items as [|[key value] items IH];
    intros fields N H.
  - cbn in H. injection H as <-. cbn. now rewrite app_nil_r.
  - cbn [extra_fields_loop] in H. rewrite in_skip_list_reserved in H.
    cbn [Py.keys map fst filter] in *.
    destruct (reserved key); cbn [negb] in *.
    + apply (IH fields); [|exact H].
      apply NoDup_remove_1 in N. exact N.
    + apply bind_ok in H as (x & _ & H).
      assert (F : ~ In key (Py.keys fields)).
      { apply NoDup_remove_2 in N. intros I. apply N.
        apply in_or_app. now left. }
      rewrite (dict_set_new key x fields F) in H.
      assert (N' : NoDup (Py.keys (fields ++ [(key, x)])%list
                          ++ Py.keys items)%list).
      { unfold Py.keys. rewrite map_app. cbn. rewrite <- app_assoc. exact N. }
      rewrite (IH _ N' H).
      unfold Py.keys. rewrite map_app. cbn. now rewrite <- app_assoc.
Qed.

(** X6.  The extra fields come in the order of the record's attributes:
    the keys of what [get_extra_fields] returns are the names of the
    record's attributes that are not reserved, in the order the record has
    them. *)
Theorem get_extra_fields_order (record : LogRecord) (fields : sdict) :
  well_formed (__dict__ record) ->
  get_extra_fields rt record = Ok fields ->
  Py.keys fields
  = filter (fun k => negb (reserved k)) (Py.keys (__dict__ record)).
Proof.
  intros W H.
  apply (extra_fields_loop_keys (__dict__ record) [] fields W H).
Qed.

End ExtrasMore.

Lemma get_extra_fields_returns_witness :
  get_extra_fields linux_utc
    (mkrecord [("exc_info", snan); ("args", pair)] (Ok "hello")) = Ok [].
Proof.
  apply (proj2 (get_extra_fields_returns linux_utc
           (mkrecord [("exc_info", snan); ("args", pair)] (Ok "hello")))).
  intros k [<-|[<-|[]]]; reflexivity.
Defined.

Lemma get_extra_fields_order_witness :
  well_formed (__dict__ record_info)
  /\ exists fields,
       get_extra_fields linux_utc record_info = Ok fields
       /\ Py.keys fields = ["user_id"; "amount"].
Proof.
  assert (W : well_formed (__dict__ record_info)).
  { unfold well_formed. cbn.
    repeat (constructor; [cbn; intuition discriminate|]). constructor. }
  split; [exact W|].
  destruct (get_extra_fields linux_utc record_info) as [fields|e] eqn:E;
    [|vm_compute in E; discriminate E].
  exists fields. split; [reflexivity|].
  exact (get_extra_fields_order linux_utc record_info fields W E).
Defined.

(** ** More on the messages *)

Lemma keys_dict_update_iff (d other : sdict) (x : string) :
  In x (Py.keys (Py.dict_update d other)) <->
  In x (Py.keys d) \/ In x (Py.keys other).
Proof.
  unfold Py.dict_update. revert d.
  induction other as [|[k0 v0] other IH]; intros d; cbn.
  - tauto.
  - rewrite IH, keys_dict_set. cbn. intuition.
Qed.

Section MessagesMore.

Variable rt : runtime.

Lemma get_extra_fields_well_formed (record : LogRecord) (extra : sdict) :
  get_extra_fields rt record = Ok extra -> well_formed extra.
Proof.
  intros He.
  apply (extra_fields_loop_well_formed rt (__dict__ record) [] extra);
    [constructor | exact He].
Qed.

(** X7.  For every record and configuration on which the steps of the
    version 0 builder return, the builder returns a mapping with exactly
    the eight keys [@timestamp], [@message], [@source], [@source_host],
    [@source_path], [@tags], [@type] and [@fields], in this order, whatever
    the extras are called: [@source] is [type://host/path] and [@fields]
    is the mapping of [levelname] and [logger], updated with the extras,
    then with the debug fields if and only if the record carries exception
    context, a later write overwriting an earlier one of the same key. *)
Theorem message_v0_structure (self : LogstashFormatterBase)
  (record : LogRecord) (created pathname levelname name exc_info : pyval)
  (timestamp msg type path : string) (extra : sdict) :
  getattr record "created" = Ok created ->
  format_timestamp rt created = Ok timestamp ->
  getMessage record = Ok msg ->
  getattr record "pathname" = Ok pathname ->
  Py.str (message_type self) = Ok type ->
  Py.str pathname = Ok path ->
  getattr record "levelname" = Ok levelname ->
  getattr record "name" = Ok name ->
  get_extra_fields rt record = Ok extra ->
  getattr record "exc_info" = Ok exc_info ->
  (Py.truthy exc_info = true -> returns (get_debug_fields rt record)) ->
  exists (debug fields message : sdict),
    (if Py.truthy exc_info then get_debug_fields rt record = Ok debug
     else debug = [])
    /\ fields = Py.dict_update
                  (Py.dict_update [("levelname", levelname); ("logger", name)]
                                  extra) debug
    /\ message_v0 rt self record = Ok message
    /\ message = [("@timestamp", VStr timestamp);
                  ("@message", VStr msg);
                  ("@source", VStr (type ++ "://" ++ host self ++ "/" ++ path));
                  ("@source_host", VStr (host self));
                  ("@source_path", pathname);
                  ("@tags", tags self);
                  ("@type", message_type self);
                  ("@fields", Py.dict_val fields)]
    /\ Py.keys message = v0_keys
    /\ region_v0 message = Some fields
    /\ (forall k,
           Py.dict_get k fields =
           match Py.dict_get k debug with
           | Some v => Some v
           | None => match Py.dict_get k extra with
                     | Some v => Some v
                     | None => Py.dict_get k [("levelname", levelname);
                                              ("logger", name)]
                     end
           end).
Proof.
  intros Hc Ht Hm Hp Hty Hpa Hl Hn He Hx Hd.
  assert (D : exists debug,
             (if Py.truthy exc_info then get_debug_fields rt record = Ok debug
              else debug = [])
             /\ (if Py.truthy exc_info
                 then debug' <- get_debug_fields rt record ;;
                      Ok (Py.dict_update
                            (Py.dict_update
                               [("levelname", levelname); ("logger", name)]
                               extra) debug')
                 else Ok (Py.dict_update
                            [("levelname", levelname); ("logger", name)]
                            extra))
                = Ok (Py.dict_update
                        (Py.dict_update
                           [("levelname", levelname); ("logger", name)]
                           extra) debug)).
  { destruct (Py.truthy exc_info).
    - destruct (Hd eq_refl) as [debug Hdebug]. exists debug.
      split; [exact Hdebug|]. now rewrite Hdebug.
    - exists []. split; reflexivity. }
  destruct D as (debug & Hdebug & Hrun).
  exists debug. eexists. eexists.
  split; [exact Hdebug|]. split; [reflexivity|].
  pose proof (get_extra_fields_well_formed record extra He) as Wx.
  destruct (debug_or_nothing rt record exc_info debug Hdebug) as [Wd _].
  split; [|split; [reflexivity|split; [reflexivity|split]]].
  - unfold message_v0. rewrite Hc. cbn [bind]. rewrite Ht. cbn [bind].
    rewrite Hm. cbn [bind]. rewrite Hp. cbn [bind].
    unfold format_source. rewrite Hty. cbn [bind Py.str]. rewrite Hpa.
    cbn [bind]. rewrite Hl, Hn. cbn [bind]. rewrite He. cbn [bind].
    rewrite Hx. cbn [bind]. rewrite Hrun. reflexivity.
  - unfold region_v0, Py.dict_val. cbn. now rewrite region_of_fields.
  - intros k. now apply merged_get.
Qed.

(** X8.  The two schema versions carry the same extra and debug fields:
    when the version 0 builder returns, so does the version 1 builder, and
    every key that is not a schema key of either has the same value in the
    [@fields] mapping of the one and at the top level of the other. *)
Theorem versions_agree (self : LogstashFormatterBase) (record : LogRecord)
  (m0 : sdict) :
  message_v0 rt self record = Ok m0 ->
  exists (r0 m1 : sdict),
    region_v0 m0 = Some r0
    /\ message_v1 rt self record = Ok m1
    /\ forall k : string,
         ~ In k ("levelname" :: "logger" :: v1_keys) ->
         Py.dict_get k r0 = Py.dict_get k m1.
Proof.
  intros H0.
  destruct (message_v0_fields rt self record m0 H0)
    as (levelname & name & exc_info & extra & debug
        & Hl & Hn & He & Hx & Hd & Hr).
  unfold message_v0 in H0.
  apply bind_ok in H0 as (created & Hc & H0).
  apply bind_ok in H0 as (timestamp & Ht & H0).
  apply bind_ok in H0 as (msg & Hm & H0).
  apply bind_ok in H0 as (pathname & Hp & _).
  eexists. eexists. split; [exact Hr|].
  pose proof (get_extra_fields_well_formed record extra He) as Wx.
  destruct (debug_or_nothing rt record exc_info debug Hd) as [Wd _].
  assert (E : message_v1 rt self record
              = Ok (Py.dict_update
                      (Py.dict_update
                         [("@timestamp", VStr timestamp);
                          ("@version", VStr "1"); ("message", VStr msg);
                          ("host", VStr (host self)); ("path", pathname);
                          ("tags", tags self); ("type", message_type self);
                          ("level", levelname); ("logger_name", name)]
                         extra) debug)).
  { unfold message_v1. rewrite Hc. cbn [bind]. rewrite Ht. cbn [bind].
    rewrite Hm. cbn [bind]. rewrite Hp, Hl, Hn. cbn [bind].
    rewrite He. cbn [bind]. rewrite Hx. cbn [bind].
    destruct (Py.truthy exc_info); [now rewrite Hd | now subst debug]. }
  split; [exact E|].
  intros k N. rewrite !merged_get by assumption.
  destruct (Py.dict_get k debug); [reflexivity|].
  destruct (Py.dict_get k extra); [reflexivity|].
  rewrite !dict_get_not_in; [reflexivity| |]; cbn in *; tauto.
Qed.

Lemma get_debug_fields_entries (record : LogRecord) (debug : sdict) :
  get_debug_fields rt record = Ok debug ->
  exists (exc_info lineno process threadName : pyval) (trace : string),
    getattr record "exc_info" = Ok exc_info
    /\ format_exception rt exc_info = Ok trace
    /\ getattr record "lineno" = Ok lineno
    /\ getattr record "process" = Ok process
    /\ getattr record "threadName" = Ok threadName
    /\ Py.dict_get "stack_trace" debug = Some (VStr trace)
    /\ Py.dict_get "lineno" debug = Some lineno
    /\ Py.dict_get "process" debug = Some process
    /\ Py.dict_get "thread_name" debug = Some threadName
    /\ forall k v, Py.dict_get k debug = Some v ->
                   k = "stack_trace" /\ v = VStr trace
                   \/ exists name, In name copied_attributes
                                   /\ getattr record name = Ok v.
Proof.
  unfold get_debug_fields. intros H.
  apply bind_ok in H as (e & He & H). apply bind_ok in H as (t & Ht & H).
  apply bind_ok in H as (l & Hl & H). apply bind_ok in H as (p & Hp & H).
  apply bind_ok in H as (th & Hth & H). apply bind_ok in H as (f1 & H1 & H).
  apply bind_ok in H as (f2 & H2 & [= <-]).
  exists e, l, p, th, t. repeat (split; [assumption|]).
  assert (A : forall k v,
             Py.dict_get k [("stack_trace", VStr t); ("lineno", l);
                            ("process", p); ("thread_name", th)] = Some v ->
             k = "stack_trace" /\ v = VStr t
             \/ exists name, In name copied_attributes
                             /\ getattr record name = Ok v).
  { intros k v. cbn [Py.dict_get].
    destruct (String.eqb_spec k "stack_trace"); [intros [= <-]; now left|].
    destruct (String.eqb_spec k "lineno");
      [intros [= <-]; right; exists "lineno"; cbn; tauto|].
    destruct (String.eqb_spec k "process");
      [intros [= <-]; right; exists "process"; cbn; tauto|].
    destruct (String.eqb_spec k "thread_name");
      [intros [= <-]; right; exists "threadName"; cbn; tauto|].
    discriminate. }
  assert (B : forall (d : sdict) (key name : string) (x : pyval),
             In name copied_attributes -> getattr record name = Ok x ->
             (forall k v, Py.dict_get k d = Some v ->
                          k = "stack_trace" /\ v = VStr t
                          \/ exists name, In name copied_attributes
                                          /\ getattr record name = Ok v) ->
             forall k v, Py.dict_get k (Py.dict_set key x d) = Some v ->
                         k = "stack_trace" /\ v = VStr t
                         \/ exists name, In name copied_attributes
                                         /\ getattr record name = Ok v).
  { intros d key name x I G Hd k v.
    destruct (String.eqb_spec k key) as [->|N].
    - rewrite dict_get_set_eq. intros [= <-]. right. now exists name.
    - rewrite dict_get_set_neq by exact N. apply Hd. }
  destruct (Py.truthy (getattr_default record "funcName" VNone));
    destruct (Py.truthy (getattr_default record "processName" VNone));
    cbn [negb] in H1, H2;
    try (apply bind_ok in H1 as (fn & Hfn & H1));
    injection H1 as <-;
    try (apply bind_ok in H2 as (pn & Hpn & H2));
    injection H2 as <-;
    (repeat (split; [reflexivity|]));
    repeat match goal with
           | |- forall k v, Py.dict_get k [?a; ?b; ?c; ?d] = Some v -> _ =>
               exact A
           | |- forall k v,
                  Py.dict_get k [?a; ?b; ?c; ?d; (?key, ?x)] = Some v -> _ =>
               apply (B [a; b; c; d] key key x);
               [cbn; tauto | assumption |]
           | |- forall k v,
                  Py.dict_get k [?a; ?b; ?c; ?d; ?e; (?key, ?x)] = Some v
                  -> _ =>
               apply (B [a; b; c; d; e] key key x);
               [cbn; tauto | assumption |]
           end.
Qed.

(** X9.  With exception context the debug fields win: in the message of
    version 1 and in the [@fields] mapping of version 0, the entries
    [stack_trace], [lineno], [process] and [thread_name] are the formatted
    traceback and the record's [lineno], [process] and [threadName], also
    when the record has extras of these names. *)
Theorem debug_fields_override (self : LogstashFormatterBase)
  (record : LogRecord) (exc_info : pyval) :
  getattr record "exc_info" = Ok exc_info ->
  Py.truthy exc_info = true ->
  forall region : sdict,
    (message_v1 rt self record = Ok region
     \/ exists m0, message_v0 rt self record = Ok m0
                   /\ region_v0 m0 = Some region) ->
    exists (lineno process threadName : pyval) (trace : string),
      format_exception rt exc_info = Ok trace
      /\ getattr record "lineno" = Ok lineno
      /\ getattr record "process" = Ok process
      /\ getattr record "threadName" = Ok threadName
      /\ Py.dict_get "stack_trace" region = Some (VStr trace)
      /\ Py.dict_get "lineno" region = Some lineno
      /\ Py.dict_get "process" region = Some process
      /\ Py.dict_get "thread_name" region = Some threadName.
Proof.
  intros Hx T region H.
  assert (G : exists (d extra debug : sdict),
             get_extra_fields rt record = Ok extra
             /\ get_debug_fields rt record = Ok debug
             /\ region = Py.dict_update (Py.dict_update d extra) debug).
  { destruct H as [H1|(m0 & H0 & Hr)].
    - destruct (message_v1_merge rt self record region H1)
        as (c & p & l & n & e & ts & msg & extra & debug
            & _ & _ & _ & _ & _ & _ & He & Hx' & Hd & ->).
      assert (e = exc_info) by congruence. subst e. rewrite T in Hd.
      eexists. exists extra, debug. repeat split; assumption.
    - destruct (message_v0_fields rt self record m0 H0)
        as (l & n & e & extra & debug & _ & _ & He & Hx' & Hd & Hr').
      assert (e = exc_info) by congruence. subst e. rewrite T in Hd.
      exists [("levelname", l); ("logger", n)], extra, debug.
      repeat split; try assumption. congruence. }
  destruct G as (d & extra & debug & He & Hd & ->).
  destruct (get_debug_fields_entries record debug Hd)
    as (e & lineno & process & threadName & trace
        & Hx' & Ht & Hl & Hp & Hth & G1 & G2 & G3 & G4 & _).
  assert (e = exc_info) by congruence. subst e.
  exists lineno, process, threadName, trace.
  pose proof (get_extra_fields_well_formed record extra He) as Wx.
  pose proof (get_debug_fields_keys rt record debug Hd) as (Wd & _).
  rewrite !merged_get by assumption. rewrite G1, G2, G3, G4.
  repeat split; assumption.
Qed.

Lemma extra_fields_loop_key (items fields out : sdict) (k : string) :
  extra_fields_loop rt items fields = Ok out -> In k (Py.keys out) ->
  In k (Py.keys fields) \/ reserved k = false.
Proof.
  revert fields. induction items as [|[key value] items IH]; intros fields H I.
  - cbn in H. injection H as <-. now left.
  - cbn [extra_fields_loop] in H. rewrite in_skip_list_reserved in H.
    destruct (reserved key) eqn:R; cbn [negb] in H.
    + exact (IH _ H I).
    + apply bind_ok in H as (x & _ & H).
      destruct (IH _ H I) as [J|J]; [|now right].
      apply keys_dict_set in J as [->|J]; [now right | now left].
Qed.

(** X10.  The attributes [logging] itself gives a record stay out of the
    version 1 message: the only reserved name that is a key of it is
    [message], the schema's own key, and, with exception context,
    [lineno], [process], [funcName] and [processName]. *)
Theorem message_v1_reserved (self : LogstashFormatterBase)
  (record : LogRecord) (exc_info : pyval) (message : sdict) :
  message_v1 rt self record = Ok message ->
  getattr record "exc_info" = Ok exc_info ->
  forall k : string,
    reserved k = true -> In k (Py.keys message) ->
    k = "message"
    \/ (Py.truthy exc_info = true
        /\ In k ["lineno"; "process"; "funcName"; "processName"]).
Proof.
  intros H Hx k R I.
  destruct (message_v1_merge rt self record message H)
    as (c & p & l & n & e & ts & msg & extra & debug
        & _ & _ & _ & _ & _ & _ & He & Hx' & Hd & ->).
  assert (e = exc_info) by congruence. subst e.
  apply keys_dict_update_iff in I as [I|I].
  - apply keys_dict_update_iff in I as [I|I].
    + cbn in I.
      destruct I as [E|[E|[E|[E|[E|[E|[E|[E|[E|[]]]]]]]]]]; subst k;
        try discriminate R. now left.
    + unfold get_extra_fields in He.
      destruct (extra_fields_loop_key _ _ _ k He I) as [[]|J]. congruence.
  - right. destruct (Py.truthy exc_info).
    + split; [reflexivity|].
      pose proof (get_debug_fields_keys rt record debug Hd) as (_ & K & _).
      apply K in I. cbn in I.
      destruct I as [E|[E|[E|[E|[E|[E|[]]]]]]]; subst k;
        try discriminate R; cbn; tauto.
    + subst debug. destruct I.
Qed.

(** *** Serialization of the messages *)

Lemma encodable_dict_val (d : sdict) :
  json_encodable (Py.dict_val d) = true <->
  Forall (fun kv : string * pyval => json_encodable (snd kv) = true) d.
Proof.
  unfold Py.dict_val. cbn [json_encodable]. rewrite forallb_Forall.
  induction d as [|[k v] d IH]; cbn.
  - split; constructor.
  - split; intros F; inversion F; subst; constructor;
      try assumption; now apply IH.
Qed.

Lemma encodable_dict_set (k : string) (v : pyval) (d : sdict) :
  json_encodable v = true ->
  Forall (fun kv : string * pyval => json_encodable (snd kv) = true) d ->
  Forall (fun kv : string * pyval => json_encodable (snd kv) = true)
         (Py.dict_set k v d).
Proof.
  intros Hv. induction d as [|[k' v'] d IH]; cbn; intros F.
  - now repeat constructor.
  - inversion F as [|? ? Fx Fl]; subst.
    destruct (String.eqb k k'); constructor; try assumption.
    now apply IH.
Qed.

Lemma encodable_dict_update (d other : sdict) :
  Forall (fun kv : string * pyval => json_encodable (snd kv) = true) d ->
  Forall (fun kv : string * pyval => json_encodable (snd kv) = true) other ->
  Forall (fun kv : string * pyval => json_encodable (snd kv) = true)
         (Py.dict_update d other).
Proof.
  unfold Py.dict_update. revert d.
  induction other as [|[k v] other IH]; intros d Fd Fo; cbn; [exact Fd|].
  inversion Fo as [|? ? Fx Fl]; subst.
  apply IH; [|exact Fl]. now apply encodable_dict_set.
Qed.

Lemma extra_fields_loop_encodable (items fields out : sdict) :
  (forall k v, In (k, v) items -> reserved k = false ->
               kept_encodable v = true) ->
  Forall (fun kv : string * pyval => json_encodable (snd kv) = true) fields ->
  extra_fields_loop rt items fields = Ok out ->
  Forall (fun kv : string * pyval => json_encodable (snd kv) = true) out.
Proof.
  revert fields. induction items as [|[key value] items IH];
    intros fields K F H.
  - cbn in H. now injection H as <-.
  - cbn [extra_fields_loop] in H. rewrite in_skip_list_reserved in H.
    assert (K' : forall k v, In (k, v) items -> reserved k = false ->
                             kept_encodable v = true)
      by (intros k v I; apply K; now right).
    destruct (reserved key) eqn:R; cbn [negb] in H.
    + exact (IH _ K' F H).
    + apply bind_ok in H as (x & Hx & H).
      refine (IH _ K' _ H).
      apply encodable_dict_set; [|exact F].
      apply (normalized_leaves rt value x Hx).
      exact (K key value (or_introl eq_refl) R).
Qed.

Lemma get_debug_fields_encodable (record : LogRecord) (debug : sdict) :
  (forall name v, In name copied_attributes ->
                  getattr record name = Ok v -> json_encodable v = true) ->
  get_debug_fields rt record = Ok debug ->
  Forall (fun kv : string * pyval => json_encodable (snd kv) = true) debug.
Proof.
  intros A H.
  destruct (get_debug_fields_entries record debug H)
    as (e & l & p & th & t & _ & _ & _ & _ & _ & _ & _ & _ & _ & G).
  pose proof (get_debug_fields_keys rt record debug H) as (W & _).
  apply Forall_forall. intros [k v] I. cbn.
  apply (In_dict_get k v debug W) in I.
  destruct (G k v I) as [[_ ->]|(name & J & Hn)]; [reflexivity|].
  exact (A name v J Hn).
Qed.

(** X11.  Serialization of what the builders make: for a formatter on
    whose [tags] and [message_type] [json.dumps] returns, and a record on
    whose copied attributes ([pathname], [levelname], [name], [lineno],
    [process], [threadName], [funcName], [processName]) it returns and
    whose other attributes have only primitives as keys of their mappings
    and only integers within the limit of the conversion to a string,
    [format] returns, in both versions, whenever the message is built: the
    bytes of the JSON text of the message. *)
Theorem format_serializes (self : LogstashFormatterBase)
  (record : LogRecord) :
  returns (Json.dumps (tags self)) ->
  returns (Json.dumps (message_type self)) ->
  (forall name v, In name copied_attributes ->
                  getattr record name = Ok v -> returns (Json.dumps v)) ->
  (forall k v, In (k, v) (__dict__ record) -> reserved k = false ->
               kept_encodable v = true) ->
  (forall message : sdict,
      message_v1 rt self record = Ok message ->
      exists text : string,
        Json.dumps (Py.dict_val message) = Ok text
        /\ format_v1 rt self record = Ok (Json.utf8 text))
  /\ (forall message : sdict,
         message_v0 rt self record = Ok message ->
         exists text : string,
           Json.dumps (Py.dict_val message) = Ok text
           /\ format_v0 rt self record = Ok (Json.utf8 text)).
Proof.
  intros Ht Hty A K.
  apply dumps_returns in Ht, Hty.
  assert (A' : forall name v, In name copied_attributes ->
                getattr record name = Ok v -> json_encodable v = true)
    by (intros name v I G; apply dumps_returns; exact (A name v I G)).
  clear A. rename A' into A.
  assert (X : forall extra, get_extra_fields rt record = Ok extra ->
              Forall (fun kv : string * pyval =>
                        json_encodable (snd kv) = true) extra).
  { intros extra He.
    apply (extra_fields_loop_encodable (__dict__ record) [] extra K);
      [constructor | exact He]. }
  assert (D : forall exc_info debug,
              (if Py.truthy exc_info
               then get_debug_fields rt record = Ok debug
               else debug = []) ->
              Forall (fun kv : string * pyval =>
                        json_encodable (snd kv) = true) debug).
  { intros exc_info debug Hd. destruct (Py.truthy exc_info).
    - exact (get_debug_fields_encodable record debug A Hd).
    - subst. constructor. }
  assert (S : forall d : sdict,
              json_encodable (Py.dict_val d) = true ->
              exists text, Json.dumps (Py.dict_val d) = Ok text
                           /\ serialize (Py.dict_val d) = Ok (Json.utf8 text)).
  { intros d E. apply dumps_returns in E as [text E]. exists text.
    split; [exact E|]. unfold serialize. now rewrite E. }
  split; intros message H.
  - destruct (message_v1_merge rt self record message H)
      as (c & p & l & n & e & ts & msg & extra & debug
          & _ & _ & _ & Hp & Hl & Hn & He & _ & Hd & Hm).
    unfold format_v1. rewrite H. cbn [bind]. apply S.
    apply encodable_dict_val. subst message.
    apply encodable_dict_update; [|exact (D e debug Hd)].
    apply encodable_dict_update; [|exact (X extra He)].
    repeat constructor; cbn [snd]; try assumption.
    + apply (A "pathname"); [cbn; tauto | exact Hp].
    + apply (A "levelname"); [cbn; tauto | exact Hl].
    + apply (A "name"); [cbn; tauto | exact Hn].
  - destruct (message_v0_fields rt self record message H)
      as (l & n & e & extra & debug & Hl & Hn & He & _ & Hd & Hr).
    unfold format_v0. rewrite H. cbn [bind]. apply S.
    apply encodable_dict_val.
    unfold message_v0 in H.
    apply bind_ok in H as (created & _ & H).
    apply bind_ok in H as (timestamp & _ & H).
    apply bind_ok in H as (msg & _ & H).
    apply bind_ok in H as (pathname & _ & H).
    apply bind_ok in H as (source & _ & H).
    apply bind_ok in H as (pathname' & Hp & H).
    apply bind_ok in H as (l' & Hl' & H).
    apply bind_ok in H as (n' & Hn' & H).
    apply bind_ok in H as (extra' & He' & H).
    apply bind_ok in H as (e' & Hx' & H).
    apply bind_ok in H as (fields & Hf & [= <-]).
    assert (F : json_encodable (Py.dict_val fields) = true).
    { unfold region_v0, Py.dict_val in Hr. cbn in Hr.
      rewrite region_of_fields in Hr. injection Hr as ->.
      apply encodable_dict_val.
      apply encodable_dict_update; [|exact (D e debug Hd)].
      apply encodable_dict_update; [|exact (X extra He)].
      repeat constructor; cbn [snd].
      - apply (A "levelname"); [cbn; tauto | exact Hl].
      - apply (A "name"); [cbn; tauto | exact Hn]. }
    repeat constructor; cbn [snd]; try assumption.
    apply (A "pathname"); [cbn; tauto | exact Hp].
Qed.

End MessagesMore.

Lemma message_v0_structure_witness :
  exists (debug fields message : sdict),
    (if Py.truthy exc_triple
     then get_debug_fields linux_utc record_error = Ok debug
     else debug = [])
    /\ fields = Py.dict_update
                  (Py.dict_update
                     [("levelname", VStr "INFO"); ("logger", VStr "app")]
                     [("user_id", VInt 42)]) debug
    /\ message_v0 linux_utc logstash record_error = Ok message
    /\ message = [("@timestamp", VStr "2023-11-14T22:13:20.123Z");
                  ("@message", VStr "hello");
                  ("@source",
                   VStr ("Logstash" ++ "://" ++ host logstash ++ "/"
                         ++ "/srv/app.py"));
                  ("@source_host", VStr (host logstash));
                  ("@source_path", VStr "/srv/app.py");
                  ("@tags", tags logstash);
                  ("@type", message_type logstash);
                  ("@fields", Py.dict_val fields)]
    /\ Py.keys message = v0_keys
    /\ region_v0 message = Some fields
    /\ (forall k,
           Py.dict_get k fields =
           match Py.dict_get k debug with
           | Some v => Some v
           | None => match Py.dict_get k [("user_id", VInt 42)] with
                     | Some v => Some v
                     | None => Py.dict_get k [("levelname", VStr "INFO");
                                              ("logger", VStr "app")]
                     end
           end).
Proof.
  apply (message_v0_structure linux_utc logstash record_error in_2023);
    try reflexivity.
  intros _. eexists. reflexivity.
Defined.

Lemma versions_agree_witness :
  exists (r0 m1 : sdict),
    region_v0
      [("@timestamp", VStr "2023-11-14T22:13:20.123Z");
       ("@message", VStr "hello");
       ("@source", VStr "Logstash://myhost//srv/app.py");
       ("@source_host", VStr "myhost");
       ("@source_path", VStr "/srv/app.py");
       ("@tags", VList []);
       ("@type", VStr "Logstash");
       ("@fields",
        Py.dict_val [("levelname", VStr "INFO"); ("logger", VStr "app");
                     ("user_id", VInt 42);
                     ("amount",
                      VDict [(VStr "a", VFloat (Float64.of_decimal false 150 (- 2)));
                             (VStr "ids",
                              VList [VStr "12345678123456781234567812345678";
                                     VStr "x"; VNone])])])]
    = Some r0
    /\ message_v1 linux_utc logstash record_info = Ok m1
    /\ forall k : string,
         ~ In k ("levelname" :: "logger" :: v1_keys) ->
         Py.dict_get k r0 = Py.dict_get k m1.
Proof.
  apply (versions_agree linux_utc logstash record_info).
  vm_compute. reflexivity.
Defined.

Lemma debug_fields_override_witness :
  exists (region : sdict) (lineno process threadName : pyval)
         (trace : string),
    message_v1 linux_utc logstash record_shadow = Ok region
    /\ format_exception linux_utc exc_triple = Ok trace
    /\ getattr record_shadow "lineno" = Ok lineno
    /\ getattr record_shadow "process" = Ok process
    /\ getattr record_shadow "threadName" = Ok threadName
    /\ Py.dict_get "stack_trace" region = Some (VStr trace)
    /\ Py.dict_get "lineno" region = Some lineno
    /\ Py.dict_get "process" region = Some process
    /\ Py.dict_get "thread_name" region = Some threadName.
Proof.
  destruct (message_v1 linux_utc logstash record_shadow) as [region|e] eqn:E;
    [|vm_compute in E; discriminate E].
  destruct (debug_fields_override linux_utc logstash record_shadow exc_triple
              eq_refl eq_refl region (or_introl E))
    as (lineno & process & threadName & trace & H).
  exists region, lineno, process, threadName, trace.
  split; [reflexivity | exact H].
Defined.

Lemma message_v1_reserved_witness :
  "message" = "message"
  \/ (Py.truthy VNone = true
      /\ In "message" ["lineno"; "process"; "funcName"; "processName"]).
Proof.
  eapply (message_v1_reserved linux_utc logstash record_info VNone).
  - vm_compute. reflexivity.
  - reflexivity.
  - reflexivity.
  - cbn. tauto.
Defined.

Lemma format_serializes_witness :
  (forall message : sdict,
      message_v1 linux_utc logstash record_error = Ok message ->
      exists text : string,
        Json.dumps (Py.dict_val message) = Ok text
        /\ format_v1 linux_utc logstash record_error = Ok (Json.utf8 text))
  /\ (forall message : sdict,
         message_v0 linux_utc logstash record_error = Ok message ->
         exists text : string,
           Json.dumps (Py.dict_val message) = Ok text
           /\ format_v0 linux_utc logstash record_error
              = Ok (Json.utf8 text)).
Proof.
  apply (format_serializes linux_utc logstash record_error).
  - eexists. reflexivity.
  - eexists. reflexivity.
  - intros name v I H. apply getattr_ok in H. cbn in I.
    destruct I as [<-|[<-|[<-|[<-|[<-|[<-|[<-|[<-|[]]]]]]]]];
      vm_compute in H; injection H as <-; eexists; reflexivity.
  - intros k v I R. cbn in I.
    repeat (destruct I as [I|I];
            [injection I as <- <-; first [discriminate R | reflexivity]|]).
    destruct I.
Defined.

(** ** The decimal branch of the normalizer *)

Lemma all_chars_app (p : ascii -> bool) (a b : string) :
  all_chars p (a ++ b) = all_chars p a && all_chars p b.
Proof.
  induction a as [|c a IH]; cbn; [reflexivity|].
  now rewrite IH, andb_assoc.
Qed.

Lemma all_chars_impl (p q : ascii -> bool) (s : string) :
  (forall c, p c = true -> q c = true) ->
  all_chars p s = true -> all_chars q s = true.
Proof.
  intros H. induction s as [|c s IH]; cbn; [reflexivity|].
  intros G. apply andb_true_iff in G as [G1 G2].
  apply andb_true_iff. split; [now apply H | now apply IH].
Qed.

Lemma digits_value_app (acc : Z) (a b : string) :
  digits_value acc (a ++ b) = digits_value (digits_value acc a) b.
Proof. revert acc. induction a as [|c a IH]; intros acc; cbn; [reflexivity|]. apply IH. Qed.

Lemma all_digits_fixed (w : nat) (n : Z) :
  all_chars Text.is_digit (Text.digits_fixed w n) = true.
Proof.
  induction w as [|w IH]; cbn [Text.digits_fixed all_chars]; [reflexivity|].
  rewrite IH, digit_char_is_digit; [reflexivity | apply mod10_range].
Qed.

Lemma digits_value_fixed (w : nat) (n acc : Z) :
  digits_value acc (Text.digits_fixed w n)
  = acc * 10 ^ Z.of_nat w + n mod 10 ^ Z.of_nat w.
Proof.
  revert acc. induction w as [|w IH]; intros acc.
  - cbn. rewrite Z.mod_1_r. lia.
  - cbn [Text.digits_fixed digits_value].
    rewrite IH, code_digit_char by apply mod10_range.
    rewrite low_digits_split.
    rewrite Nat2Z.inj_succ, Z.pow_succ_r by lia. lia.
Qed.

Lemma ndigits_aux_bound (fuel : nat) (n : Z) :
  0 <= n < 2 ^ (Z.of_nat fuel + 1) ->
  n < 10 ^ Z.of_nat (Text.ndigits_aux fuel n).
Proof.
  revert n. induction fuel as [|fuel IH]; intros n H.
  - cbn in *. lia.
  - cbn [Text.ndigits_aux].
    destruct (Z.ltb_spec n 10) as [L|G]; [cbn; lia|].
    rewrite Nat2Z.inj_succ, Z.pow_succ_r by lia.
    assert (B : 0 <= n / 10 < 2 ^ (Z.of_nat fuel + 1)).
    { rewrite Nat2Z.inj_succ in H.
      replace (Z.succ (Z.of_nat fuel) + 1) with (Z.succ (Z.of_nat fuel + 1))
        in H by lia.
      rewrite Z.pow_succ_r in H by lia.
      split; [apply Z.div_pos; lia|].
      apply Z.div_lt_upper_bound; lia. }
    specialize (IH _ B).
    pose proof (Z.div_mod n 10 ltac:(lia)).
    pose proof (Z.mod_pos_bound n 10 ltac:(lia)). lia.
Qed.

Lemma ndigits_bound (n : Z) : 0 <= n -> n < 10 ^ Z.of_nat (Text.ndigits n).
Proof.
  intros H. unfold Text.ndigits. apply ndigits_aux_bound.
  split; [exact H|]. rewrite Z2Nat.id by apply Z.log2_nonneg.
  destruct (Z.eq_dec n 0) as [->|N]; [cbn; lia|].
  replace (Z.log2 n + 1) with (Z.succ (Z.log2 n)) by lia.
  apply Z.log2_spec. lia.
Qed.

Lemma ndigits_pos (n : Z) : (1 <= Text.ndigits n)%nat.
Proof.
  unfold Text.ndigits. destruct (Z.to_nat (Z.log2 n)); cbn; [lia|].
  destruct (n <? 10); lia.
Qed.

(** The decimal digits of a number that is not negative. *)
Lemma dec_digits (n : Z) :
  0 <= n ->
  exists (c : ascii) (r : string),
    Text.dec n = String c r
    /\ Text.is_digit c = true
    /\ all_chars Text.is_digit (Text.dec n) = true
    /\ forall acc,
         digits_value acc (Text.dec n)
         = acc * 10 ^ Z.of_nat (String.length (Text.dec n)) + n.
Proof.
  intros H. unfold Text.dec.
  destruct (Z.ltb_spec n 0) as [L|_]; [lia|].
  pose proof (ndigits_pos n) as P. pose proof (ndigits_bound n H) as B.
  destruct (Text.ndigits n) as [|w] eqn:E; [lia|].
  eexists. eexists. split; [reflexivity|]. split.
  - apply digit_char_is_digit, mod10_range.
  - split; [apply all_digits_fixed|]. intros acc.
    rewrite digits_value_fixed, digits_fixed_length.
    rewrite Z.mod_small by lia. reflexivity.
Qed.

Lemma all_digits_zeros (k : nat) :
  all_chars Text.is_digit (Text.zeros k) = true.
Proof. induction k as [|k IH]; cbn [Text.zeros all_chars]; [reflexivity|]. now rewrite IH. Qed.

Lemma zeros_length (k : nat) : String.length (Text.zeros k) = k.
Proof. induction k as [|k IH]; cbn; [reflexivity | now rewrite IH]. Qed.

Lemma digits_value_zeros (k : nat) (acc : Z) :
  digits_value acc (Text.zeros k) = acc * 10 ^ Z.of_nat k.
Proof.
  revert acc. induction k as [|k IH]; intros acc.
  - cbn. lia.
  - cbn [Text.zeros digits_value]. rewrite IH.
    change (Text.code "0" - 48) with 0.
    rewrite Nat2Z.inj_succ, Z.pow_succ_r by lia. lia.
Qed.

Lemma substring_split (s : string) (k : nat) :
  (k <= String.length s)%nat ->
  substring 0 k s ++ substring k (String.length s - k) s = s
  /\ String.length (substring 0 k s) = k.
Proof.
  revert k. induction s as [|c s IH]; intros k H.
  - cbn in H. assert (k = 0%nat) by lia. subst. now split.
  - destruct k as [|k].
    + cbn [substring String.length Nat.sub append]. split; [|reflexivity].
      f_equal. destruct (IH 0%nat ltac:(lia)) as [E _].
      rewrite Nat.sub_0_r in E. cbn in E.
      destruct s; cbn in *; [reflexivity | exact E].
    + cbn in H. destruct (IH k ltac:(lia)) as [E L].
      cbn [substring String.length Nat.sub append]. split.
      * f_equal. exact E.
      * now rewrite L.
Qed.

Lemma append_length (a b : string) :
  String.length (a ++ b) = (String.length a + String.length b)%nat.
Proof. induction a as [|c a IH]; cbn; [reflexivity | now rewrite IH]. Qed.

(** *** Reading a literal *)

Lemma digit_not_space (c : ascii) :
  Text.is_digit c = true -> FloatParse.is_space c = false.
Proof.
  unfold Text.is_digit, FloatParse.is_space. cbv zeta. intros H.
  apply andb_true_iff in H as [H1 H2]. apply Z.leb_le in H1, H2.
  repeat match goal with
         | |- context [?a <=? ?b] => destruct (Z.leb_spec a b); try lia
         | |- context [?a =? ?b] => destruct (Z.eqb_spec a b); try lia
         end; reflexivity.
Qed.

Lemma rstrip_plain (c : ascii) (s : string) :
  all_chars (fun x => negb (FloatParse.is_space x)) (String c s) = true ->
  FloatParse.rstrip (String c s) = Some (String c s).
Proof.
  revert c. induction s as [|c' s IH]; intros c H.
  - cbn in *. destruct (FloatParse.is_space c); [discriminate | reflexivity].
  - cbn [all_chars] in H. apply andb_true_iff in H as [H1 H2].
    change (FloatParse.rstrip (String c (String c' s)))
      with (match FloatParse.rstrip (String c' s) with
            | Some r => Some (String c r)
            | None => if FloatParse.is_space c then None
                      else Some (String c "")
            end).
    now rewrite (IH c' H2).
Qed.

Lemma strip_plain (c : ascii) (s : string) :
  all_chars (fun x => negb (FloatParse.is_space x)) (String c s) = true ->
  FloatParse.strip (String c s) = String c s.
Proof.
  intros H. unfold FloatParse.strip.
  assert (L : FloatParse.lstrip (String c s) = String c s).
  { cbn in *. apply andb_true_iff in H as [H1 _].
    destruct (FloatParse.is_space c); [discriminate | reflexivity]. }
  rewrite L. now rewrite (rstrip_plain c s H).
Qed.

Lemma digit_cases (c : ascii) :
  Text.is_digit c = true ->
  FloatParse.lower c = c
  /\ Ascii.eqb c "i" = false /\ Ascii.eqb c "n" = false
  /\ forall r, FloatParse.read_sign (String c r) = (false, String c r).
Proof.
  destruct c as [[] [] [] [] [] [] [] []]; intros H;
    try discriminate H; repeat split.
Qed.

Lemma read_digits_run (ds rest : string) (acc : Z) (cnt : nat) :
  all_chars Text.is_digit ds = true ->
  match rest with
  | String c _ => Text.is_digit c = false /\ Ascii.eqb c "_" = false
  | EmptyString => True
  end ->
  FloatParse.read_digits (ds ++ rest) acc cnt
  = (digits_value acc ds, (cnt + String.length ds)%nat, rest).
Proof.
  revert acc cnt. induction ds as [|c ds IH]; intros acc cnt D R.
  - cbn [append digits_value String.length]. rewrite Nat.add_0_r.
    destruct rest as [|c r]; [reflexivity|]. destruct R as [R1 R2].
    cbn [FloatParse.read_digits]. now rewrite R1, R2.
  - cbn [all_chars] in D. apply andb_true_iff in D as [D1 D2].
    cbn [append FloatParse.read_digits digits_value String.length].
    rewrite D1, (IH _ _ D2 R). f_equal. f_equal. lia.
Qed.

Lemma read_exponent_signed (e : Z) :
  FloatParse.read_exponent ("E" ++ Decimal.fmt_signed e) = Some (e, "").
Proof.
  cbn [append FloatParse.read_exponent].
  change (Ascii.eqb (FloatParse.lower "E") "e") with true. cbv iota.
  unfold Decimal.fmt_signed.
  destruct (Z.ltb_spec e 0) as [L|G].
  - unfold Text.dec. destruct (Z.ltb_spec e 0) as [_|G]; [|lia].
    cbn [append FloatParse.read_sign].
    rewrite <- (append_nil_r (Text.digits_fixed _ _)).
    rewrite read_digits_run by (try apply all_digits_fixed; exact I).
    rewrite digits_value_fixed, digits_fixed_length.
    pose proof (ndigits_pos (- e)) as P.
    pose proof (ndigits_bound (- e) ltac:(lia)) as B.
    rewrite Z.mod_small by lia.
    destruct (Text.ndigits (- e)); [lia|]. cbn [Nat.add Nat.eqb].
    f_equal. f_equal. lia.
  - cbn [append FloatParse.read_sign].
    destruct (dec_digits e G) as (c & r & E & Hc & Hd & Hv).
    rewrite <- (append_nil_r (Text.dec e)).
    rewrite read_digits_run by (try exact Hd; exact I).
    rewrite Hv, E. cbn [Nat.add String.length Nat.eqb].
    now rewrite Z.mul_0_l, Z.add_0_l.
Qed.

(** [float] of a literal: the nearest float to the number it denotes. *)
Lemma float_of_literal (neg : bool) (ds : string) (fs : option string)
  (ex : option Z) :
  ds <> "" -> all_chars Text.is_digit ds = true ->
  match fs with
  | Some f => all_chars Text.is_digit f = true
  | None => True
  end ->
  FloatParse.float_of_string (literal neg ds fs ex)
  = Ok (Float64.of_decimal neg
          (digits_value 0 (ds ++ match fs with Some f => f | None => "" end))
          (match ex with Some e => e | None => 0 end
           - Z.of_nat (String.length
                         match fs with Some f => f | None => "" end))).
Proof.
  intros N D F.
  destruct ds as [|d0 dr]; [contradiction|]. clear N.
  pose proof D as D'. cbn [all_chars] in D'.
  apply andb_true_iff in D' as [D0 _].
  destruct (digit_cases d0 D0) as (Hl & Hi & Hn & Hs).
  set (tail := (match fs with Some f => "." ++ f | None => "" end
                ++ match ex with
                   | Some e => "E" ++ Decimal.fmt_signed e
                   | None => ""
                   end)).
  assert (P : all_chars (fun x => negb (FloatParse.is_space x))
                (String d0 dr ++ tail) = true).
  { rewrite all_chars_app. apply andb_true_iff. split.
    - apply (all_chars_impl Text.is_digit); [|exact D].
      intros c Hc. now rewrite digit_not_space.
    - unfold tail. rewrite all_chars_app. apply andb_true_iff. split.
      + destruct fs as [f|]; [|reflexivity].
        cbn [append all_chars]. cbn.
        apply (all_chars_impl Text.is_digit); [|exact F].
        intros c Hc. now rewrite digit_not_space.
      + destruct ex as [e|]; [|reflexivity].
        cbn [append all_chars]. change (negb (FloatParse.is_space "E")) with true.
        cbn [andb]. unfold Decimal.fmt_signed, Text.dec.
        destruct (Z.ltb_spec e 0) as [L|G].
        * cbn [append all_chars].
          change (negb (FloatParse.is_space "-")) with true. cbn [andb].
          apply (all_chars_impl Text.is_digit); [|apply all_digits_fixed].
          intros c Hc. now rewrite digit_not_space.
        * cbn [append all_chars].
          change (negb (FloatParse.is_space "+")) with true. cbn [andb].
          apply (all_chars_impl Text.is_digit); [|apply all_digits_fixed].
          intros c Hc. now rewrite digit_not_space. }
  assert (S : FloatParse.read_sign (FloatParse.strip (literal neg (String d0 dr) fs ex))
              = (neg, String d0 dr ++ tail)).
  { unfold literal. fold tail. destruct neg; cbn [Decimal.sign_str append].
    - rewrite strip_plain; [reflexivity|].
      cbn [all_chars]. change (negb (FloatParse.is_space "-")) with true.
      exact P.
    - rewrite strip_plain by exact P. apply Hs. }
  unfold FloatParse.float_of_string. rewrite S. cbv zeta.
  assert (W : forall w, Ascii.eqb d0 w = false ->
              String.eqb (FloatParse.lower_str (String d0 dr ++ tail))
                         (String w "") = false
              /\ forall x, String.eqb
                             (FloatParse.lower_str (String d0 dr ++ tail))
                             (String w x) = false).
  { intros w Hw. unfold FloatParse.lower_str.
    cbn [append Text.flat_map_chars String.eqb]. rewrite Hl, Hw.
    now split. }
  change "inf" with (String "i"%char "nf").
  change "infinity" with (String "i"%char "nfinity").
  change "nan" with (String "n"%char "an").
  rewrite (proj2 (W "i"%char Hi) "nf"), (proj2 (W "i"%char Hi) "nfinity"),
    (proj2 (W "n"%char Hn) "an"). cbn [orb].
  assert (T : match tail with
              | String c _ => Text.is_digit c = false
                              /\ Ascii.eqb c "_" = false
              | EmptyString => True
              end).
  { unfold tail. destruct fs as [f|]; [now split|].
    destruct ex as [e|]; [now split | exact I]. }
  rewrite (read_digits_run (String d0 dr) tail 0 0 D T).
  unfold tail. destruct fs as [f|].
  - cbn [append].
    assert (T' : match (match ex with
                        | Some e => "E" ++ Decimal.fmt_signed e
                        | None => ""
                        end) with
                 | String c _ => Text.is_digit c = false
                                 /\ Ascii.eqb c "_" = false
                 | EmptyString => True
                 end) by (destruct ex; [now split | exact I]).
    rewrite (read_digits_run f _ _ 0 F T').
    cbn [Nat.add String.length Nat.eqb andb].
    rewrite <- digits_value_app.
    destruct ex as [e|].
    + now rewrite read_exponent_signed.
    + reflexivity.
  - cbn [append]. rewrite append_nil_r.
    destruct ex as [e|].
    + cbn [String.length Nat.add Nat.eqb andb].
      change (match "E" ++ Decimal.fmt_signed e with
              | String "." rest' =>
                  FloatParse.read_digits rest' (digits_value 0 (String d0 dr)) 0
              | _ => (digits_value 0 (String d0 dr), 0%nat,
                      "E" ++ Decimal.fmt_signed e)
              end)
        with (digits_value 0 (String d0 dr), 0%nat,
              "E" ++ Decimal.fmt_signed e).
      cbv iota. cbn [Nat.eqb andb].
      pose proof (read_exponent_signed e) as X. cbn [append] in X.
      now rewrite X.
    + reflexivity.
Qed.

Lemma split_digits (digits : string) (k : nat) :
  all_chars Text.is_digit digits = true ->
  (1 <= k <= String.length digits)%nat ->
  substring 0 k digits <> ""
  /\ all_chars Text.is_digit (substring 0 k digits) = true
  /\ all_chars Text.is_digit
       (substring k (String.length digits - k) digits) = true
  /\ substring 0 k digits ++ substring k (String.length digits - k) digits
     = digits
  /\ String.length (substring k (String.length digits - k) digits)
     = (String.length digits - k)%nat.
Proof.
  intros D K. destruct (substring_split digits k ltac:(lia)) as [E L].
  pose proof D as D'. rewrite <- E, all_chars_app in D'.
  apply andb_true_iff in D' as [D1 D2].
  split; [|split; [exact D1|split; [exact D2|split; [exact E|]]]].
  - intros Z. rewrite Z in L. cbn in L. lia.
  - pose proof (f_equal String.length E) as N.
    rewrite append_length, L in N. lia.
Qed.

(** [str] of a finite decimal is a literal that denotes it. *)
Lemma to_str_literal (neg : bool) (coeff exp : Z) :
  0 <= coeff ->
  exists (ds : string) (fs : option string) (ex : option Z),
    Decimal.to_str (Decimal.Finite neg coeff exp) = literal neg ds fs ex
    /\ ds <> ""
    /\ all_chars Text.is_digit ds = true
    /\ match fs with
       | Some f => all_chars Text.is_digit f = true
       | None => True
       end
    /\ digits_value 0 (ds ++ match fs with Some f => f | None => "" end)
       = coeff
    /\ match ex with Some e => e | None => 0 end
       - Z.of_nat (String.length match fs with Some f => f | None => "" end)
       = exp.
Proof.
  intros H. destruct (dec_digits coeff H) as (c & r & E & Hc & Hd & Hv).
  unfold Decimal.to_str. cbv zeta.
  set (digits := Text.dec coeff) in *.
  set (n := String.length digits) in *.
  assert (Hn : (1 <= n)%nat) by (unfold n; rewrite E; cbn; lia).
  assert (V : digits_value 0 digits = coeff) by (rewrite Hv; lia).
  assert (Nz : forall z : nat, digits ++ Text.zeros z <> "")
    by (intros z; rewrite E; discriminate).
  destruct ((exp <=? 0) && (- 6 <? exp + Z.of_nat n)) eqn:C.
  - apply andb_true_iff in C as [C1 C2].
    apply Z.leb_le in C1. apply Z.ltb_lt in C2. rewrite Z.eqb_refl.
    destruct (Z.leb_spec (exp + Z.of_nat n) 0) as [A1|A1].
    + exists "0",
        (Some (Text.zeros (Z.to_nat (- (exp + Z.of_nat n))) ++ digits)), None.
      split; [reflexivity|]. split; [discriminate|].
      split; [reflexivity|]. split.
      * now rewrite all_chars_app, all_digits_zeros, Hd.
      * split.
        -- rewrite !digits_value_app, digits_value_zeros.
           change (digits_value 0 "0") with 0. now rewrite Z.mul_0_l.
        -- rewrite append_length, zeros_length. fold n. lia.
    + destruct (Z.leb_spec (Z.of_nat n) (exp + Z.of_nat n)) as [A2|A2].
      * assert (exp = 0) by lia. subst exp.
        exists (digits ++ Text.zeros (Z.to_nat (0 + Z.of_nat n - Z.of_nat n))),
          None, None.
        split; [reflexivity|]. split; [apply Nz|].
        replace (0 + Z.of_nat n - Z.of_nat n) with 0 by lia.
        cbn [Z.to_nat Text.zeros]. rewrite !append_nil_r.
        repeat split; assumption.
      * destruct (split_digits digits (Z.to_nat (exp + Z.of_nat n)) Hd
                    ltac:(fold n; lia)) as (S1 & S2 & S3 & S4 & S5).
        fold n in S3, S4, S5.
        replace (n - Z.to_nat (exp + Z.of_nat n))%nat
          with (Z.to_nat (Z.of_nat n - (exp + Z.of_nat n))) in S3, S4, S5
          by lia.
        eexists. exists (Some (substring (Z.to_nat (exp + Z.of_nat n))
                                 (Z.to_nat (Z.of_nat n - (exp + Z.of_nat n)))
                                 digits)), None.
        split; [reflexivity|]. split; [exact S1|]. split; [exact S2|].
        split; [exact S3|]. split; [now rewrite S4|]. rewrite S5. lia.
  - assert (L : exp + Z.of_nat n <> 1).
    { apply andb_false_iff in C as [C|C];
        [apply Z.leb_gt in C | apply Z.ltb_ge in C]; lia. }
    change (1 <=? 0) with false. cbv iota.
    destruct (Z.eqb_spec (exp + Z.of_nat n) 1) as [Q|_]; [contradiction|].
    destruct (Z.leb_spec (Z.of_nat n) 1) as [B1|B1].
    + assert (N1 : n = 1%nat) by lia.
      exists (digits ++ Text.zeros (Z.to_nat (1 - Z.of_nat n))), None,
        (Some (exp + Z.of_nat n - 1)).
      split; [reflexivity|]. split; [apply Nz|].
      rewrite N1. cbn [Z.of_nat Z.to_nat Text.zeros Z.sub Z.add Z.opp
                         Pos.of_succ_nat Z.pos_sub].
      rewrite !append_nil_r. split; [exact Hd|]. split; [exact I|].
      split; [exact V|]. cbn [String.length Z.of_nat]. lia.
    + destruct (split_digits digits (Z.to_nat 1) Hd ltac:(fold n; lia))
        as (S1 & S2 & S3 & S4 & S5).
      fold n in S3, S4, S5.
      replace (n - Z.to_nat 1)%nat with (Z.to_nat (Z.of_nat n - 1))
        in S3, S4, S5 by lia.
      eexists. exists (Some (substring (Z.to_nat 1)
                               (Z.to_nat (Z.of_nat n - 1)) digits)),
        (Some (exp + Z.of_nat n - 1)).
      split; [reflexivity|]. split; [exact S1|]. split; [exact S2|].
      split; [exact S3|]. split; [now rewrite S4|]. rewrite S5. lia.
Qed.

(** [float(str(d))] of a finite decimal: the float nearest to it. *)
Lemma float_of_decimal (neg : bool) (coeff exp : Z) :
  0 <= coeff ->
  FloatParse.float_of_string (Decimal.to_str (Decimal.Finite neg coeff exp))
  = Ok (Float64.of_decimal neg coeff exp).
Proof.
  intros H.
  destruct (to_str_literal neg coeff exp H)
    as (ds & fs & ex & -> & N & D & F & V & X).
  rewrite (float_of_literal neg ds fs ex N D F). now rewrite V, X.
Qed.

(** A NaN with a payload is not a literal [float] reads. *)
Lemma float_of_payload (neg signaling : bool) (payload : Z) :
  0 < payload ->
  FloatParse.float_of_string
    (Decimal.to_str (Decimal.NaN neg signaling payload))
  = Raise ValueError.
Proof.
  intros H. destruct (dec_digits payload ltac:(lia)) as (c & r & E & Hc & Hd & _).
  unfold Decimal.to_str.
  destruct (Z.eqb_spec payload 0) as [Q|_]; [lia|].
  assert (P : all_chars (fun x => negb (FloatParse.is_space x))
                (Text.dec payload) = true).
  { apply (all_chars_impl Text.is_digit); [|exact Hd].
    intros x Hx. now rewrite digit_not_space. }
  unfold FloatParse.float_of_string.
  destruct neg, signaling; cbn [Decimal.sign_str append];
    (rewrite strip_plain by (cbn [all_chars]; rewrite P; reflexivity));
    cbn [FloatParse.read_sign]; cbv zeta; rewrite E; reflexivity.
Qed.

Section DecimalBranch.

Variable rt : runtime.

(** X12.  The decimal branch, [float(str(value))]: a finite decimal is
    normalized to the float nearest to its value, an infinity to the
    infinity of its sign, a quiet NaN without payload to NaN; a signaling
    NaN and a NaN with a payload raise [ValueError]. *)
Theorem value_repr_decimal_float (d : Decimal.decimal) :
  decimal_valid d ->
  value_repr rt (VDecimal d)
  = if float_convertible d then Ok (VFloat (decimal_float d))
    else Raise ValueError.
Proof.
  intros V. rewrite value_repr_decimal.
  destruct d as [neg coeff exp | neg | neg signaling payload];
    cbn [decimal_valid float_convertible decimal_float] in *.
  - now rewrite (float_of_decimal neg coeff exp V).
  - destruct neg; reflexivity.
  - destruct (Z.eqb_spec payload 0) as [->|N].
    + destruct neg, signaling; reflexivity.
    + rewrite (float_of_payload neg signaling payload) by lia.
      now rewrite andb_false_r.
Qed.

End DecimalBranch.

Lemma value_repr_decimal_float_witness :
  value_repr linux_utc one_fifty
  = Ok (VFloat (Float64.of_decimal false 150 (- 2))).
Proof.
  apply (value_repr_decimal_float linux_utc
           (Decimal.Finite false 150 (- 2))).
  cbn. lia.
Defined.

(** ** The date and time branches of the normalizer *)

(** *** [float(n)] is exact below [2 ^ 53] *)

Lemma digits2_pos_size (p : positive) : digits2_pos p = Pos.size p.
Proof. induction p as [p IH|p IH|]; cbn; now rewrite ?IH. Qed.

Lemma digits2_pos_bounds (p : positive) :
  2 ^ (Zpos (digits2_pos p) - 1) <= Zpos p < 2 ^ Zpos (digits2_pos p).
Proof.
  rewrite digits2_pos_size.
  pose proof (Pos.size_gt p) as G. pose proof (Pos.size_le p) as L.
  apply Pos2Z.pos_lt_pos in G. apply Pos2Z.pos_le_pos in L.
  rewrite Pos2Z.inj_pow in G, L.
  split; [|exact G].
  replace (Zpos (Pos.size p)) with (Z.succ (Zpos (Pos.size p) - 1)) in L
    by lia.
  rewrite Z.pow_succ_r in L by lia. lia.
Qed.

Lemma digits2_pos_shift (d m : positive) :
  Zpos (digits2_pos (Pos.iter xO m d)) = Zpos (digits2_pos m) + Zpos d.
Proof.
  induction d as [|d IH] using Pos.peano_ind.
  - cbn. lia.
  - rewrite Pos.iter_succ. cbn [digits2_pos]. lia.
Qed.

Lemma shift_value (d m : positive) :
  Zpos (Pos.iter xO m d) = Zpos m * 2 ^ Zpos d.
Proof.
  induction d as [|d IH] using Pos.peano_ind.
  - cbn. lia.
  - rewrite Pos.iter_succ, Pos2Z.inj_xO, IH, Pos2Z.inj_succ,
      Z.pow_succ_r by lia. lia.
Qed.

Lemma binary_round_aux_exact (s : bool) (mz : positive) (ez : Z) :
  Zpos (digits2_pos mz) = 53 -> - 1074 <= ez <= 971 ->
  binary_round_aux Float64.prec Float64.emax s (Zpos mz) ez loc_Exact
  = S754_finite s mz ez.
Proof.
  intros D E. unfold binary_round_aux, shr_fexp, fexp, Zdigits2,
    Float64.prec, Float64.emax, emin.
  rewrite D.
  replace (Z.max (53 + ez - 53) (3 - 1024 - 53) - ez) with 0 by lia.
  cbn [shr shr_record_of_loc shr_m loc_of_shr_record round_nearest_even
         Zdigits2].
  rewrite D.
  replace (Z.max (53 + ez - 53) (3 - 1024 - 53) - ez) with 0 by lia.
  cbn [shr shr_record_of_loc shr_m].
  destruct (Z.leb_spec ez (1024 - 53)) as [_|G]; [reflexivity | lia].
Qed.

Lemma binary_round_exact (s : bool) (m : positive) :
  Zpos m < 2 ^ 53 ->
  exists q : Q,
    Float64.to_Q (binary_round Float64.prec Float64.emax s m 0) = Some q
    /\ (q == if s then - inject_Z (Zpos m) else inject_Z (Zpos m))%Q.
Proof.
  intros H. pose proof (digits2_pos_bounds m) as B.
  assert (L : Zpos (digits2_pos m) <= 53).
  { destruct (Z.le_gt_cases (Zpos (digits2_pos m)) 53) as [L|G];
      [exact L|].
    assert (2 ^ 53 <= 2 ^ (Zpos (digits2_pos m) - 1))
      by (apply Z.pow_le_mono_r; lia). lia. }
  unfold binary_round, shl_align, fexp, Float64.prec, Float64.emax, emin.
  replace (Z.max (Zpos (digits2_pos m) + 0 - 53) (3 - 1024 - 53) - 0)
    with (Zpos (digits2_pos m) - 53) by lia.
  replace (Z.max (Zpos (digits2_pos m) + 0 - 53) (3 - 1024 - 53))
    with (Zpos (digits2_pos m) - 53) by lia.
  destruct (Zpos (digits2_pos m) - 53) as [|p|d] eqn:E; [|lia|].
  - pose proof (binary_round_aux_exact s m 0 ltac:(lia) ltac:(lia)) as R.
    unfold Float64.prec, Float64.emax in R. rewrite R.
    cbn [Float64.to_Q Z.leb Z.compare].
    eexists. split; [reflexivity|]. rewrite Z.pow_0_r, Z.mul_1_r.
    destruct s; reflexivity.
  - assert (D : Zpos (digits2_pos (Pos.iter xO m d)) = 53)
      by (rewrite digits2_pos_shift; lia).
    pose proof (binary_round_aux_exact s (Pos.iter xO m d) (Zneg d) D
                  ltac:(lia)) as R.
    unfold Float64.prec, Float64.emax in R. rewrite R.
    cbn [Float64.to_Q Z.leb Z.compare Z.opp].
    eexists. split; [reflexivity|].
    assert (V : (Zpos (Pos.iter xO m d) # Z.to_pos (2 ^ Zpos d)
                 == inject_Z (Zpos m))%Q).
    { unfold Qeq. cbn [Qnum Qden inject_Z].
      rewrite Z2Pos.id by (apply Z.pow_pos_nonneg; lia).
      rewrite shift_value. lia. }
    destruct s; [now rewrite V | exact V].
Qed.

Lemma of_Z_exact (n : Z) :
  - 2 ^ 53 < n < 2 ^ 53 ->
  exists q : Q,
    Float64.to_Q (Float64.of_Z n) = Some q /\ (q == inject_Z n)%Q.
Proof.
  intros H. unfold Float64.of_Z, binary_normalize.
  destruct n as [|m|m].
  - exists 0%Q. split; reflexivity.
  - destruct (binary_round_exact false m ltac:(lia)) as (q & Hq & E).
    exists q. now split.
  - destruct (binary_round_exact true m ltac:(lia)) as (q & Hq & E).
    exists q. split; [exact Hq|]. rewrite E. reflexivity.
Qed.

Section Dates.

Variable rt : runtime.

(** The text of the second [time.mktime] gives. *)
Lemma format_timestamp_mktime (y m d hh mm ss : Z) :
  let u := local_second rt (Calendar.timegm y m d hh mm ss) in
  min_second <= u <= max_second ->
  rt_pad_year rt = true \/ year_1000 <= u ->
  format_timestamp rt (mktime rt y m d hh mm ss)
  = Ok (iso_text (Calendar.gmtime u 0)).
Proof.
  cbv zeta. unfold local_second, mktime. cbv zeta.
  set (u := Calendar.timegm y m d hh mm ss
            - rt_utcoffset rt (Calendar.timegm y m d hh mm ss)).
  intros R P.
  assert (Hmin : min_second = - 62135596800) by reflexivity.
  assert (Hmax : max_second = 253402300799) by reflexivity.
  destruct (of_Z_exact u ltac:(lia)) as (q & Hq & E).
  pose proof (to_micros_whole q u E) as M.
  assert (S : rounded_second q = u)
    by (unfold rounded_second; rewrite M; apply Z.div_mul; lia).
  rewrite (format_timestamp_text rt (VFloat (Float64.of_Z u)) q Hq).
  - unfold utc_time. rewrite M, Z.div_mul, Z.mod_mul by lia. reflexivity.
  - unfold representable. now rewrite S.
  - now rewrite S.
Qed.

Lemma same_second (dt1 dt2 : Calendar.datetime) :
  valid_time dt1 -> valid_time dt2 ->
  epoch_millis dt1 = epoch_millis dt2 ->
  Calendar.microsecond dt1 = Calendar.microsecond dt2 ->
  dt1 = dt2.
Proof.
  intros V1 V2 E U.
  pose proof (epoch_millis_compare dt1 dt2 V1 V2) as C.
  rewrite E, Z.compare_refl in C.
  destruct dt1 as [y1 m1 d1 h1 mi1 s1 u1], dt2 as [y2 m2 d2 h2 mi2 s2 u2].
  cbn [Calendar.year Calendar.month Calendar.day Calendar.hour
         Calendar.minute Calendar.second Calendar.microsecond] in *.
  destruct (Z.compare_spec y1 y2); try discriminate.
  destruct (Z.compare_spec m1 m2); try discriminate.
  destruct (Z.compare_spec d1 d2); try discriminate.
  destruct (Z.compare_spec h1 h2); try discriminate.
  destruct (Z.compare_spec mi1 mi2); try discriminate.
  destruct (Z.compare_spec s1 s2); try discriminate.
  now subst.
Qed.

Lemma gmtime_timegm (dt : Calendar.datetime) :
  valid_time dt -> Calendar.gmtime (datetime_wall dt) 0 = whole_second dt.
Proof.
  intros V. apply same_second.
  - apply gmtime_valid. lia.
  - destruct V as (V1 & V2 & V3 & V4 & V5).
    repeat split; cbn; try apply V1; try assumption; lia.
  - rewrite epoch_millis_gmtime. unfold epoch_millis, whole_second,
      datetime_wall. cbn. reflexivity.
  - pose proof (gmtime_fields (datetime_wall dt) 0) as F. cbv zeta in F.
    destruct F as (_ & _ & _ & _ & _ & ->). reflexivity.
Qed.


(** X14.  The date branch: a date is read as the local midnight and
    written as the UTC time of that second; on a machine whose zone is UTC
    the text is the date followed by [T00:00:00.000Z]. *)
Theorem value_repr_local_date (d : Calendar.date) :
  let u := local_second rt (date_wall d) in
  min_second <= u <= max_second ->
  rt_pad_year rt = true \/ year_1000 <= u ->
  value_repr rt (VDate d) = Ok (VStr (iso_text (Calendar.gmtime u 0)))
  /\ (valid_date (Calendar.d_year d) (Calendar.d_month d) (Calendar.d_day d)
      -> rt_utcoffset rt (date_wall d) = 0 ->
      value_repr rt (VDate d) = Ok (VStr (iso_text (midnight d)))).
Proof.
  cbv zeta. intros R P.
  assert (E : value_repr rt (VDate d)
              = Ok (VStr (iso_text
                            (Calendar.gmtime
                               (local_second rt (date_wall d)) 0)))).
  { rewrite value_repr_date. unfold mktime_date.
    pose proof (format_timestamp_mktime
                  (Calendar.d_year d) (Calendar.d_month d) (Calendar.d_day d)
                  0 0 0) as F. cbv zeta in F. fold (date_wall d) in F.
    now rewrite (F R P). }
  split; [exact E|]. intros V Z. rewrite E. unfold local_second.
  rewrite Z, Z.sub_0_r.
  assert (W : valid_time (midnight d))
    by (repeat split; cbn; try apply V; lia).
  pose proof (gmtime_timegm (midnight d) W) as G.
  change (Calendar.gmtime (date_wall d) 0 = midnight d) in G.
  now rewrite G.
Qed.

End Dates.


Lemma value_repr_local_date_witness :
  value_repr linux_utc (VDate a_date)
  = Ok (VStr "2023-11-14T00:00:00.000Z")
  /\ (valid_date 2023 11 14 ->
      rt_utcoffset linux_utc (date_wall a_date) = 0 ->
      value_repr linux_utc (VDate a_date)
      = Ok (VStr (iso_text (midnight a_date)))).
Proof.
  apply (value_repr_local_date linux_utc a_date).
  - split; vm_compute; discriminate.
  - right. vm_compute. discriminate.
Defined.

(** ** More on the debug fields *)

Section DebugMore.

Variable rt : runtime.




End DebugMore.


(** An [exc_info] of two items makes [traceback.format_exception] raise
    [ValueError]; a triple of numbers makes it raise [AttributeError]. *)
Example get_debug_fields_ill_formed :
  get_debug_fields linux_utc
    (mkrecord (attributes pair (VStr "handler") []) (Ok "hello"))
  = Raise ValueError
  /\ get_debug_fields linux_utc
       (mkrecord (attributes (VTuple [VInt 1; VInt 2; VInt 3])
                             (VStr "handler") [])
                 (Ok "hello"))
     = Raise AttributeError.
Proof. split; reflexivity. Qed.

(** ** The bytes of a document *)

Lemma all_chars_substring (p : ascii -> bool) (s : string) (n m : nat) :
  all_chars p s = true -> all_chars p (substring n m s) = true.
Proof.
  revert n m. induction s as [|c s IH]; intros n m H.
  - destruct n, m; reflexivity.
  - cbn [all_chars] in H. apply andb_true_iff in H as [H1 H2].
    destruct n as [|n]; [destruct m as [|m]|]; cbn [substring all_chars].
    + reflexivity.
    + now rewrite H1, IH.
    + now apply IH.
Qed.

Lemma digit_is_ascii (c : ascii) : Text.is_digit c = true -> is_ascii c = true.
Proof.
  unfold Text.is_digit, is_ascii. intros H.
  apply andb_true_iff in H as [_ H]. apply Z.leb_le in H.
  apply Z.ltb_lt. lia.
Qed.

Lemma ascii_digits_fixed (w : nat) (n : Z) :
  all_chars is_ascii (Text.digits_fixed w n) = true.
Proof.
  apply (all_chars_impl Text.is_digit); [apply digit_is_ascii|].
  apply all_digits_fixed.
Qed.

Lemma ascii_dec (n : Z) : all_chars is_ascii (Text.dec n) = true.
Proof.
  unfold Text.dec. destruct (n <? 0); [cbn [append all_chars]|];
    now rewrite ascii_digits_fixed.
Qed.

Lemma ascii_zeros (k : nat) : all_chars is_ascii (Text.zeros k) = true.
Proof. induction k as [|k IH]; cbn [Text.zeros all_chars]; [reflexivity|]. now rewrite IH. Qed.

Lemma ascii_layout (digits : string) (decpt : Z) :
  all_chars is_ascii digits = true ->
  all_chars is_ascii (Float64.layout digits decpt) = true.
Proof.
  intros D. unfold Float64.layout. cbv zeta.
  assert (X : forall x, all_chars is_ascii (Float64.fmt_exponent x) = true).
  { intros x. unfold Float64.fmt_exponent, Text.fmt_0d.
    destruct (x <? 0); cbn [append all_chars];
      now rewrite ascii_digits_fixed. }
  destruct ((decpt <=? - 4) || (16 <? decpt)).
  - destruct digits as [|c [|c' rest]]; [reflexivity| |].
    + cbn [append all_chars] in *. apply andb_true_iff in D as [-> _].
      now rewrite X.
    + cbn [all_chars] in D. apply andb_true_iff in D as [D1 D2].
      apply andb_true_iff in D2 as [D2 D3].
      cbn [append all_chars]. rewrite D1, D2.
      change (is_ascii ".") with true. cbn [andb].
      rewrite all_chars_app, D3. cbn [all_chars andb].
      change (is_ascii "e") with true. now rewrite X.
  - destruct (decpt <=? 0).
    + cbn [append all_chars]. now rewrite all_chars_app, ascii_zeros, D.
    + destruct (_ <=? decpt).
      * now rewrite !all_chars_app, D, ascii_zeros.
      * rewrite all_chars_app. cbn [append all_chars].
        now rewrite !all_chars_substring by exact D.
Qed.

Lemma ascii_float (f : Float64.float) :
  all_chars is_ascii (Json.encode_float f) = true.
Proof.
  destruct f as [s|s| |s m e]; try (destruct s; reflexivity);
    [reflexivity|].
  unfold Json.encode_float, Float64.repr, Float64.shortest_digits.
  cbv zeta.
  destruct (Float64.shortest _ _ _ _ _ _) as [c x].
  destruct (Float64.strip_zeros _ _ _) as [c' x'].
  rewrite all_chars_app. rewrite ascii_layout by apply ascii_dec.
  destruct s; reflexivity.
Qed.

Lemma hex_char_is_hex (d : Z) :
  0 <= d < 16 -> is_hex (Text.hex_char d) = true.
Proof.
  intros H. unfold is_hex, Text.is_digit, Text.hex_char, Text.code.
  destruct (Z.ltb_spec d 10); rewrite N_ascii_embedding by lia;
    apply orb_true_iff; [left | right]; apply andb_true_iff;
    split; apply Z.leb_le; lia.
Qed.

Lemma all_hex_fixed (w : nat) (n : Z) :
  all_chars is_hex (Text.hex_fixed w n) = true.
Proof.
  induction w as [|w IH]; cbn [Text.hex_fixed all_chars]; [reflexivity|].
  rewrite IH, hex_char_is_hex; [reflexivity|].
  apply Z.mod_pos_bound. lia.
Qed.

Lemma hex_is_ascii (c : ascii) : is_hex c = true -> is_ascii c = true.
Proof.
  unfold is_hex, Text.is_digit, is_ascii. intros H. apply Z.ltb_lt.
  apply orb_true_iff in H as [H|H]; apply andb_true_iff in H as [_ H];
    apply Z.leb_le in H; lia.
Qed.

Lemma ascii_escape_char (c : ascii) :
  all_chars is_ascii (Json.escape_char c) = true.
Proof.
  unfold Json.escape_char. cbv zeta.
  repeat match goal with
         | |- context [if ?b then _ else _] =>
             destruct b eqn:?; [try reflexivity|]
         end.
  - cbn [all_chars]. unfold is_ascii.
    match goal with
    | H : _ && _ = true |- _ => apply andb_true_iff in H as [_ H];
                                apply Z.leb_le in H
    end.
    destruct (Z.ltb_spec (Text.code c) 128); [reflexivity | lia].
  - cbn [append all_chars].
    change (is_ascii Py.backslash) with true.
    change (is_ascii "u") with true. cbn [andb].
    apply (all_chars_impl is_hex); [apply hex_is_ascii | apply all_hex_fixed].
Qed.

Lemma ascii_encode_string (s : string) :
  all_chars is_ascii (Json.encode_string s) = true.
Proof.
  unfold Json.encode_string. cbn [all_chars].
  change (is_ascii Py.dquote) with true. cbn [andb].
  rewrite all_chars_app. cbn [all_chars].
  change (is_ascii Py.dquote) with true. rewrite andb_true_r.
  induction s as [|c s IH]; cbn [Text.flat_map_chars]; [reflexivity|].
  now rewrite all_chars_app, ascii_escape_char, IH.
Qed.

Lemma ascii_join (sep : string) (l : list string) :
  all_chars is_ascii sep = true ->
  Forall (fun s => all_chars is_ascii s = true) l ->
  all_chars is_ascii (Text.join sep l) = true.
Proof.
  intros S F. induction F as [|x l Hx F IH]; [reflexivity|].
  destruct l as [|y l]; [exact Hx|].
  change (Text.join sep (x :: y :: l))
    with (x ++ sep ++ Text.join sep (y :: l)).
  now rewrite !all_chars_app, Hx, S, IH.
Qed.

Lemma ascii_dumps (v : pyval) (text : string) :
  Json.dumps v = Ok text -> all_chars is_ascii text = true.
Proof.
  revert text.
  induction v as [| b | n | f | s | items IH | items IH | items IH
                  | d | d | d | u | o] using pyval_ind';
    intros text H; try discriminate H.
  - now injection H as <-.
  - injection H as <-. destruct b; reflexivity.
  - cbn in H. rewrite int_repr_spec in H.
    destruct (int_printable n); [|discriminate H].
    injection H as <-. apply ascii_dec.
  - injection H as <-. apply ascii_float.
  - injection H as <-. apply ascii_encode_string.
  - rewrite dumps_dict in H. apply bind_ok in H as (xs & Hm & [= <-]).
    cbn [append all_chars]. rewrite all_chars_app.
    rewrite ascii_join; [reflexivity | reflexivity |].
    apply mapM_ok in Hm.
    induction Hm as [|[k x] t l l' Hkv Hm IHm]; constructor.
    + inversion IH as [|? ? [_ IHx] _]; subst. cbv beta iota in Hkv.
      apply bind_ok in Hkv as (tk & _ & Hkv).
      apply bind_ok in Hkv as (tx & Hx & [= <-]).
      change (all_chars is_ascii (Json.encode_string tk ++ ": " ++ tx)
              = true).
      rewrite !all_chars_app, ascii_encode_string, (IHx tx Hx).
      reflexivity.
    + apply IHm. now inversion IH.
  - rewrite dumps_list in H. apply bind_ok in H as (xs & Hm & [= <-]).
    cbn [append all_chars]. rewrite all_chars_app.
    rewrite ascii_join; [reflexivity | reflexivity |].
    apply mapM_ok in Hm.
    induction Hm as [|x t l l' Hx Hm IHm]; constructor.
    + inversion IH as [|? ? IHx _]; subst. now apply IHx.
    + apply IHm. now inversion IH.
  - rewrite dumps_tuple in H. apply bind_ok in H as (xs & Hm & [= <-]).
    cbn [append all_chars]. rewrite all_chars_app.
    rewrite ascii_join; [reflexivity | reflexivity |].
    apply mapM_ok in Hm.
    induction Hm as [|x t l l' Hx Hm IHm]; constructor.
    + inversion IH as [|? ? IHx _]; subst. now apply IHx.
    + apply IHm. now inversion IH.
Qed.

Lemma utf8_ascii (s : string) :
  all_chars is_ascii s = true ->
  Json.utf8 s = map byte_of_ascii (list_ascii_of_string s).
Proof.
  unfold Json.utf8. induction s as [|c s IH]; intros H; [reflexivity|].
  cbn [all_chars] in H. apply andb_true_iff in H as [H1 H2].
  cbn [list_ascii_of_string flat_map map]. rewrite (IH H2).
  unfold is_ascii in H1. apply Z.ltb_lt in H1. cbv zeta.
  destruct (N.ltb_spec (Z.to_N (Text.code c)) 128) as [_|G]; [reflexivity|].
  unfold Text.code in *. lia.
Qed.

Lemma join_cons (x : string) (l : list string) :
  Text.join "" (x :: l) = x ++ Text.join "" l.
Proof.
  destruct l as [|y l]; [|reflexivity].
  cbn [Text.join]. induction x as [|c x IH]; [reflexivity|].
  cbn [append]. now rewrite <- IH.
Qed.

Lemma escape_char_code_point (c : ascii) :
  Json.escape_char c = escape_code_point (Text.code c).
Proof.
  assert (B : 0 <= Text.code c < 256).
  { unfold Text.code. pose proof (N_ascii_bounded c). lia. }
  assert (I : forall k : N, (k < 256)%N ->
              Ascii.eqb c (ascii_of_N k) = (Text.code c =? Z.of_N k)).
  { intros k Hk. unfold Text.code.
    destruct (Ascii.eqb_spec c (ascii_of_N k)) as [->|N].
    - rewrite N_ascii_embedding by exact Hk. now rewrite Z.eqb_refl.
    - symmetry. apply Z.eqb_neq. intros E. apply N.
      apply N2Z.inj in E. now rewrite <- E, ascii_N_embedding. }
  unfold Json.escape_char, escape_code_point. cbv zeta.
  rewrite (I 34%N eq_refl : Ascii.eqb c Py.dquote = (Text.code c =? 34)).
  rewrite (I 92%N eq_refl : Ascii.eqb c Py.backslash = (Text.code c =? 92)).
  repeat match goal with
         | |- (if ?b then _ else _) = (if ?b then _ else _) =>
             destruct b; [reflexivity|]
         end.
  destruct (_ && _).
  - unfold Text.code. now rewrite N2Z.id, ascii_N_embedding.
  - destruct (Z.ltb_spec (Text.code c) 65536); [reflexivity | lia].
Qed.

Lemma encode_string_code_points (s : string) :
  Json.encode_string s = encode_code_points (code_points s).
Proof.
  unfold Json.encode_string, encode_code_points, code_points. do 2 f_equal.
  induction s as [|c s IH]; [reflexivity|].
  cbn [Text.flat_map_chars list_ascii_of_string map].
  now rewrite join_cons, IH, escape_char_code_point.
Qed.

Lemma ascii_escape_u (n : Z) :
  all_chars is_ascii (String Py.backslash ("u" ++ Text.hex_fixed 4 n))
  = true.
Proof.
  cbn [append all_chars].
  change (is_ascii Py.backslash) with true.
  change (is_ascii "u") with true. cbn [andb].
  apply (all_chars_impl is_hex); [apply hex_is_ascii | apply all_hex_fixed].
Qed.

Lemma ascii_escape_code_point (n : Z) :
  all_chars is_ascii (escape_code_point n) = true.
Proof.
  unfold escape_code_point. cbv zeta.
  repeat match goal with
         | |- context [if ?b then _ else _] =>
             destruct b eqn:?; [try reflexivity|]
         end.
  - cbn [all_chars]. unfold is_ascii, Text.code.
    match goal with
    | H : _ && _ = true |- _ => apply andb_true_iff in H as [H1 H2];
                                apply Z.leb_le in H1, H2
    end.
    rewrite N_ascii_embedding by lia.
    destruct (Z.ltb_spec (Z.of_N (Z.to_N n)) 128); [reflexivity | lia].
  - apply ascii_escape_u.
  - rewrite all_chars_app. now rewrite !ascii_escape_u.
Qed.

Lemma ascii_encode_code_points (points : list Z) :
  all_chars is_ascii (encode_code_points points) = true.
Proof.
  unfold encode_code_points. cbn [all_chars].
  change (is_ascii Py.dquote) with true. cbn [andb].
  rewrite all_chars_app. cbn [all_chars].
  change (is_ascii Py.dquote) with true. rewrite andb_true_r.
  induction points as [|n points IH]; [reflexivity|].
  cbn [map]. now rewrite join_cons, all_chars_app, ascii_escape_code_point.
Qed.

(** X16.  The text [json.dumps] gives has only ASCII characters, so
    [serialize] returns one byte for each character of the text, the byte
    of that character: no byte of a document is above 127.  The strings
    of a message hold code points below 256 here; the text that
    [json.dumps] gives for a string is the escape of its code points, and
    that escape is ASCII for a string of any code points, those from
    [0x10000] on, written as surrogate pairs, included. *)
Theorem serialize_ascii (message : pyval) :
  (forall bytes : list Byte.byte,
      serialize message = Ok bytes ->
      exists text : string,
        Json.dumps message = Ok text
        /\ all_chars is_ascii text = true
        /\ bytes = map byte_of_ascii (list_ascii_of_string text)
        /\ List.length bytes = String.length text)
  /\ (forall s : string,
         Json.dumps (VStr s) = Ok (encode_code_points (code_points s)))
  /\ (forall points : list Z,
         all_chars is_ascii (encode_code_points points) = true).
Proof.
  split; [|split].
  - unfold serialize. intros bytes H.
    apply bind_ok in H as (text & Ht & [= <-]).
    exists text. pose proof (ascii_dumps message text Ht) as A.
    split; [exact Ht|]. split; [exact A|].
    rewrite (utf8_ascii text A). split; [reflexivity|].
    rewrite length_map. clear.
    induction text as [|c s IH]; cbn; [reflexivity|]. now rewrite IH.
  - intros s. cbn. now rewrite encode_string_code_points.
  - apply ascii_encode_code_points.
Qed.

Lemma serialize_ascii_witness :
  exists text : string,
    Json.dumps (VStr cafe) = Ok text
    /\ all_chars is_ascii text = true
    /\ Json.utf8 (Json.encode_string cafe)
       = map byte_of_ascii (list_ascii_of_string text)
    /\ List.length (Json.utf8 (Json.encode_string cafe))
       = String.length text.
Proof.
  apply (proj1 (serialize_ascii (VStr cafe))
               (Json.utf8 (Json.encode_string cafe))).
  reflexivity.
Defined.

(** [json.dumps] of [caf\xe9], of the euro sign and of a code point
    beyond [0xffff]. *)
Example encode_code_points_examples :
  Json.dumps (VStr cafe)
  = Ok (String Py.dquote
          ("caf" ++ String Py.backslash "u00e9" ++ String Py.dquote ""))
  /\ encode_code_points [8364]
     = String Py.dquote
         (String Py.backslash "u20ac" ++ String Py.dquote "")
  /\ encode_code_points [128512]
     = String Py.dquote
         (String Py.backslash "ud83d" ++ String Py.backslash "ude00"
          ++ String Py.dquote "").
Proof. repeat split. Qed.

(** ** The UUID branch of the normalizer *)

Lemma hex_value_fixed (w : nat) (n acc : Z) :
  hex_value acc (Text.hex_fixed w n)
  = acc * 16 ^ Z.of_nat w + n mod 16 ^ Z.of_nat w.
Proof.
  revert acc. induction w as [|w IH]; intros acc.
  - cbn. rewrite Z.mod_1_r. lia.
  - cbn [Text.hex_fixed hex_value]. rewrite IH.
    set (d := n / 16 ^ Z.of_nat w mod 16).
    assert (Hd : 0 <= d < 16) by (apply Z.mod_pos_bound; lia).
    assert (E : (if Text.is_digit (Text.hex_char d)
                 then Text.code (Text.hex_char d) - 48
                 else Text.code (Text.hex_char d) - 87) = d).
    { unfold Text.is_digit, Text.hex_char, Text.code.
      destruct (Z.ltb_spec d 10); rewrite N_ascii_embedding by lia.
      - destruct (Z.leb_spec 48 (Z.of_N (48 + Z.to_N d))); [|lia].
        destruct (Z.leb_spec (Z.of_N (48 + Z.to_N d)) 57); [|lia].
        cbn [andb]. lia.
      - destruct (Z.leb_spec 48 (Z.of_N (87 + Z.to_N d))); [|lia].
        destruct (Z.leb_spec (Z.of_N (87 + Z.to_N d)) 57); [lia|].
        cbn [andb]. lia. }
    rewrite E. unfold d.
    rewrite Nat2Z.inj_succ, Z.pow_succ_r by lia.
    assert (0 < 16 ^ Z.of_nat w) by (apply Z.pow_pos_nonneg; lia).
    rewrite (Z.mul_comm 16 (16 ^ Z.of_nat w)), Z.rem_mul_r by lia. lia.
Qed.

Lemma hex_fixed_length (w : nat) (n : Z) :
  String.length (Text.hex_fixed w n) = w.
Proof. induction w as [|w IH]; simpl; [reflexivity | now rewrite IH]. Qed.

Section UuidBranch.

Variable rt : runtime.

(** X17.  The UUID branch, [value.hex]: a UUID is normalized to a string
    of 32 lower-case hexadecimal digits, without hyphens, that denotes
    its 128-bit number; two UUIDs with the same string are the same. *)
Theorem value_repr_uuid_hex (u : Z) :
  0 <= u < 2 ^ 128 ->
  exists s : string,
    value_repr rt (VUUID u) = Ok (VStr s)
    /\ String.length s = 32%nat
    /\ all_chars is_hex s = true
    /\ hex_value 0 s = u
    /\ forall u' : Z,
         0 <= u' < 2 ^ 128 ->
         value_repr rt (VUUID u') = Ok (VStr s) -> u' = u.
Proof.
  intros H. exists (Text.hex_fixed 32 u).
  assert (V : forall x, 0 <= x < 2 ^ 128 ->
              hex_value 0 (Text.hex_fixed 32 x) = x).
  { intros x Hx. rewrite hex_value_fixed.
    change (16 ^ Z.of_nat 32) with (2 ^ 128).
    rewrite Z.mod_small by exact Hx. lia. }
  split; [reflexivity|]. split; [apply hex_fixed_length|].
  split; [apply all_hex_fixed|]. split; [now apply V|].
  intros u' H' E. rewrite value_repr_uuid in E.
  assert (E' : Text.hex_fixed 32 u' = Text.hex_fixed 32 u) by congruence.
  rewrite <- (V u' H'), <- (V u H). now rewrite E'.
Qed.

End UuidBranch.

Lemma value_repr_uuid_hex_witness :
  exists s : string,
    value_repr linux_utc an_uuid = Ok (VStr s)
    /\ String.length s = 32%nat
    /\ all_chars is_hex s = true
    /\ hex_value 0 s = 24197857161011715162171839636988778104
    /\ forall u' : Z,
         0 <= u' < 2 ^ 128 ->
         value_repr linux_utc (VUUID u') = Ok (VStr s) -> u' = 24197857161011715162171839636988778104.
Proof.
  apply (value_repr_uuid_hex linux_utc
           24197857161011715162171839636988778104).
  split; vm_compute; [discriminate | reflexivity].
Defined.
